(** * PayLevel Up: payroll aggregation and reconciliation engine

    A shallow embedding of the engine that lives inside the React
    components of the application (App.tsx, CalendarView, Dashboard,
    PayslipVerifier), followed by the properties proved about it.

    Modelling conventions.
    - A JavaScript [number] that holds a finite value is a rational ([Q]).
      The modules of the components take the arithmetic as exact; that is
      enough wherever the property does not depend on rounding (the same
      operations in the same order on both sides, comparisons, which
      branch is taken).  Where it does depend on rounding the functions
      are embedded a second time, in the modules whose names end in [64],
      over [Double]: the arithmetic of binary64, in which every operation
      returns the double nearest to the exact result.  The one place
      where the code can leave the finite range, the division in the
      progress bar, goes through [JS.value], which adds the two infinities
      and NaN.
    - Strings are [string]; the relational operators on strings compare
      code units from the left, which is [String.compare] on the ASCII
      range used by date strings and identifiers.
    - An optional or nullable field is an [option]; the [||] idiom is
      written out by the [JS.or_*] functions together with truthiness.
    - A [Date] object is its time value in milliseconds since the epoch.
      A function that reads the local clock at one time value ([getDay],
      [getDate]) takes the offset [tz] in force there, in minutes east of
      UTC; a function that goes back from a local time to a time value
      ([setDate]) takes the host zone, a [JSDate.Zone], which gives the
      offset at every time value and for every local time and so covers
      daylight-saving changes.
    - [crypto.randomUUID()], [Date.now()], [new Date()] and the answer to
      [window.confirm] are inputs of the functions that use them. *)

From Stdlib Require Import ZArith QArith Qround Qminmax Qabs Qpower.
From Stdlib Require Import String Ascii List Bool Lia Lqa Permutation.
From Stdlib Require Import DecimalString Sorted Morphisms.
From Stdlib Require PrimFloat SpecFloat FloatOps Uint63.
Import ListNotations.

(* ================================================================== *)
(** * Part I: the embedding                                            *)
(* ================================================================== *)

(** ** The fragments of the JavaScript runtime the engine relies on *)

Module JS.

Local Open Scope Q_scope.

(** Strict comparison of rationals, as a boolean. *)
Definition Qltb (a b : Q) : bool := negb (Qle_bool b a).

(** [a || b] on a possibly missing number: [undefined] and [0] are falsy. *)
Definition or_num (a : option Q) (b : Q) : Q :=
  match a with
  | Some q => if Qeq_bool q 0 then b else q
  | None => b
  end.

(** A possibly missing number is given when it is there and is not zero;
    these two say which operand [a || b] returns. *)
Definition given (a : option Q) (q : Q) : Prop := a = Some q /\ ~ q == 0.

Definition not_given (a : option Q) : Prop :=
  match a with
  | Some q => q == 0
  | None => True
  end.

(** Truthiness of a nullable string: [null], [undefined] and [''] are falsy. *)
Definition truthy_str (s : option string) : bool :=
  match s with
  | Some x => negb (x =? "")%string
  | None => false
  end.

(** [a || b] on a possibly missing string. *)
Definition or_str (a : option string) (b : string) : string :=
  match a with
  | Some x => if (x =? "")%string then b else x
  | None => b
  end.

(** [a || []] on a possibly missing array. *)
Definition or_list {A : Type} (a : option (list A)) : list A :=
  match a with
  | Some l => l
  | None => []
  end.

(** The relational operators on two strings. *)
Definition str_lt (a b : string) : bool := String.ltb a b.
Definition str_le (a b : string) : bool := negb (String.ltb b a).
Definition str_ge (a b : string) : bool := negb (String.ltb a b).

(** [a === b] where [a] may be [undefined] and [b] is a string. *)
Definition opt_str_eq (a : option string) (b : string) : bool :=
  match a with
  | Some x => (x =? b)%string
  | None => false
  end.

(** [jobs.find(p)] *)
Definition find {A : Type} (p : A -> bool) (l : list A) : option A :=
  List.find p l.

(** Results of a division: a finite number, an infinity, or NaN. *)
Inductive value : Type :=
| Fin (q : Q)
| PosInf
| NegInf
| NaN.

(** [a / b] on finite operands. *)
Definition div (a b : Q) : value :=
  if Qeq_bool b 0 then
    if Qeq_bool a 0 then NaN
    else if Qltb 0 a then PosInf else NegInf
  else Fin (a / b).

(** [x * c] for a finite [c]. *)
Definition mul (x : value) (c : Q) : value :=
  match x with
  | Fin q => Fin (q * c)
  | PosInf =>
      if Qeq_bool c 0 then NaN else if Qltb 0 c then PosInf else NegInf
  | NegInf =>
      if Qeq_bool c 0 then NaN else if Qltb 0 c then NegInf else PosInf
  | NaN => NaN
  end.

(** [Math.max(a, x)] and [Math.min(a, x)] for a finite [a]. *)
Definition Math_max (a : Q) (x : value) : value :=
  match x with
  | Fin q => Fin (Qmax a q)
  | PosInf => PosInf
  | NegInf => Fin a
  | NaN => NaN
  end.

Definition Math_min (a : Q) (x : value) : value :=
  match x with
  | Fin q => Fin (Qmin a q)
  | PosInf => Fin a
  | NegInf => NegInf
  | NaN => NaN
  end.

(** [Math.abs] *)
Definition Math_abs (x : Q) : Q := Qabs x.

(** [parseFloat(x.toFixed(2))]: the magnitude is rounded to the nearest
    hundredth, a tie going to the larger magnitude, and the sign is put
    back. *)
Definition toFixed2 (x : Q) : Q :=
  if Qltb x 0
  then - (inject_Z (Qfloor ((- x) * 100 + (1 # 2))) / 100)
  else inject_Z (Qfloor (x * 100 + (1 # 2))) / 100.

End JS.

(** ** Binary64 arithmetic *)

Module Double.

Local Open Scope Q_scope.

(** A finite double is the rational it denotes, a significand of at most
    53 bits times a power of two, and an operation returns the double
    nearest to the exact result, a tie going to the even significand.
    The exponent is not bounded here: overflow to the infinities and the
    subnormal range are outside the model, as is the sign of zero. *)

Definition pow2 (e : Z) : Q := 2 ^ e.

(** The exponent of a rational other than zero: the [e] with
    [2^e <= |x| < 2^(e+1)]. *)
Definition exponent (x : Q) : Z :=
  let e0 := (Z.log2 (Z.abs (Qnum x)) - Z.log2 (Zpos (Qden x)))%Z in
  if Qle_bool (pow2 e0) (Qabs x) then e0 else (e0 - 1)%Z.

(** The unit in the last place of the doubles of the magnitude of [x]. *)
Definition ulp (x : Q) : Q := pow2 (exponent x - 52).

(** The nearest integer, a tie going to the even one. *)
Definition nearestEven (q : Q) : Z :=
  let f := Qfloor q in
  let r := q - inject_Z f in
  if JS.Qltb r (1 # 2) then f
  else if JS.Qltb (1 # 2) r then (f + 1)%Z
  else if Z.even f then f else (f + 1)%Z.

(** The double nearest to a rational: what a decimal literal, [parseFloat]
    and every arithmetic operation return. *)
Definition round (x : Q) : Q :=
  if Qeq_bool x 0 then 0 else inject_Z (nearestEven (x / ulp x)) * ulp x.

(** [x + y], [x - y], [x * y] and [x / y] (for [y] other than zero). *)
Definition add (x y : Q) : Q := round (x + y).
Definition sub (x y : Q) : Q := round (x - y).
Definition mul (x y : Q) : Q := round (x * y).
Definition div (x y : Q) : Q := round (x / y).

(** The rationals that are doubles. *)
Definition isDouble (x : Q) : Prop :=
  exists m e : Z, (Z.abs m < 2 ^ 53)%Z /\ x == inject_Z m * pow2 e.

(** [parseFloat(x.toFixed(2))]: [toFixed] rounds the exact value of the
    double to hundredths, a tie going to the larger magnitude, and
    [parseFloat] reads the double nearest to that decimal. *)
Definition toFixed2 (x : Q) : Q := round (JS.toFixed2 x).

(** [vs.reduce((sum, v) => sum + v, 0)] *)
Definition sum (vs : list Q) : Q := fold_left add vs 0.

(** The measures the statements about sums use: the exact sum, the sum of
    the magnitudes, the unit roundoff [2^-53] and the factor
    [(1 + 2^-53)^n - 1] by which [n] roundings in a row can move a sum,
    relative to the sum of the magnitudes. *)
Definition exact (vs : list Q) : Q := fold_left (fun s v => s + v) vs 0.
Definition magnitude (vs : list Q) : Q := fold_left (fun s v => s + Qabs v) vs 0.
Definition u : Q := pow2 (-53).

Fixpoint growth (n : nat) : Q :=
  match n with
  | O => 1
  | S k => (1 + u) * growth k
  end.

Definition drift (n : nat) : Q := growth n - 1.

(** Numbers on the grid of step [2^-k] whose magnitudes sum to less than
    [2^(53-k)]: hours counted in quarters and paid at whole rates, say. *)
Definition onGrid (k : Z) (vs : list Q) : Prop :=
  Forall (fun v => exists z : Z, v == inject_Z z * pow2 (- k)) vs /\
  magnitude vs < pow2 (53 - k).

(** The rational a binary64 number of the proof assistant denotes ([None]
    for the infinities and NaN) and the binary64 number of a natural
    number below [2^53].  They are used to compare [round] with the
    arithmetic of the processor on examples. *)
Definition ofFloat (f : PrimFloat.float) : option Q :=
  match FloatOps.Prim2SF f with
  | SpecFloat.S754_zero _ => Some 0
  | SpecFloat.S754_finite s m e =>
      Some ((if s then - inject_Z (Zpos m) else inject_Z (Zpos m)) * pow2 e)
  | _ => None
  end.

Definition float (n : Z) : PrimFloat.float := PrimFloat.of_uint63 (Uint63.of_Z n).

Definition sameValue (x : PrimFloat.float) (q : Q) : bool :=
  match ofFloat x with
  | Some v => Qeq_bool v q
  | None => false
  end.

(** The decimal literals [a/100] and [b/100] and their sum, difference,
    product and quotient, by the processor and by [round]. *)
Definition agreesOn (a b : Z) : bool :=
  let fa := PrimFloat.div (float a) (float 100) in
  let fb := PrimFloat.div (float b) (float 100) in
  let qa := round (inject_Z a / 100) in
  let qb := round (inject_Z b / 100) in
  sameValue fa qa
  && sameValue (PrimFloat.add fa fb) (add qa qb)
  && sameValue (PrimFloat.sub fa fb) (sub qa qb)
  && sameValue (PrimFloat.mul fa fb) (mul qa qb)
  && sameValue (PrimFloat.div fa fb) (div qa qb).

End Double.

(** ** Dates *)

Module JSDate.

Local Open Scope Z_scope.

Definition msPerDay : Z := 86400000.
Definition msPerMinute : Z := 60000.

(** Day number and time within the day of a time value. *)
Definition Day (t : Z) : Z := t / msPerDay.
Definition TimeWithinDay (t : Z) : Z := t mod msPerDay.

(** Day number of a civil date of the proleptic Gregorian calendar; months
    are numbered from 1 and day 0 is 1970-01-01. *)
Definition days_from_civil (y m d : Z) : Z :=
  let y' := if m <=? 2 then y - 1 else y in
  let era := y' / 400 in
  let yoe := y' - era * 400 in
  let mp := (m + 9) mod 12 in
  let doy := (153 * mp + 2) / 5 + d - 1 in
  let doe := yoe * 365 + yoe / 4 - yoe / 100 + doy in
  era * 146097 + doe - 719468.

(** Civil date (year, month, day of month) of a day number. *)
Definition civil_from_days (z : Z) : Z * Z * Z :=
  let z' := z + 719468 in
  let era := z' / 146097 in
  let doe := z' - era * 146097 in
  let yoe := (doe - doe / 1460 + doe / 36524 - doe / 146096) / 365 in
  let y := yoe + era * 400 in
  let doy := doe - (365 * yoe + yoe / 4 - yoe / 100) in
  let mp := (5 * doy + 2) / 153 in
  let d := doy - (153 * mp + 2) / 5 + 1 in
  let m := if mp <? 10 then mp + 3 else mp - 9 in
  (if m <=? 2 then y + 1 else y, m, d).

(** Day of the week of a day number, Sunday = 0 ... Saturday = 6
    (1970-01-01 was a Thursday). *)
Definition WeekDay (day : Z) : Z := (day + 4) mod 7.

(** [MakeDay] and [MakeDate]: a day of the month outside the month rolls
    over into the neighbouring months. *)
Definition MakeDay (y m dt : Z) : Z := days_from_civil y m 1 + dt - 1.
Definition MakeDate (day time : Z) : Z := day * msPerDay + time.

(** Local time of a time value and back, in a zone [tz] minutes east of
    UTC. *)
Definition LocalTime (tz t : Z) : Z := t + tz * msPerMinute.
Definition UTC (tz t : Z) : Z := t - tz * msPerMinute.

(** [d.getDay()] and [d.getDate()] read the local time. *)
Definition getDay (tz t : Z) : Z := WeekDay (Day (LocalTime tz t)).

Definition getDate (tz t : Z) : Z :=
  let '(_, _, d) := civil_from_days (Day (LocalTime tz t)) in d.

(** The host time zone.  [offsetAt t] is the offset from UTC, in minutes
    east, in force at the time value [t] (LocalTZA(t, true) of the
    language specification); [offsetOfLocal lt] is the offset by which the
    local time [lt] is read back (LocalTZA(lt, false)): at a local time
    that a change of the clocks skips or repeats it is the offset before
    the change. *)
Record Zone : Type := mkZone {
  offsetAt : Z -> Z;
  offsetOfLocal : Z -> Z
}.

(** A zone without changes of the clock, [tz] minutes east of UTC. *)
Definition fixedZone (tz : Z) : Zone := mkZone (fun _ => tz) (fun _ => tz).

(** Europe/London during 2024: GMT, and British Summer Time (one hour
    east) from 2024-03-31 01:00 UTC to 2024-10-27 01:00 UTC. *)
Definition London2024 : Zone :=
  mkZone
    (fun t => if (1711846800000 <=? t) && (t <? 1729990800000) then 60 else 0)
    (fun lt => if (1711850400000 <=? lt) && (lt <? 1729994400000) then 60 else 0).

(** [d.setDate(dt)] replaces the day of the month of the local time and
    reads the result back as a local time. *)
Definition setDate (zone : Zone) (t dt : Z) : Z :=
  let lt := LocalTime (offsetAt zone t) t in
  let '(y, m, _) := civil_from_days (Day lt) in
  let newDate := MakeDate (MakeDay y m dt) (TimeWithinDay lt) in
  UTC (offsetOfLocal zone newDate) newDate.

(** Decimal digits of a natural number, left-padded with zeros. *)
Definition decimal (n : Z) : string :=
  NilZero.string_of_uint (N.to_uint (Z.to_N n)).

Fixpoint zeros (k : nat) : string :=
  match k with
  | O => EmptyString
  | S k' => String "0" (zeros k')
  end.

Definition padStart (width : nat) (s : string) : string :=
  (zeros (width - String.length s) ++ s)%string.

(** The date part of [d.toISOString()], which is the UTC calendar day:
    four digits for the years 0 to 9999, a sign and six digits otherwise. *)
Definition isoDateOfDay (day : Z) : string :=
  let '(y, m, d) := civil_from_days day in
  let year :=
    if ((0 <=? y) && (y <=? 9999))%Z then padStart 4 (decimal y)
    else ((if (y <? 0)%Z then "-" else "+") ++ padStart 6 (decimal (Z.abs y)))%string in
  (year ++ "-" ++ padStart 2 (decimal m) ++ "-" ++ padStart 2 (decimal d))%string.

Definition toISODate (t : Z) : string := isoDateOfDay (Day t).

(** Reading a string of the form YYYY-MM-DD. *)
Definition digit (c : ascii) : option Z :=
  let n := Z.of_N (N_of_ascii c) in
  if (48 <=? n) && (n <=? 57) then Some (n - 48) else None.

Definition num2 (a b : ascii) : option Z :=
  match digit a, digit b with
  | Some x, Some y => Some (10 * x + y)
  | _, _ => None
  end.

Definition num4 (a b c d : ascii) : option Z :=
  match num2 a b, num2 c d with
  | Some x, Some y => Some (100 * x + y)
  | _, _ => None
  end.

Definition parseISODate (s : string) : option (Z * Z * Z) :=
  match s with
  | String y1 (String y2 (String y3 (String y4 (String "-"
      (String m1 (String m2 (String "-"
        (String d1 (String d2 EmptyString))))))))) =>
      match num4 y1 y2 y3 y4, num2 m1 m2, num2 d1 d2 with
      | Some y, Some m, Some d =>
          if (1 <=? m) && (m <=? 12) && (1 <=? d) && (d <=? 31)
          then Some (y, m, d) else None
      | _, _, _ => None
      end
  | _ => None
  end.

(** [new Date(s)] for a date-only string: midnight UTC of that day, or
    [None] for an invalid date.  Only the form written by the date inputs
    and by [toISOString] is read; a day of the month beyond the end of
    the month rolls over, as in [MakeDay]. *)
Definition newDate (s : string) : option Z :=
  match parseISODate s with
  | Some (y, m, d) => Some (MakeDate (MakeDay y m d) 0)
  | None => None
  end.

(** [const day = new Date(s).getDay(); day === 0 || day === 6]; the day of
    an invalid date is NaN, which equals neither. *)
Definition isWeekend (tz : Z) (s : string) : bool :=
  match newDate s with
  | Some t => let day := getDay tz t in (day =? 0) || (day =? 6)
  | None => false
  end.

(** The day of the week of the calendar date a string denotes. *)
Definition weekdayOfDate (s : string) : option Z :=
  match parseISODate s with
  | Some (y, m, d) => Some (WeekDay (days_from_civil y m d))
  | None => None
  end.

End JSDate.

(** ** The data model (types.ts) *)

Module Job.
Record t : Type := mk {
  id : string;
  name : string;
  color : string;
  hourlyRate : Q;
  weekendHourlyRate : Q;
  targetHours : Q;
  nextHourlyRate : Q;
  nextWeekendHourlyRate : Q
}.
End Job.

(** A log written before the multi-job schema has no [jobId]. *)
Module WorkLog.
Record t : Type := mk {
  id : string;
  jobId : option string;
  date : string;
  startTime : string;
  endTime : string;
  duration : Q;
  notes : string;
  timestamp : Z
}.
End WorkLog.

Module ShiftTemplate.
Record t : Type := mk {
  id : string;
  name : string;
  jobId : string;
  startTime : string;
  endTime : string;
  notes : string
}.
End ShiftTemplate.

Inductive PayFrequency : Type := biweekly | monthly.
Inductive Theme : Type := light | dark.

(** The settings object held in memory: the global fields are there (the
    defaults fill them in at load), the backup stamp and the deprecated
    single-job fields are optional. *)
Module UserSettings.
Record t : Type := mk {
  currency : string;
  userName : string;
  payFrequency : PayFrequency;
  taxRate : Q;
  theme : Theme;
  lastBackupTimestamp : option Z;
  targetHours : option Q;
  hourlyRate : option Q;
  weekendHourlyRate : option Q;
  nextHourlyRate : option Q;
  nextWeekendHourlyRate : option Q
}.
End UserSettings.

(** The settings object as read back from storage: a blob of unknown
    vintage may lack any field. *)
Module StoredSettings.
Record t : Type := mk {
  currency : option string;
  userName : option string;
  payFrequency : option PayFrequency;
  taxRate : option Q;
  theme : option Theme;
  lastBackupTimestamp : option Z;
  targetHours : option Q;
  hourlyRate : option Q;
  weekendHourlyRate : option Q;
  nextHourlyRate : option Q;
  nextWeekendHourlyRate : option Q
}.
End StoredSettings.

Module AppState.
Record t : Type := mk {
  logs : list WorkLog.t;
  settings : UserSettings.t;
  jobs : list Job.t;
  templates : list ShiftTemplate.t
}.
End AppState.

(** The result of [JSON.parse] on the stored text. *)
Module StoredState.
Record t : Type := mk {
  logs : option (list WorkLog.t);
  settings : option StoredSettings.t;
  jobs : option (list Job.t);
  templates : option (list ShiftTemplate.t)
}.
End StoredState.

Definition DEFAULT_SETTINGS : UserSettings.t :=
  UserSettings.mk "HKD" "Employee" biweekly 0 light
    None None None None None None.

Definition DEFAULT_JOB : Job.t :=
  Job.mk "default" "Main Job" "#4F46E5" 60 60 1000 70 70.

(** ** App.tsx: loading, migration and the job commands *)

Module App.

Definition or_default {A : Type} (a : option A) (d : A) : A :=
  match a with
  | Some x => x
  | None => d
  end.

(** [{ ...DEFAULT_SETTINGS, ...parsed.settings }] *)
Definition mergeSettings (p : option StoredSettings.t) : UserSettings.t :=
  match p with
  | None => DEFAULT_SETTINGS
  | Some s =>
      UserSettings.mk
        (or_default (StoredSettings.currency s) (UserSettings.currency DEFAULT_SETTINGS))
        (or_default (StoredSettings.userName s) (UserSettings.userName DEFAULT_SETTINGS))
        (or_default (StoredSettings.payFrequency s) (UserSettings.payFrequency DEFAULT_SETTINGS))
        (or_default (StoredSettings.taxRate s) (UserSettings.taxRate DEFAULT_SETTINGS))
        (or_default (StoredSettings.theme s) (UserSettings.theme DEFAULT_SETTINGS))
        (StoredSettings.lastBackupTimestamp s)
        (StoredSettings.targetHours s)
        (StoredSettings.hourlyRate s)
        (StoredSettings.weekendHourlyRate s)
        (StoredSettings.nextHourlyRate s)
        (StoredSettings.nextWeekendHourlyRate s)
  end.

(** The job built from the old settings; [uuid] is [crypto.randomUUID()]. *)
Definition mainJob (uuid : string) (oldSettings : StoredSettings.t) : Job.t :=
  Job.mk
    uuid
    "Main Job"
    (Job.color DEFAULT_JOB)
    (JS.or_num (StoredSettings.hourlyRate oldSettings) (Job.hourlyRate DEFAULT_JOB))
    (JS.or_num (StoredSettings.weekendHourlyRate oldSettings)
       (JS.or_num (StoredSettings.hourlyRate oldSettings)
          (Job.weekendHourlyRate DEFAULT_JOB)))
    (JS.or_num (StoredSettings.targetHours oldSettings) (Job.targetHours DEFAULT_JOB))
    (JS.or_num (StoredSettings.nextHourlyRate oldSettings) (Job.nextHourlyRate DEFAULT_JOB))
    (JS.or_num (StoredSettings.nextWeekendHourlyRate oldSettings)
       (JS.or_num (StoredSettings.nextHourlyRate oldSettings)
          (Job.nextWeekendHourlyRate DEFAULT_JOB))).

(** [{ ...log, jobId: log.jobId || mainJob.id }] *)
Definition assignJob (mainJobId : string) (log : WorkLog.t) : WorkLog.t :=
  WorkLog.mk
    (WorkLog.id log)
    (Some (JS.or_str (WorkLog.jobId log) mainJobId))
    (WorkLog.date log)
    (WorkLog.startTime log)
    (WorkLog.endTime log)
    (WorkLog.duration log)
    (WorkLog.notes log)
    (WorkLog.timestamp log).

(** The migration of the load effect.  With no job and no settings object
    the read of [oldSettings.hourlyRate] throws; the exception is caught
    by the effect and no state is set: [None]. *)
Definition migrate (uuid : string) (parsed : StoredState.t) : option AppState.t :=
  let currentJobs := JS.or_list (StoredState.jobs parsed) in
  let currentLogs := JS.or_list (StoredState.logs parsed) in
  let currentSettings := mergeSettings (StoredState.settings parsed) in
  let currentTemplates := JS.or_list (StoredState.templates parsed) in
  if (List.length currentJobs =? 0)%nat then
    match StoredState.settings parsed with
    | None => None
    | Some oldSettings =>
        let mj := mainJob uuid oldSettings in
        Some (AppState.mk
                (List.map (assignJob (Job.id mj)) currentLogs)
                currentSettings
                [mj]
                currentTemplates)
    end
  else
    Some (AppState.mk currentLogs currentSettings currentJobs currentTemplates).

(** What the save effect stores and the next load parses back:
    [JSON.parse(JSON.stringify({ logs, settings, jobs, templates }))]. *)
Definition storeSettings (s : UserSettings.t) : StoredSettings.t :=
  StoredSettings.mk
    (Some (UserSettings.currency s))
    (Some (UserSettings.userName s))
    (Some (UserSettings.payFrequency s))
    (Some (UserSettings.taxRate s))
    (Some (UserSettings.theme s))
    (UserSettings.lastBackupTimestamp s)
    (UserSettings.targetHours s)
    (UserSettings.hourlyRate s)
    (UserSettings.weekendHourlyRate s)
    (UserSettings.nextHourlyRate s)
    (UserSettings.nextWeekendHourlyRate s).

Definition store (st : AppState.t) : StoredState.t :=
  StoredState.mk
    (Some (AppState.logs st))
    (Some (storeSettings (AppState.settings st)))
    (Some (AppState.jobs st))
    (Some (AppState.templates st)).

(** Running the migration again on what an earlier run left in storage. *)
Definition migrateAgain (uuid : string) (r : option AppState.t) : option AppState.t :=
  match r with
  | Some st => migrate uuid (store st)
  | None => None
  end.

(** [handleAddLog] *)
Definition handleAddLog (log : WorkLog.t) (prev : list WorkLog.t) : list WorkLog.t :=
  log :: prev.

(** [handleDeleteJob]; [confirmed] is the answer to [window.confirm]. *)
Definition handleDeleteJob (confirmed : bool) (jobId : string)
  (st : list Job.t * list WorkLog.t) : list Job.t * list WorkLog.t :=
  let (jobs, logs) := st in
  if (List.length jobs <=? 1)%nat then st
  else if confirmed then
    (List.filter (fun j => negb (Job.id j =? jobId)%string) jobs,
     List.filter (fun l => negb (JS.opt_str_eq (WorkLog.jobId l) jobId)) logs)
  else st.

(** A sequence of delete requests, each with the user's answer. *)
Definition deleteJobs (reqs : list (bool * string))
  (st : list Job.t * list WorkLog.t) : list Job.t * list WorkLog.t :=
  List.fold_left (fun s r => handleDeleteJob (fst r) (snd r) s) reqs st.

(** [handleDeleteLog]; [confirmed] is the answer to [window.confirm]. *)
Definition handleDeleteLog (confirmed : bool) (id : string)
  (prev : list WorkLog.t) : list WorkLog.t :=
  if confirmed
  then List.filter (fun l => negb (WorkLog.id l =? id)%string) prev
  else prev.

(** [handleUpdateJob] *)
Definition handleUpdateJob (updatedJob : Job.t) (prev : list Job.t) : list Job.t :=
  List.map (fun j => if (Job.id j =? Job.id updatedJob)%string then updatedJob else j)
    prev.

(** [handleAddJob] *)
Definition handleAddJob (newJob : Job.t) (prev : list Job.t) : list Job.t :=
  prev ++ [newJob].

(** [{ ...l, jobId: mainJob.id }] *)
Definition reassignJob (mainJobId : string) (l : WorkLog.t) : WorkLog.t :=
  WorkLog.mk
    (WorkLog.id l)
    (Some mainJobId)
    (WorkLog.date l)
    (WorkLog.startTime l)
    (WorkLog.endTime l)
    (WorkLog.duration l)
    (WorkLog.notes l)
    (WorkLog.timestamp l).

(** The job [handleImport] makes for a file without jobs: the defaults,
    a fresh identifier and the two legacy rates. *)
Definition importJob (uuid : string) (oldSettings : StoredSettings.t) : Job.t :=
  Job.mk
    uuid
    (Job.name DEFAULT_JOB)
    (Job.color DEFAULT_JOB)
    (JS.or_num (StoredSettings.hourlyRate oldSettings) (Job.hourlyRate DEFAULT_JOB))
    (JS.or_num (StoredSettings.weekendHourlyRate oldSettings)
       (JS.or_num (StoredSettings.hourlyRate oldSettings)
          (Job.weekendHourlyRate DEFAULT_JOB)))
    (Job.targetHours DEFAULT_JOB)
    (Job.nextHourlyRate DEFAULT_JOB)
    (Job.nextWeekendHourlyRate DEFAULT_JOB).

(** [handleImport].  Its caller has checked that the file has [logs] and
    [settings], which are passed here as they are; [data_jobs] and
    [data_templates] may be missing.  [st] is the state before. *)
Definition handleImport (confirmed : bool) (uuid : string)
  (data_logs : list WorkLog.t) (data_settings : StoredSettings.t)
  (data_jobs : option (list Job.t))
  (data_templates : option (list ShiftTemplate.t))
  (st : AppState.t) : AppState.t :=
  if confirmed then
    let settings := mergeSettings (Some data_settings) in
    let templates := JS.or_list data_templates in
    match data_jobs with
    | Some (j :: js) => AppState.mk data_logs settings (j :: js) templates
    | _ =>
        let mj := importJob uuid data_settings in
        AppState.mk (List.map (reassignJob (Job.id mj)) data_logs)
          settings [mj] templates
    end
  else st.

(** What the load effect finds under the storage key: nothing, a text that
    [JSON.parse] rejects, or a parsed state. *)
Inductive Saved : Type :=
| NoData
| BadData
| Data (parsed : StoredState.t).

(** The state before the load effect has run. *)
Definition initialState : AppState.t :=
  AppState.mk [] DEFAULT_SETTINGS [] [].

(** The load effect: a new user gets the default job under a fresh
    identifier; stored data is migrated; an exception, from the parser or
    from the migration, is caught and leaves the initial state. *)
Definition load (uuid : string) (saved : Saved) : AppState.t :=
  match saved with
  | NoData =>
      AppState.mk [] DEFAULT_SETTINGS
        [Job.mk uuid (Job.name DEFAULT_JOB) (Job.color DEFAULT_JOB)
           (Job.hourlyRate DEFAULT_JOB) (Job.weekendHourlyRate DEFAULT_JOB)
           (Job.targetHours DEFAULT_JOB) (Job.nextHourlyRate DEFAULT_JOB)
           (Job.nextWeekendHourlyRate DEFAULT_JOB)]
        []
  | BadData => initialState
  | Data parsed =>
      match migrate uuid parsed with
      | Some st => st
      | None => initialState
      end
  end.

End App.

(** ** CalendarView: per-log value, range selection, range statistics *)

Module CalendarView.

Local Open Scope Q_scope.

(** [getLogValue]; [jobs] is the component's prop and [tz] the host zone. *)
Definition getLogValue (tz : Z) (jobs : list Job.t) (log : WorkLog.t) : Q :=
  match JS.find (fun j => JS.opt_str_eq (WorkLog.jobId log) (Job.id j)) jobs with
  | None => 0
  | Some job =>
      let isWeekend := JSDate.isWeekend tz (WorkLog.date log) in
      WorkLog.duration log *
      (if isWeekend then Job.weekendHourlyRate job else Job.hourlyRate job)
  end.

(** [filteredLogs]; [None] stands for the selection 'all'. *)
Definition filteredLogs (selectedJobId : option string) (logs : list WorkLog.t)
  : list WorkLog.t :=
  match selectedJobId with
  | None => logs
  | Some jid => List.filter (fun l => JS.opt_str_eq (WorkLog.jobId l) jid) logs
  end.

(** The selection state: [selectStart] and [selectEnd]. *)
Record Selection : Type := mkSelection {
  selectStart : option string;
  selectEnd : option string
}.

Definition noSelection : Selection := mkSelection None None.

(** [handleDateClick].  The first branch is taken when [selectStart] is
    falsy or both ends are truthy; in the second [selectStart] is a
    non-empty string. *)
Definition handleDateClick (dateStr : string) (st : Selection) : Selection :=
  if negb (JS.truthy_str (selectStart st))
     || (JS.truthy_str (selectStart st) && JS.truthy_str (selectEnd st))
  then mkSelection (Some dateStr) None
  else
    match selectStart st with
    | Some start =>
        if JS.str_lt dateStr start
        then mkSelection (Some dateStr) (Some start)
        else mkSelection (Some start) (Some dateStr)
    | None => mkSelection (Some dateStr) None
    end.

(** The close button of the summary card. *)
Definition clearSelection (st : Selection) : Selection := noSelection.

Inductive Event : Type :=
| Click (dateStr : string)
| Clear.

Definition step (st : Selection) (e : Event) : Selection :=
  match e with
  | Click d => handleDateClick d st
  | Clear => clearSelection st
  end.

Definition run (es : list Event) (st : Selection) : Selection :=
  List.fold_left step es st.

(** [isSelected] *)
Definition isSelected (st : Selection) (dateStr : string) : bool :=
  match selectStart st with
  | None => false
  | Some start =>
      if (start =? "")%string then false
      else
        match selectEnd st with
        | Some e =>
            if (e =? "")%string then (dateStr =? start)%string
            else JS.str_ge dateStr start && JS.str_le dateStr e
        | None => (dateStr =? start)%string
        end
  end.

Record Stats : Type := mkStats {
  totalHours : Q;
  totalEarnings : Q
}.

(** The accumulation loop of [selectedStats]. *)
Definition accumulate (tz : Z) (jobs : list Job.t) (rangeLogs : list WorkLog.t) : Stats :=
  List.fold_left
    (fun acc l =>
       mkStats (totalHours acc + WorkLog.duration l)
               (totalEarnings acc + getLogValue tz jobs l))
    rangeLogs (mkStats 0 0).

(** [selectedStats]: [null] without a start, else the totals of the logs
    whose date lies in the closed range. *)
Definition selectedStats (tz : Z) (jobs : list Job.t) (st : Selection)
  (filteredLogs : list WorkLog.t) : option Stats :=
  if negb (JS.truthy_str (selectStart st)) then None
  else
    match selectStart st with
    | None => None
    | Some rangeStart =>
        let rangeEnd := JS.or_str (selectEnd st) rangeStart in
        let rangeLogs :=
          List.filter
            (fun l => JS.str_ge (WorkLog.date l) rangeStart
                      && JS.str_le (WorkLog.date l) rangeEnd)
            filteredLogs in
        Some (accumulate tz jobs rangeLogs)
    end.

(** One entry of [dailyStats]. *)
Record DayStats : Type := mkDayStats {
  hours : Q;
  earnings : Q;
  count : Z
}.

(** [stats[key]] and [stats[key] = v] on the object used as a map from
    dates to entries: the properties in the order of their creation. *)
Fixpoint lookup (key : string) (stats : list (string * DayStats)) : option DayStats :=
  match stats with
  | [] => None
  | (k, v) :: rest => if (k =? key)%string then Some v else lookup key rest
  end.

Fixpoint assign (key : string) (v : DayStats) (stats : list (string * DayStats))
  : list (string * DayStats) :=
  match stats with
  | [] => [(key, v)]
  | (k, w) :: rest =>
      if (k =? key)%string then (k, v) :: rest else (k, w) :: assign key v rest
  end.

(** [dailyStats]: an entry is created at the first log of a date and then
    grows with every log of that date. *)
Definition dailyStats (tz : Z) (jobs : list Job.t) (filteredLogs : list WorkLog.t)
  : list (string * DayStats) :=
  List.fold_left
    (fun stats log =>
       let cur :=
         match lookup (WorkLog.date log) stats with
         | Some e => e
         | None => mkDayStats 0 0 0
         end in
       assign (WorkLog.date log)
         (mkDayStats (hours cur + WorkLog.duration log)
            (earnings cur + getLogValue tz jobs log)
            (count cur + 1)%Z)
         stats)
    filteredLogs [].

End CalendarView.

(** ** Dashboard: earnings, progress, trend chart *)

Module Dashboard.

Local Open Scope Q_scope.

(** [getLogEarnings] *)
Definition getLogEarnings (tz : Z) (jobs : list Job.t) (log : WorkLog.t) : Q :=
  match JS.find (fun j => JS.opt_str_eq (WorkLog.jobId log) (Job.id j)) jobs with
  | None => 0
  | Some job =>
      let isWeekend := JSDate.isWeekend tz (WorkLog.date log) in
      let rate := if isWeekend then Job.weekendHourlyRate job else Job.hourlyRate job in
      WorkLog.duration log * rate
  end.

(** [calculateTotalEarnings] *)
Definition calculateTotalEarnings (tz : Z) (jobs : list Job.t)
  (logsToCalc : list WorkLog.t) : Q :=
  List.fold_left (fun sum log => sum + getLogEarnings tz jobs log) logsToCalc 0.

(** [totalHours]: the sum of the durations of the filtered logs. *)
Definition totalHours (filteredLogs : list WorkLog.t) : Q :=
  List.fold_left (fun acc log => acc + WorkLog.duration log) filteredLogs 0.

(** The expression assigned to [progressPercent] for the selected job. *)
Definition percentOf (job : Job.t) (totalHours : Q) : JS.value :=
  JS.Math_min 100
    (JS.Math_max 0 (JS.mul (JS.div totalHours (Job.targetHours job)) 100)).

(** [progressPercent]: it stays 0 under 'all' ([None]) or when the selected
    job is not found. *)
Definition progressPercent (jobs : list Job.t) (selectedJobId : option string)
  (filteredLogs : list WorkLog.t) : JS.value :=
  match selectedJobId with
  | None => JS.Fin 0
  | Some jid =>
      match JS.find (fun j => (Job.id j =? jid)%string) jobs with
      | Some job => percentOf job (totalHours filteredLogs)
      | None => JS.Fin 0
      end
  end.

(** One entry of the chart data.  [name] is the label; outside the month
    mode it is the short name of the local day of the week, kept here as
    the number of that day. *)
Record Bucket : Type := mkBucket {
  name : Z;
  hours : Q;
  fullDate : string;
  isWeekend : bool
}.

(** The body of the daily loop of [chartData] for the index [i]; [zone] is
    the host zone. *)
Definition dayBucket (zone : JSDate.Zone) (filteredLogs : list WorkLog.t)
  (startDate : Z) (i : Z) : Bucket :=
  let d :=
    JSDate.setDate zone startDate
      (JSDate.getDate (JSDate.offsetAt zone startDate) startDate + i) in
  let dateStr := JSDate.toISODate d in
  let dayLogs := List.filter (fun l => (WorkLog.date l =? dateStr)%string) filteredLogs in
  let dayTotal := List.fold_left (fun sum l => sum + WorkLog.duration l) dayLogs 0 in
  let dayOfWeek := JSDate.getDay (JSDate.offsetAt zone d) d in
  let isWeekend := ((dayOfWeek =? 0) || (dayOfWeek =? 6))%Z in
  mkBucket dayOfWeek dayTotal dateStr isWeekend.

(** [for (let i = 0; i < daysCount; i++) data.push(...)] *)
Definition dailyLoop (zone : JSDate.Zone) (filteredLogs : list WorkLog.t)
  (startDate : Z) (daysCount : nat) : list Bucket :=
  List.map (fun i => dayBucket zone filteredLogs startDate (Z.of_nat i))
    (List.seq 0 daysCount).

(** [chartData] in the mode 'recent'; [now] is [new Date()].  The other
    modes choose another start and count and run the same loop. *)
Definition chartData_recent (zone : JSDate.Zone) (now : Z)
  (filteredLogs : list WorkLog.t) : list Bucket :=
  let startDate :=
    JSDate.setDate zone now (JSDate.getDate (JSDate.offsetAt zone now) now - 6) in
  let daysCount := 7%nat in
  dailyLoop zone filteredLogs startDate daysCount.

(** The day the application takes as today:
    [new Date().toISOString().slice(0, 10)]. *)
Definition today (now : Z) : Z := JSDate.Day now.

(** [filteredLogs]; [None] stands for the selection 'all'. *)
Definition filteredLogs (selectedJobId : option string) (logs : list WorkLog.t)
  : list WorkLog.t :=
  match selectedJobId with
  | None => logs
  | Some jid => List.filter (fun l => JS.opt_str_eq (WorkLog.jobId l) jid) logs
  end.

(** [getLogNextEarnings] *)
Definition getLogNextEarnings (tz : Z) (jobs : list Job.t) (log : WorkLog.t) : Q :=
  match JS.find (fun j => JS.opt_str_eq (WorkLog.jobId log) (Job.id j)) jobs with
  | None => 0
  | Some job =>
      let isWeekend := JSDate.isWeekend tz (WorkLog.date log) in
      let rate :=
        if isWeekend then Job.nextWeekendHourlyRate job else Job.nextHourlyRate job in
      WorkLog.duration log * rate
  end.

(** [potentialNextEarnings] *)
Definition potentialNextEarnings (tz : Z) (jobs : list Job.t)
  (filteredLogs : list WorkLog.t) : Q :=
  List.fold_left (fun sum log => sum + getLogNextEarnings tz jobs log) filteredLogs 0.

(** [calculateAfterTax] *)
Definition calculateAfterTax (settings : UserSettings.t) (gross : Q) : Q :=
  let tax := gross * (JS.or_num (Some (UserSettings.taxRate settings)) 0 / 100) in
  gross - tax.

(** [activeJobForLevelUp]: the selected job, if one is selected and found. *)
Definition activeJobForLevelUp (jobs : list Job.t) (selectedJobId : option string)
  : option Job.t :=
  match selectedJobId with
  | None => None
  | Some jid => JS.find (fun j => (Job.id j =? jid)%string) jobs
  end.

(** [canLevelUp] *)
Definition canLevelUp (jobs : list Job.t) (selectedJobId : option string)
  (filteredLogs : list WorkLog.t) : bool :=
  match activeJobForLevelUp jobs selectedJobId with
  | Some job =>
      Qle_bool (Job.targetHours job) (totalHours filteredLogs)
      && JS.Qltb (Job.hourlyRate job) (Job.nextHourlyRate job)
  | None => false
  end.

(** The job [handleLevelUp] builds from the active one. *)
Definition levelUp (job : Job.t) : Job.t :=
  Job.mk
    (Job.id job)
    (Job.name job)
    (Job.color job)
    (Job.nextHourlyRate job)
    (Job.nextWeekendHourlyRate job)
    (Job.targetHours job)
    (Job.nextHourlyRate job)
    (Job.nextWeekendHourlyRate job).

(** [handleLevelUp] followed by the [onUpdateJob] of the application;
    [confirmed] is the answer to [window.confirm]. *)
Definition handleLevelUp (confirmed : bool) (jobs : list Job.t)
  (selectedJobId : option string) : list Job.t :=
  match activeJobForLevelUp jobs selectedJobId with
  | Some job => if confirmed then App.handleUpdateJob (levelUp job) jobs else jobs
  | None => jobs
  end.

(** [chartData] in the mode 'biweek': fourteen days ending at [trendDate].
    With a date that does not parse [toISOString] throws: [None].  The
    entries at [i % 7 === 0] carry the day and month in front of their
    label, which [name] does not keep. *)
Definition chartData_biweek (zone : JSDate.Zone) (trendDate : string)
  (filteredLogs : list WorkLog.t) : option (list Bucket) :=
  match JSDate.newDate trendDate with
  | None => None
  | Some end_ =>
      let startDate := (end_ - 13 * 24 * 60 * 60 * 1000)%Z in
      let daysCount := 14%nat in
      Some (dailyLoop zone filteredLogs startDate daysCount)
  end.

(** [chartData] in the mode 'week'. *)
Definition chartData_week (zone : JSDate.Zone) (trendDate : string)
  (filteredLogs : list WorkLog.t) : option (list Bucket) :=
  match JSDate.newDate trendDate with
  | None => None
  | Some target =>
      let tz := JSDate.offsetAt zone target in
      let day := JSDate.getDay tz target in
      let diff := (JSDate.getDate tz target - day + (if day =? 0 then -6 else 1))%Z in
      let startDate := JSDate.setDate zone target diff in
      Some (dailyLoop zone filteredLogs startDate 7%nat)
  end.

Record BiWeeklyStats : Type := mkBiWeeklyStats {
  currentPeriodHours : Q;
  currentPeriodEarnings : Q;
  currentPeriodNet : Q;
  prevPeriodHours : Q
}.

(** The logs of the current and of the previous fortnight in
    [calculateBiWeeklyStats]; [None] when the end date does not parse. *)
Definition biWeeklyLogs (selectedBiWeekEndStr : string) (filteredLogs : list WorkLog.t)
  : option (list WorkLog.t * list WorkLog.t) :=
  match JSDate.newDate selectedBiWeekEndStr with
  | None => None
  | Some endDate =>
      let msPerDay := (24 * 60 * 60 * 1000)%Z in
      let startDateTimestamp := (endDate - 13 * msPerDay)%Z in
      let startDateStr := JSDate.toISODate startDateTimestamp in
      let prevEndTimestamp := (endDate - 14 * msPerDay)%Z in
      let prevStartDateStr := JSDate.toISODate (prevEndTimestamp - 13 * msPerDay)%Z in
      let prevEndDateStr := JSDate.toISODate prevEndTimestamp in
      let currentLogs :=
        List.filter
          (fun l => JS.str_ge (WorkLog.date l) startDateStr
                    && JS.str_le (WorkLog.date l) selectedBiWeekEndStr)
          filteredLogs in
      let prevLogs :=
        List.filter
          (fun l => JS.str_ge (WorkLog.date l) prevStartDateStr
                    && JS.str_le (WorkLog.date l) prevEndDateStr)
          filteredLogs in
      Some (currentLogs, prevLogs)
  end.

(** [calculateBiWeeklyStats] *)
Definition calculateBiWeeklyStats (tz : Z) (jobs : list Job.t)
  (settings : UserSettings.t) (selectedBiWeekEndStr : string)
  (filteredLogs : list WorkLog.t) : option BiWeeklyStats :=
  match biWeeklyLogs selectedBiWeekEndStr filteredLogs with
  | None => None
  | Some (currentLogs, prevLogs) =>
      let currentPeriodHours := totalHours currentLogs in
      let prevPeriodHours := totalHours prevLogs in
      let currentPeriodEarnings := calculateTotalEarnings tz jobs currentLogs in
      Some (mkBiWeeklyStats currentPeriodHours currentPeriodEarnings
              (calculateAfterTax settings currentPeriodEarnings)
              prevPeriodHours)
  end.

End Dashboard.

(** ** PayslipVerifier: period totals, comparison, remediation *)

Module PayslipVerifier.

Local Open Scope Q_scope.

Inductive PeriodLength : Type := P14 | P30.

(** [parseInt(periodLength)] *)
Definition parseInt (p : PeriodLength) : Z :=
  match p with
  | P14 => 14
  | P30 => 30
  end.

Record AppStats : Type := mkAppStats {
  startStr : string;
  endStr : string;
  weekdayHours : Q;
  weekendHours : Q;
  estimatedBasePay : Q
}.

(** The [forEach] that splits the hours of the period. *)
Definition splitHours (tz : Z) (periodLogs : list WorkLog.t) : Q * Q :=
  List.fold_left
    (fun acc log =>
       if JSDate.isWeekend tz (WorkLog.date log)
       then (fst acc, snd acc + WorkLog.duration log)
       else (fst acc + WorkLog.duration log, snd acc))
    periodLogs (0, 0).

(** [appStats]: [null] without an active job.  An end date that does not
    parse makes [toISOString] throw; that outcome is [None] as well. *)
Definition appStats (tz : Z) (logs : list WorkLog.t) (activeJob : option Job.t)
  (endDate : string) (periodLength : PeriodLength) : option AppStats :=
  match activeJob with
  | None => None
  | Some job =>
      match JSDate.newDate endDate with
      | None => None
      | Some end_ =>
          let days := parseInt periodLength in
          let startTimestamp := (end_ - (days - 1) * 24 * 60 * 60 * 1000)%Z in
          let startStr := JSDate.toISODate startTimestamp in
          let endStr := endDate in
          let periodLogs :=
            List.filter
              (fun l => JS.str_ge (WorkLog.date l) startStr
                        && JS.str_le (WorkLog.date l) endStr
                        && JS.opt_str_eq (WorkLog.jobId l) (Job.id job))
              logs in
          let (weekdayHours, weekendHours) := splitHours tz periodLogs in
          Some (mkAppStats startStr endStr weekdayHours weekendHours
                  (weekdayHours * Job.hourlyRate job
                   + weekendHours * Job.weekendHourlyRate job))
      end
  end.

(** The four payslip fields after [parseFloat(...) || 0]; [None] is a text
    that does not parse. *)
Record SlipInputs : Type := mkSlipInputs {
  slipWeekdayHours : option Q;
  slipWeekendHours : option Q;
  slipAllowances : option Q;
  slipTaxRate : option Q
}.

Record Reconciliation : Type := mkReconciliation {
  appTotalGross : Q;
  appNetPay : Q;
  slipTotalGross : Q;
  slipNetPay : Q;
  diffWeekday : Q;
  diffWeekend : Q;
  diffPay : Q
}.

(** The calculations in the body of the component. *)
Definition reconcile (activeJob : Job.t) (stats : AppStats) (slip : SlipInputs)
  : Reconciliation :=
  let inputWeekday := JS.or_num (slipWeekdayHours slip) 0 in
  let inputWeekend := JS.or_num (slipWeekendHours slip) 0 in
  let inputAllowance := JS.or_num (slipAllowances slip) 0 in
  let inputTaxRate := JS.or_num (slipTaxRate slip) 0 in
  let appTotalGross := estimatedBasePay stats + inputAllowance in
  let appNetPay := appTotalGross * (1 - inputTaxRate / 100) in
  let slipTotalGross :=
    inputWeekday * Job.hourlyRate activeJob
    + inputWeekend * Job.weekendHourlyRate activeJob
    + inputAllowance in
  let slipNetPay := slipTotalGross * (1 - inputTaxRate / 100) in
  let diffWeekday := inputWeekday - weekdayHours stats in
  let diffWeekend := inputWeekend - weekendHours stats in
  let diffPay := slipTotalGross - appTotalGross in
  mkReconciliation appTotalGross appNetPay slipTotalGross slipNetPay
    diffWeekday diffWeekend diffPay.

Inductive HourType : Type := weekday | weekend.

Definition typeName (type : HourType) : string :=
  match type with
  | weekday => "weekday"
  | weekend => "weekend"
  end.

Definition diffOf (r : Reconciliation) (type : HourType) : Q :=
  match type with
  | weekday => diffWeekday r
  | weekend => diffWeekend r
  end.

(** [handleAutoFill]: the log handed to [onAddLog], if any; [uuid] is
    [crypto.randomUUID()] and [now] is [Date.now()]. *)
Definition handleAutoFill (uuid : string) (now : Z) (selectedJobId endDate : string)
  (r : Reconciliation) (type : HourType) : option WorkLog.t :=
  let diff := diffOf r type in
  if Qle_bool (JS.Math_abs diff) 0 then None
  else
    Some (WorkLog.mk
            uuid
            (Some selectedJobId)
            endDate
            "-"
            "-"
            (JS.toFixed2 diff)
            ("Payslip " ++ (if JS.Qltb 0 diff then "Backfill" else "Correction")
               ++ " (" ++ typeName type ++ ")")%string
            now).

(** [DiffRow]: the classification of a difference and the buttons shown. *)
Definition isOver (diff : Q) : bool := JS.Qltb diff (- (1 # 10)).
Definition isUnder (diff : Q) : bool := JS.Qltb (1 # 10) diff.
Definition isOk (diff : Q) : bool := negb (isOver diff) && negb (isUnder diff).

Inductive Button : Type := Backfill | Correction.

Definition DiffRow (diff : Q) : list Button :=
  (if isUnder diff then [Backfill] else [])
  ++ (if isOver diff then [Correction] else []).

(** A click on a button of the row of [type]: [handleAutoFill], whose log
    goes to [App.handleAddLog]. *)
Definition clickButton (uuid : string) (now : Z) (selectedJobId endDate : string)
  (r : Reconciliation) (type : HourType) (logs : list WorkLog.t) : list WorkLog.t :=
  match handleAutoFill uuid now selectedJobId endDate r type with
  | Some newLog => App.handleAddLog newLog logs
  | None => logs
  end.

End PayslipVerifier.

(** ** The arithmetic of the components over binary64 *)

(** [getLogValue] and [selectedStats] of CalendarView, with the products
    and sums of the code rounded as the processor rounds them. *)
Module CalendarView64.

Local Open Scope Q_scope.

Definition getLogValue (tz : Z) (jobs : list Job.t) (log : WorkLog.t) : Q :=
  match JS.find (fun j => JS.opt_str_eq (WorkLog.jobId log) (Job.id j)) jobs with
  | None => 0
  | Some job =>
      let isWeekend := JSDate.isWeekend tz (WorkLog.date log) in
      Double.mul (WorkLog.duration log)
        (if isWeekend then Job.weekendHourlyRate job else Job.hourlyRate job)
  end.

Definition accumulate (tz : Z) (jobs : list Job.t) (rangeLogs : list WorkLog.t)
  : CalendarView.Stats :=
  List.fold_left
    (fun acc l =>
       CalendarView.mkStats
         (Double.add (CalendarView.totalHours acc) (WorkLog.duration l))
         (Double.add (CalendarView.totalEarnings acc) (getLogValue tz jobs l)))
    rangeLogs (CalendarView.mkStats 0 0).

Definition selectedStats (tz : Z) (jobs : list Job.t) (st : CalendarView.Selection)
  (filteredLogs : list WorkLog.t) : option CalendarView.Stats :=
  if negb (JS.truthy_str (CalendarView.selectStart st)) then None
  else
    match CalendarView.selectStart st with
    | None => None
    | Some rangeStart =>
        let rangeEnd := JS.or_str (CalendarView.selectEnd st) rangeStart in
        let rangeLogs :=
          List.filter
            (fun l => JS.str_ge (WorkLog.date l) rangeStart
                      && JS.str_le (WorkLog.date l) rangeEnd)
            filteredLogs in
        Some (accumulate tz jobs rangeLogs)
    end.

End CalendarView64.

(** [getLogEarnings], [calculateTotalEarnings], [totalHours] and
    [calculateAfterTax] of Dashboard. *)
Module Dashboard64.

Local Open Scope Q_scope.

Definition getLogEarnings (tz : Z) (jobs : list Job.t) (log : WorkLog.t) : Q :=
  match JS.find (fun j => JS.opt_str_eq (WorkLog.jobId log) (Job.id j)) jobs with
  | None => 0
  | Some job =>
      let isWeekend := JSDate.isWeekend tz (WorkLog.date log) in
      let rate := if isWeekend then Job.weekendHourlyRate job else Job.hourlyRate job in
      Double.mul (WorkLog.duration log) rate
  end.

Definition calculateTotalEarnings (tz : Z) (jobs : list Job.t)
  (logsToCalc : list WorkLog.t) : Q :=
  List.fold_left (fun sum log => Double.add sum (getLogEarnings tz jobs log))
    logsToCalc 0.

Definition totalHours (filteredLogs : list WorkLog.t) : Q :=
  List.fold_left (fun acc log => Double.add acc (WorkLog.duration log)) filteredLogs 0.

Definition calculateAfterTax (settings : UserSettings.t) (gross : Q) : Q :=
  let tax :=
    Double.mul gross
      (Double.div (JS.or_num (Some (UserSettings.taxRate settings)) 0) 100) in
  Double.sub gross tax.

End Dashboard64.

(** The calculations, [handleAutoFill] and [DiffRow] of PayslipVerifier. *)
Module PayslipVerifier64.

Local Open Scope Q_scope.

Definition reconcile (activeJob : Job.t) (stats : PayslipVerifier.AppStats)
  (slip : PayslipVerifier.SlipInputs) : PayslipVerifier.Reconciliation :=
  let inputWeekday := JS.or_num (PayslipVerifier.slipWeekdayHours slip) 0 in
  let inputWeekend := JS.or_num (PayslipVerifier.slipWeekendHours slip) 0 in
  let inputAllowance := JS.or_num (PayslipVerifier.slipAllowances slip) 0 in
  let inputTaxRate := JS.or_num (PayslipVerifier.slipTaxRate slip) 0 in
  let appTotalGross :=
    Double.add (PayslipVerifier.estimatedBasePay stats) inputAllowance in
  let appNetPay :=
    Double.mul appTotalGross (Double.sub 1 (Double.div inputTaxRate 100)) in
  let slipTotalGross :=
    Double.add
      (Double.add (Double.mul inputWeekday (Job.hourlyRate activeJob))
                  (Double.mul inputWeekend (Job.weekendHourlyRate activeJob)))
      inputAllowance in
  let slipNetPay :=
    Double.mul slipTotalGross (Double.sub 1 (Double.div inputTaxRate 100)) in
  let diffWeekday := Double.sub inputWeekday (PayslipVerifier.weekdayHours stats) in
  let diffWeekend := Double.sub inputWeekend (PayslipVerifier.weekendHours stats) in
  let diffPay := Double.sub slipTotalGross appTotalGross in
  PayslipVerifier.mkReconciliation appTotalGross appNetPay slipTotalGross slipNetPay
    diffWeekday diffWeekend diffPay.

(** [handleAutoFill] *)
Definition handleAutoFill (uuid : string) (now : Z) (selectedJobId endDate : string)
  (r : PayslipVerifier.Reconciliation) (type : PayslipVerifier.HourType)
  : option WorkLog.t :=
  let diff := PayslipVerifier.diffOf r type in
  if Qle_bool (JS.Math_abs diff) 0 then None
  else
    Some (WorkLog.mk
            uuid
            (Some selectedJobId)
            endDate
            "-"
            "-"
            (Double.toFixed2 diff)
            ("Payslip " ++ (if JS.Qltb 0 diff then "Backfill" else "Correction")
               ++ " (" ++ PayslipVerifier.typeName type ++ ")")%string
            now).

(** The literal [0.1] of [DiffRow]. *)
Definition tenth : Q := Double.round (1 # 10).

(** [DiffRow] *)
Definition isOver (diff : Q) : bool := JS.Qltb diff (- tenth).
Definition isUnder (diff : Q) : bool := JS.Qltb tenth diff.
Definition isOk (diff : Q) : bool := negb (isOver diff) && negb (isUnder diff).

Definition DiffRow (diff : Q) : list PayslipVerifier.Button :=
  (if isUnder diff then [PayslipVerifier.Backfill] else [])
  ++ (if isOver diff then [PayslipVerifier.Correction] else []).

Definition clickButton (uuid : string) (now : Z) (selectedJobId endDate : string)
  (r : PayslipVerifier.Reconciliation) (type : PayslipVerifier.HourType)
  (logs : list WorkLog.t) : list WorkLog.t :=
  match handleAutoFill uuid now selectedJobId endDate r type with
  | Some newLog => App.handleAddLog newLog logs
  | None => logs
  end.

End PayslipVerifier64.

(** ** WorkLogger: durations and the entry form *)

Module WorkLogger.

Local Open Scope Q_scope.

(** [s.split(':').map(Number)] on a time of the form HH:MM, the value of a
    time input: the two numbers, or [None] where the code goes on with
    NaN.  Other forms are not read here. *)
Definition parseTime (s : string) : option (Z * Z) :=
  match s with
  | String h1 (String h2 (String ":" (String m1 (String m2 EmptyString)))) =>
      match JSDate.num2 h1 h2, JSDate.num2 m1 m2 with
      | Some h, Some m => Some (h, m)
      | _, _ => None
      end
  | _ => None
  end.

(** [calculateDuration]; [None] is NaN. *)
Definition calculateDuration (start end_ : string) : option Q :=
  match parseTime start, parseTime end_ with
  | Some (startH, startM), Some (endH, endM) =>
      let diff := ((endH * 60 + endM) - (startH * 60 + startM))%Z in
      let diff := if (diff <? 0)%Z then (diff + 24 * 60)%Z else diff in
      Some (JS.toFixed2 (inject_Z diff / 60))
  | _, _ => None
  end.

Inductive Mode : Type := range | manual.

(** The fields of the form read by [handleSubmit]; [manualDuration] is
    [parseFloat] of the text, [None] for NaN. *)
Record Form : Type := mkForm {
  selectedJobId : string;
  date : string;
  mode : Mode;
  startTime : string;
  endTime : string;
  manualDuration : option Q;
  notes : string
}.

(** What the submission does: hand a log to [onAddLog], hand it a log
    whose duration is NaN, or show the alert and add nothing. *)
Inductive Submission : Type :=
| Added (log : WorkLog.t)
| AddedNaN
| Rejected.

(** [handleSubmit]; [uuid] is [crypto.randomUUID()], [now] is [Date.now()].
    The test [duration <= 0] is false for NaN. *)
Definition handleSubmit (uuid : string) (now : Z) (f : Form) : Submission :=
  let '(duration, finalStart, finalEnd) :=
    match mode f with
    | range => (calculateDuration (startTime f) (endTime f), startTime f, endTime f)
    | manual => (Some (JS.or_num (manualDuration f) 0), "-"%string, "-"%string)
    end in
  match duration with
  | None => AddedNaN
  | Some d =>
      if Qle_bool d 0 then Rejected
      else Added (WorkLog.mk uuid (Some (selectedJobId f)) (date f)
                    finalStart finalEnd d (notes f) now)
  end.

(** The comparison function of [sortedLogs] is positive when [b] is the
    later log; [insertLog] puts a log before the first log that is not
    later than it, which is where a stable sort leaves it. *)
Fixpoint insertLog (x : WorkLog.t) (sorted : list WorkLog.t) : list WorkLog.t :=
  match sorted with
  | [] => [x]
  | y :: rest =>
      if (0 <? WorkLog.timestamp y - WorkLog.timestamp x)%Z
      then y :: insertLog x rest
      else x :: y :: rest
  end.

(** [sortedLogs]: [[...logs].sort((a, b) => b.timestamp - a.timestamp)]. *)
Definition sortedLogs (logs : list WorkLog.t) : list WorkLog.t :=
  List.fold_right insertLog [] logs.

End WorkLogger.

(** ** DataManagement: backup reminder, export, import *)

Module DataManagement.

Local Open Scope Q_scope.

(** [backupNeeded]; [now] is [Date.now()]. *)
Definition backupNeeded (settings : UserSettings.t) (now : Z) : bool :=
  let lastBackup :=
    match UserSettings.lastBackupTimestamp settings with
    | Some t => t
    | None => 0%Z
    end in
  let sevenDays := (7 * 24 * 60 * 60 * 1000)%Z in
  (sevenDays <? now - lastBackup)%Z.

(** The settings [handleExportJSON] hands to [onUpdateSettings]. *)
Definition handleExportJSON (settings : UserSettings.t) (now : Z) : UserSettings.t :=
  UserSettings.mk
    (UserSettings.currency settings)
    (UserSettings.userName settings)
    (UserSettings.payFrequency settings)
    (UserSettings.taxRate settings)
    (UserSettings.theme settings)
    (Some now)
    (UserSettings.targetHours settings)
    (UserSettings.hourlyRate settings)
    (UserSettings.weekendHourlyRate settings)
    (UserSettings.nextHourlyRate settings)
    (UserSettings.nextWeekendHourlyRate settings).

(** [new Date(s).getDay() % 6 === 0]; NaN for a date that does not parse. *)
Definition isWeekendMod (tz : Z) (s : string) : bool :=
  match JSDate.newDate s with
  | Some t => (JSDate.getDay tz t mod 6 =? 0)%Z
  | None => false
  end.

(** One line of the CSV export before its values are printed: the duration
    and the rate are printed as they are, the earnings with two decimals. *)
Record Row : Type := mkRow {
  rowDate : string;
  rowJobName : string;
  rowStartTime : string;
  rowEndTime : string;
  rowDuration : Q;
  rowRate : Q;
  rowEarnings : Q;
  rowNotes : string
}.

(** [job?.name || 'Unknown'] *)
Definition jobName (job : option Job.t) : string :=
  match job with
  | Some j => if (Job.name j =? "")%string then "Unknown"%string else Job.name j
  | None => "Unknown"%string
  end.

(** The [rows] of [handleExportCSV]. *)
Definition exportRows (tz : Z) (logs : list WorkLog.t) (jobs : list Job.t) : list Row :=
  List.map
    (fun log =>
       let job := JS.find (fun j => JS.opt_str_eq (WorkLog.jobId log) (Job.id j)) jobs in
       let isWeekend := isWeekendMod tz (WorkLog.date log) in
       let rate :=
         match job with
         | Some j => if isWeekend then Job.weekendHourlyRate j else Job.hourlyRate j
         | None => 0
         end in
       let earnings := WorkLog.duration log * rate in
       mkRow (WorkLog.date log) (jobName job) (WorkLog.startTime log)
         (WorkLog.endTime log) (WorkLog.duration log) rate earnings
         (WorkLog.notes log))
    logs.

Inductive Status : Type := success | error.

(** The [onload] handler of [handleFileChange]: [file] is the parsed text
    ([None] when it is not JSON), the result is the state after it and the
    status shown. *)
Definition handleFileChange (confirmed : bool) (uuid : string)
  (file : option StoredState.t) (st : AppState.t) : AppState.t * Status :=
  match file with
  | Some parsedData =>
      match StoredState.logs parsedData, StoredState.settings parsedData with
      | Some logs, Some settings =>
          (App.handleImport confirmed uuid logs settings
             (StoredState.jobs parsedData) (StoredState.templates parsedData) st,
           success)
      | _, _ => (st, error)
      end
  | None => (st, error)
  end.

End DataManagement.

(** ** Settings: adding a job *)

Module Settings.

Definition COLORS : list string :=
  ["#4F46E5"; "#DB2777"; "#059669"; "#D97706"; "#7C3AED"; "#2563EB"]%string.

(** [handleAddNewJob] followed by the [onAddJob] of the application. *)
Definition handleAddNewJob (uuid : string) (jobs : list Job.t) : list Job.t :=
  let n := List.length jobs in
  let newJob :=
    Job.mk
      uuid
      ("Job " ++ JSDate.decimal (Z.of_nat n + 1))%string
      (List.nth (n mod List.length COLORS)%nat COLORS ""%string)
      (Job.hourlyRate DEFAULT_JOB)
      (Job.weekendHourlyRate DEFAULT_JOB)
      (Job.targetHours DEFAULT_JOB)
      (Job.nextHourlyRate DEFAULT_JOB)
      (Job.nextWeekendHourlyRate DEFAULT_JOB) in
  App.handleAddJob newJob jobs.

End Settings.

(** ** Vocabulary for the statements about date strings *)

Module DateText.

Local Open Scope Z_scope.

(** The character of a decimal digit. *)
Definition digitChar (d : Z) : ascii := ascii_of_N (Z.to_N (48 + d)).

(** Two and four digits, most significant first. *)
Definition text2 (n : Z) : string :=
  String (digitChar (n / 10)) (String (digitChar (n mod 10)) EmptyString).

Definition text4 (n : Z) : string :=
  String (digitChar (n / 1000))
    (String (digitChar (n / 100 mod 10))
       (String (digitChar (n / 10 mod 10))
          (String (digitChar (n mod 10)) EmptyString))).

(** YYYY-MM-DD *)
Definition text (y m d : Z) : string :=
  (text4 y ++ String "-" (text2 m ++ String "-" (text2 d)))%string.

(** A civil date as one number, 2024-03-09 as 20240309. *)
Definition key (date : Z * Z * Z) : Z :=
  let '(y, m, d) := date in y * 10000 + m * 100 + d.

(** The day numbers of 0000-03-01 and of 9999-12-31: between them the
    year has four digits. *)
Definition firstDay : Z := -719468.
Definition lastDay : Z := 2932896.

Definition inRange (z : Z) : Prop := firstDay <= z <= lastDay.

Definition isWeekendDay (z : Z) : bool :=
  (JSDate.WeekDay z =? 0) || (JSDate.WeekDay z =? 6).

(** The day of a date string, as [new Date] reads it. *)
Definition dayOf (s : string) : option Z :=
  match JSDate.newDate s with
  | Some t => Some (JSDate.Day t)
  | None => None
  end.

(** A date string as [toISOString] writes the days with four-digit years. *)
Definition canonical (s : string) : Prop :=
  exists z, inRange z /\ s = JSDate.isoDateOfDay z.

(** The day of a date string lies between two days. *)
Definition inDays (a b : Z) (s : string) : bool :=
  match dayOf s with
  | Some z => (a <=? z) && (z <=? b)
  | None => false
  end.

(** HH:MM *)
Definition time (h m : Z) : string :=
  (text2 h ++ String ":" (text2 m))%string.

(** A log refers to a job of the collection. *)
Definition resolves (jobs : list Job.t) (l : WorkLog.t) : Prop :=
  exists job,
    JS.find (fun j => JS.opt_str_eq (WorkLog.jobId l) (Job.id j)) jobs = Some job.

(** The logs of a list are in the order of their timestamps, latest first. *)
Definition latestFirst (logs : list WorkLog.t) : Prop :=
  StronglySorted (fun a b => (WorkLog.timestamp b <= WorkLog.timestamp a)%Z) logs.

End DateText.

(* ================================================================== *)
(** * Part II: properties                                              *)
(* ================================================================== *)

(** ** Calendar arithmetic *)

Section Calendar.

Local Open Scope Z_scope.

Local Ltac euclid := Z.to_euclidean_division_equations; lia.

Lemma year_of_era_bounds (doe : Z) :
  0 <= doe <= 146096 ->
  let yoe := (doe - doe / 1460 + doe / 36524 - doe / 146096) / 365 in
  0 <= yoe <= 399 /\
  0 <= doe - (365 * yoe + yoe / 4 - yoe / 100) <= 365.
Proof. intros H yoe; subst yoe; euclid. Qed.

(** Converting a day number to a civil date and back gives the day. *)
Lemma days_from_civil_from_days (z : Z) :
  let '(y, m, d) := JSDate.civil_from_days z in
  JSDate.days_from_civil y m d = z.
Proof.
  unfold JSDate.civil_from_days.
  set (z' := z + 719468).
  set (era := z' / 146097).
  set (doe := z' - era * 146097).
  assert (Hdoe : 0 <= doe <= 146096) by (subst doe era; euclid).
  pose proof (year_of_era_bounds doe Hdoe) as Hy; cbv zeta in Hy.
  set (yoe := (doe - doe / 1460 + doe / 36524 - doe / 146096) / 365) in *.
  set (doy := doe - (365 * yoe + yoe / 4 - yoe / 100)) in *.
  destruct Hy as [Hyoe Hdoy].
  set (mp := (5 * doy + 2) / 153).
  assert (Hmp : 0 <= mp <= 11) by (subst mp; euclid).
  unfold JSDate.days_from_civil.
  destruct (mp <? 10) eqn:E; [apply Z.ltb_lt in E | apply Z.ltb_ge in E].
  - replace (mp + 3 <=? 2) with false by (symmetry; apply Z.leb_gt; lia).
    replace ((mp + 3 + 9) mod 12) with mp by euclid.
    replace ((yoe + era * 400) / 400) with era by euclid.
    replace (yoe + era * 400 - era * 400) with yoe by lia.
    subst doy z' doe; lia.
  - replace (mp - 9 <=? 2) with true by (symmetry; apply Z.leb_le; lia).
    replace ((mp - 9 + 9) mod 12) with mp by euclid.
    replace (yoe + era * 400 + 1 - 1) with (yoe + era * 400) by lia.
    replace ((yoe + era * 400) / 400) with era by euclid.
    replace (yoe + era * 400 - era * 400) with yoe by lia.
    subst doy z' doe; lia.
Qed.

(** The end of February 2024 and the days around the epoch. *)
Example isoDateOfDay_examples :
  List.map JSDate.isoDateOfDay [19781; 19782; 19783; -1; 0]
  = ["2024-02-28"; "2024-02-29"; "2024-03-01"; "1969-12-31"; "1970-01-01"]%string.
Proof. vm_compute; reflexivity. Qed.

(** 2024-03-09 was a Saturday and 2024-03-12 a Tuesday. *)
Example weekdayOfDate_examples :
  JSDate.weekdayOfDate "2024-03-09" = Some 6 /\
  JSDate.weekdayOfDate "2024-03-12" = Some 2 /\
  JSDate.weekdayOfDate "2024-3-9" = None.
Proof. repeat split. Qed.

(** The day number is linear in the day of the month: this is the
    roll-over of [MakeDay]. *)
Lemma MakeDay_days_from_civil (y m d : Z) :
  JSDate.MakeDay y m d = JSDate.days_from_civil y m d.
Proof. unfold JSDate.MakeDay, JSDate.days_from_civil; lia. Qed.

Lemma Day_MakeDate (day time : Z) :
  0 <= time < JSDate.msPerDay ->
  JSDate.Day (JSDate.MakeDate day time) = day.
Proof.
  unfold JSDate.Day, JSDate.MakeDate, JSDate.msPerDay; intros H; euclid.
Qed.

Lemma Day_shift (t k : Z) :
  JSDate.Day (t + k * JSDate.msPerDay) = JSDate.Day t + k.
Proof.
  unfold JSDate.Day, JSDate.msPerDay.
  rewrite Z.div_add by lia; reflexivity.
Qed.

(** In a zone of fixed offset [d.setDate(d.getDate() + k)] moves the time
    value by [k] whole days. *)
Lemma setDate_getDate_shift (tz t k : Z) :
  JSDate.setDate (JSDate.fixedZone tz) t (JSDate.getDate tz t + k)
  = t + k * JSDate.msPerDay.
Proof.
  unfold JSDate.setDate, JSDate.getDate, JSDate.fixedZone; cbn [JSDate.offsetAt JSDate.offsetOfLocal].
  set (lt := JSDate.LocalTime tz t).
  pose proof (days_from_civil_from_days (JSDate.Day lt)) as R.
  destruct (JSDate.civil_from_days (JSDate.Day lt)) as [[y m] d].
  rewrite MakeDay_days_from_civil.
  assert (L : JSDate.days_from_civil y m (d + k) = JSDate.Day lt + k).
  { rewrite <- R; unfold JSDate.days_from_civil; lia. }
  rewrite L.
  unfold JSDate.UTC, JSDate.MakeDate, JSDate.TimeWithinDay, JSDate.Day.
  subst lt; unfold JSDate.LocalTime, JSDate.msPerDay, JSDate.msPerMinute.
  euclid.
Qed.

(** In a zone at or east of UTC and less than a day ahead, local midnight
    arithmetic does not leave the day: the local day of the week of
    [new Date(s)] is the day of the week of the date [s]. *)
Lemma getDay_newDate_east (tz : Z) (s : string) (t : Z) :
  0 <= tz < 1440 ->
  JSDate.newDate s = Some t ->
  JSDate.weekdayOfDate s = Some (JSDate.getDay tz t).
Proof.
  unfold JSDate.newDate, JSDate.weekdayOfDate; intros Htz.
  destruct (JSDate.parseISODate s) as [[[y m] d]|]; [|discriminate].
  intros [= <-].
  unfold JSDate.getDay; f_equal; f_equal.
  rewrite MakeDay_days_from_civil.
  unfold JSDate.Day, JSDate.LocalTime, JSDate.MakeDate,
    JSDate.msPerDay, JSDate.msPerMinute.
  euclid.
Qed.

Lemma isWeekend_east (tz : Z) (s : string) :
  0 <= tz < 1440 ->
  JSDate.isWeekend tz s =
  match JSDate.weekdayOfDate s with
  | Some w => (w =? 0) || (w =? 6)
  | None => false
  end.
Proof.
  intros Htz; unfold JSDate.isWeekend.
  destruct (JSDate.newDate s) as [t|] eqn:E.
  - rewrite (getDay_newDate_east tz s t Htz E); reflexivity.
  - unfold JSDate.newDate, JSDate.weekdayOfDate in *.
    destruct (JSDate.parseISODate s) as [[[y m] d]|]; [discriminate|reflexivity].
Qed.

End Calendar.

(** ** Order on strings *)

Lemma str_le_leb (a b : string) : JS.str_le a b = String.leb a b.
Proof.
  unfold JS.str_le, String.ltb, String.leb.
  rewrite (String.compare_antisym a b).
  destruct (String.compare b a); reflexivity.
Qed.

Lemma str_lt_le (a b : string) : JS.str_lt a b = true -> JS.str_le a b = true.
Proof.
  unfold JS.str_lt, JS.str_le, String.ltb.
  rewrite (String.compare_antisym b a).
  destruct (String.compare a b); simpl; congruence.
Qed.

Lemma str_not_lt_le (a b : string) : JS.str_lt a b = false -> JS.str_le b a = true.
Proof. unfold JS.str_lt, JS.str_le; intros ->; reflexivity. Qed.

(** ** Sums of rationals over lists *)

Section Sums.

Context {A : Type} (f : A -> Q).

Local Open Scope Q_scope.

Local Abbreviation add := (fun (s : Q) (x : A) => s + f x).

Lemma fold_sum_acc (l : list A) (a : Q) :
  fold_left add l a == a + fold_left add l 0.
Proof.
  revert a; induction l as [|x l IH]; intros a; simpl.
  - ring.
  - rewrite (IH (a + f x)), (IH (0 + f x)); ring.
Qed.

Lemma fold_sum_app (l1 l2 : list A) :
  fold_left add (l1 ++ l2) 0 == fold_left add l1 0 + fold_left add l2 0.
Proof.
  rewrite fold_left_app, fold_sum_acc; reflexivity.
Qed.

Lemma fold_sum_perm (l1 l2 : list A) :
  Permutation l1 l2 -> fold_left add l1 0 == fold_left add l2 0.
Proof.
  induction 1 as [|x l l' _ IH|x y l|l l' l'' _ IH1 _ IH2]; simpl.
  - reflexivity.
  - rewrite (fold_sum_acc l), (fold_sum_acc l'), IH; reflexivity.
  - rewrite (fold_sum_acc l (0 + f y + f x)), (fold_sum_acc l (0 + f x + f y)).
    ring.
  - rewrite IH1; exact IH2.
Qed.

(** A sum over a partition is the sum of the sums over its parts. *)
Lemma fold_sum_partition (l a b : list A) :
  Permutation l (a ++ b) ->
  fold_left add l 0 == fold_left add a 0 + fold_left add b 0.
Proof.
  intros P; rewrite (fold_sum_perm _ _ P); apply fold_sum_app.
Qed.

End Sums.

Lemma filter_partition {A : Type} (p : A -> bool) (l a b : list A) :
  Permutation l (a ++ b) ->
  Permutation (filter p l) (filter p a ++ filter p b).
Proof.
  intros P; rewrite <- filter_app.
  induction P as [|x l l' _ IH|x y l|l l' l'' _ IH1 _ IH2]; simpl.
  - constructor.
  - destruct (p x); [constructor|]; exact IH.
  - destruct (p x), (p y); try reflexivity; apply perm_swap.
  - etransitivity; eassumption.
Qed.

(** ** Rate resolution (C1) *)

(** The two copies of the per-log value agree. *)
Lemma getLogEarnings_getLogValue (tz : Z) (jobs : list Job.t) (log : WorkLog.t) :
  Dashboard.getLogEarnings tz jobs log = CalendarView.getLogValue tz jobs log.
Proof. reflexivity. Qed.

(** A log whose job is not in the collection is worth nothing. *)
Lemma getLogValue_dangling (tz : Z) (jobs : list Job.t) (log : WorkLog.t) :
  (forall j, In j jobs -> JS.opt_str_eq (WorkLog.jobId log) (Job.id j) = false) ->
  CalendarView.getLogValue tz jobs log = 0%Q.
Proof.
  intros H; unfold CalendarView.getLogValue, JS.find.
  destruct (find _ jobs) as [j|] eqn:E; [|reflexivity].
  apply find_some in E; destruct E as [Hin Heq].
  rewrite (H j Hin) in Heq; discriminate.
Qed.

(** In a zone at or east of UTC the value of a log is its duration times
    the weekend rate of the first job with its id when the date is a
    Saturday or a Sunday, and times the weekday rate otherwise. *)
Lemma getLogValue_east_of_utc (tz : Z) (jobs : list Job.t) (log : WorkLog.t)
  (job : Job.t) :
  (0 <= tz < 1440)%Z ->
  JS.find (fun j => JS.opt_str_eq (WorkLog.jobId log) (Job.id j)) jobs = Some job ->
  CalendarView.getLogValue tz jobs log =
  (WorkLog.duration log *
   match JSDate.weekdayOfDate (WorkLog.date log) with
   | Some w => if ((w =? 0) || (w =? 6))%Z
               then Job.weekendHourlyRate job else Job.hourlyRate job
   | None => Job.hourlyRate job
   end)%Q.
Proof.
  intros Htz Hfind; unfold CalendarView.getLogValue.
  rewrite Hfind, (isWeekend_east tz _ Htz).
  destruct (JSDate.weekdayOfDate (WorkLog.date log)); reflexivity.
Qed.

(** C1.  The value of a log is meant to follow the day of the week of its
    date.  The code reads the date as midnight UTC and then asks for the
    local day of the week, so west of UTC that is the day before: for the
    job below (60 on weekdays, 70 at weekends) a five-hour log dated
    Saturday 2024-03-09 is valued on a host five hours behind UTC at
    5 * 60 = 300, not at 5 * 70 = 350, by both copies of the function. *)
Theorem C1_weekend_rate_west_of_utc :
  let jobA := Job.mk "a" "Job A" "#4F46E5" 60 70 1000 70 80 in
  let sat := WorkLog.mk "l1" (Some "a"%string) "2024-03-09" "09:00" "14:00" 5 "" 0 in
  JSDate.weekdayOfDate (WorkLog.date sat) = Some 6%Z /\
  CalendarView.getLogValue (-300) [jobA] sat == 5 * 60 /\
  Dashboard.getLogEarnings (-300) [jobA] sat == 5 * 60 /\
  ~ CalendarView.getLogValue (-300) [jobA] sat == 5 * 70 /\
  CalendarView.getLogValue 480 [jobA] sat == 5 * 70.
Proof.
  cbv zeta; repeat split; try reflexivity.
  vm_compute; discriminate.
Qed.

(** ** Range selection (C6) *)

(** Whatever the state before it, an event leaves the two ends in order. *)
Lemma step_ordered (st : CalendarView.Selection) (e : CalendarView.Event) :
  forall s t,
    CalendarView.selectStart (CalendarView.step st e) = Some s ->
    CalendarView.selectEnd (CalendarView.step st e) = Some t ->
    JS.str_le s t = true.
Proof.
  intros s t; destruct e as [d|]; simpl; [|discriminate].
  unfold CalendarView.handleDateClick.
  destruct (negb _ || _); simpl; [discriminate|].
  destruct (CalendarView.selectStart st) as [start|]; simpl; [|discriminate].
  destruct (JS.str_lt d start) eqn:E; simpl; intros [= <-] [= <-].
  - apply str_lt_le; exact E.
  - apply str_not_lt_le; exact E.
Qed.

(** C6.  After any sequence of date clicks (and clearings) of the range
    selector, when both ends are set the start is at most the end in the
    order of the strings; and a click on a date below the start of a
    selection that has no end yet makes the clicked date the start and
    the old start the end. *)
Theorem C6_range_selection_ordered :
  (forall (es : list CalendarView.Event) (s t : string),
      CalendarView.selectStart (CalendarView.run es CalendarView.noSelection) = Some s ->
      CalendarView.selectEnd (CalendarView.run es CalendarView.noSelection) = Some t ->
      JS.str_le s t = true /\ String.leb s t = true) /\
  (forall (d start : string) (e : option string),
      start <> ""%string ->
      JS.truthy_str e = false ->
      JS.str_lt d start = true ->
      CalendarView.handleDateClick d (CalendarView.mkSelection (Some start) e)
      = CalendarView.mkSelection (Some d) (Some start)).
Proof.
  split.
  - intros es s t; rewrite <- str_le_leb.
    destruct es as [|e es] using rev_ind.
    + simpl; discriminate.
    + unfold CalendarView.run; rewrite fold_left_app; simpl.
      intros Hs Ht; split; exact (step_ordered _ _ _ _ Hs Ht).
  - intros d start e Hne He Hlt.
    unfold CalendarView.handleDateClick; simpl.
    apply String.eqb_neq in Hne; rewrite Hne, He, Hlt; reflexivity.
Qed.

(** The example of the specification: 2024-03-10, then 2024-03-05. *)
Example C6_clicks_march :
  CalendarView.run
    [CalendarView.Click "2024-03-10"; CalendarView.Click "2024-03-05"]
    CalendarView.noSelection
  = CalendarView.mkSelection (Some "2024-03-05"%string) (Some "2024-03-10"%string).
Proof. reflexivity. Qed.

(** ** The accumulator of the range statistics *)

Section Aggregate.

Variables (tz : Z) (jobs : list Job.t).

Local Open Scope Q_scope.

(** The two fields of the accumulator of [selectedStats] are two sums. *)
Lemma accumulate_fold (logs : list WorkLog.t) (acc : CalendarView.Stats) :
  let r :=
    fold_left
      (fun acc l =>
         CalendarView.mkStats
           (CalendarView.totalHours acc + WorkLog.duration l)
           (CalendarView.totalEarnings acc + CalendarView.getLogValue tz jobs l))
      logs acc in
  CalendarView.totalHours r
  = fold_left (fun s l => s + WorkLog.duration l) logs (CalendarView.totalHours acc) /\
  CalendarView.totalEarnings r
  = fold_left (fun s l => s + CalendarView.getLogValue tz jobs l) logs
      (CalendarView.totalEarnings acc).
Proof.
  revert acc; induction logs as [|l logs IH]; intros acc; simpl.
  - split; reflexivity.
  - apply (IH (CalendarView.mkStats _ _)).
Qed.

End Aggregate.

(** ** Trend chart (C7) *)

(** In a zone of fixed offset the entry of index [i] is dated [i] days
    after the UTC day of the start. *)
Lemma dayBucket_date (tz : Z) (logs : list WorkLog.t) (start i : Z) :
  Dashboard.fullDate (Dashboard.dayBucket (JSDate.fixedZone tz) logs start i)
  = JSDate.isoDateOfDay (JSDate.Day start + i).
Proof.
  unfold Dashboard.dayBucket; cbn [Dashboard.fullDate].
  change (JSDate.offsetAt (JSDate.fixedZone tz) start) with tz.
  rewrite setDate_getDate_shift; unfold JSDate.toISODate.
  rewrite Day_shift; reflexivity.
Qed.

(** The hours of an entry are the hours of the logs of its date, and 0
    when no log has that date, whatever the zone. *)
Lemma dayBucket_hours (zone : JSDate.Zone) (logs : list WorkLog.t) (start i : Z) :
  let b := Dashboard.dayBucket zone logs start i in
  Dashboard.hours b
  = Dashboard.totalHours
      (filter (fun l => (WorkLog.date l =? Dashboard.fullDate b)%string) logs) /\
  ((forall l, In l logs -> WorkLog.date l <> Dashboard.fullDate b) ->
   Dashboard.hours b = 0%Q).
Proof.
  cbv zeta; unfold Dashboard.dayBucket, Dashboard.totalHours.
  cbn [Dashboard.hours Dashboard.fullDate].
  split; [reflexivity|]; intros H.
  replace (filter _ logs) with (@nil WorkLog.t); [reflexivity|].
  symmetry; induction logs as [|l logs IH]; simpl; [reflexivity|].
  match goal with
  | |- context [(WorkLog.date l =? ?d)%string] =>
      destruct (String.eqb_spec (WorkLog.date l) d) as [E|_]
  end.
  - exfalso; exact (H l (or_introl eq_refl) E).
  - apply IH; intros l' Hin; apply H; right; exact Hin.
Qed.

(** C7 fails on a host whose clock changes.  Europe/London on 2024-04-02
    at 23:30 UTC, which is 00:30 on 3 April by the clock, summer time:
    [setDate] steps back through the local days and [toISOString] writes
    the UTC day of each, so the days before the change of 31 March are
    dated as themselves and the days after it one day early.  The seven
    entries are dated 28, 29, 30 and 31 March, 31 March again, 1 and
    2 April: 27 March is missing, the seven dates are not seven
    consecutive days, and the three hours logged on 31 March are charted
    twice. *)
Theorem C7_recent_across_clock_change :
  let now := 1712100600000%Z in
  let log := WorkLog.mk "l1" (Some "a"%string) "2024-03-31" "09:00" "12:00" 3 "" 0 in
  let data := Dashboard.chartData_recent JSDate.London2024 now [log] in
  JSDate.toISODate now = "2024-04-02"%string /\
  JSDate.toISODate (JSDate.LocalTime (JSDate.offsetAt JSDate.London2024 now) now)
  = "2024-04-03"%string /\
  List.map (fun b => (Dashboard.fullDate b, Dashboard.hours b)) data
  = [("2024-03-28", 0); ("2024-03-29", 0); ("2024-03-30", 0); ("2024-03-31", 0 + 3);
     ("2024-03-31", 0 + 3); ("2024-04-01", 0); ("2024-04-02", 0)]%string%Q /\
  List.map Dashboard.fullDate data
  <> List.map (fun i => JSDate.isoDateOfDay (Dashboard.today now - 6 + Z.of_nat i))
       (List.seq 0 7) /\
  ~ NoDup (List.map Dashboard.fullDate data).
Proof.
  cbv zeta; split; [vm_compute; reflexivity|].
  split; [vm_compute; reflexivity|].
  split; [vm_compute; reflexivity|].
  split; [vm_compute; discriminate|].
  intros ND.
  assert (E : List.map Dashboard.fullDate
                (Dashboard.chartData_recent JSDate.London2024 1712100600000
                   [WorkLog.mk "l1" (Some "a"%string) "2024-03-31" "09:00" "12:00" 3 "" 0])
              = ["2024-03-28"; "2024-03-29"; "2024-03-30"; "2024-03-31";
                 "2024-03-31"; "2024-04-01"; "2024-04-02"]%string)
    by (vm_compute; reflexivity).
  rewrite E in ND.
  do 3 (apply NoDup_cons_iff in ND; destruct ND as [_ ND]).
  apply NoDup_cons_iff in ND; destruct ND as [Hin _].
  apply Hin; left; reflexivity.
Qed.

(** A morning in Hong Kong, 2024-03-10 07:00 local time, which is
    2024-03-09 23:00 UTC: the seven days end on 2024-03-09, and the one
    log falls into the last of them. *)
Example chartData_recent_example :
  let log := WorkLog.mk "l1" (Some "a"%string) "2024-03-09" "09:00" "14:00" 5 "" 0 in
  List.map (fun b => (Dashboard.fullDate b, Dashboard.hours b))
    (Dashboard.chartData_recent (JSDate.fixedZone 480) 1710025200000 [log])
  = [("2024-03-03", 0); ("2024-03-04", 0); ("2024-03-05", 0); ("2024-03-06", 0);
     ("2024-03-07", 0); ("2024-03-08", 0); ("2024-03-09", 0 + 5)]%string%Q.
Proof. vm_compute. reflexivity. Qed.

(** ** Comparisons and rounding of rationals *)

Lemma Qltb_lt (a b : Q) : JS.Qltb a b = true <-> a < b.
Proof.
  unfold JS.Qltb; rewrite negb_true_iff; split; intros H.
  - apply Qnot_le_lt; intros L; apply Qle_bool_iff in L; congruence.
  - destruct (Qle_bool b a) eqn:E; [|reflexivity].
    apply Qle_bool_iff in E; lra.
Qed.

Lemma Qltb_ge (a b : Q) : JS.Qltb a b = false <-> b <= a.
Proof.
  unfold JS.Qltb; rewrite negb_false_iff; apply Qle_bool_iff.
Qed.

Lemma Qfloor_bounds (y : Q) : inject_Z (Qfloor y) <= y < inject_Z (Qfloor y) + 1.
Proof.
  split; [apply Qfloor_le|].
  pose proof (Qlt_floor y) as H; rewrite inject_Z_plus in H; exact H.
Qed.

(** Linear arithmetic over the rationals, after turning the divisions by
    100 of the code into multiplications. *)
Ltac qlra := unfold Qdiv in *; change (/ 100)%Q with (1 # 100)%Q in *; lra.

(** Rounding to hundredths moves a number by at most half a hundredth. *)
Lemma toFixed2_close (x : Q) : Qabs (JS.toFixed2 x - x) <= 1 # 200.
Proof.
  apply Qabs_Qle_condition; unfold JS.toFixed2.
  destruct (JS.Qltb x 0) eqn:E.
  - pose proof (Qfloor_bounds (- x * 100 + (1 # 2))) as [H1 H2].
    set (f := inject_Z (Qfloor (- x * 100 + (1 # 2)))) in *.
    clearbody f; qlra.
  - pose proof (Qfloor_bounds (x * 100 + (1 # 2))) as [H1 H2].
    set (f := inject_Z (Qfloor (x * 100 + (1 # 2)))) in *.
    clearbody f; qlra.
Qed.

(** A whole number of hundredths is left as it is. *)
Lemma toFixed2_hundredths (n : Z) : JS.toFixed2 (inject_Z n / 100) == inject_Z n / 100.
Proof.
  unfold JS.toFixed2.
  destruct (JS.Qltb (inject_Z n / 100) 0) eqn:E.
  - assert (F : Qfloor (- (inject_Z n / 100) * 100 + (1 # 2)) = (- n)%Z).
    { pose proof (Qfloor_bounds (- (inject_Z n / 100) * 100 + (1 # 2))) as [H1 H2].
      set (k := Qfloor _) in *; clearbody k.
      assert (L1 : inject_Z k < inject_Z (- n + 1))
        by (rewrite inject_Z_plus, ?inject_Z_opp; change (inject_Z 1) with 1%Q; qlra).
      assert (L2 : inject_Z (- n) < inject_Z (k + 1))
        by (rewrite inject_Z_plus, ?inject_Z_opp; change (inject_Z 1) with 1%Q; qlra).
      rewrite <- Zlt_Qlt in L1, L2; lia. }
    rewrite F, inject_Z_opp; qlra.
  - assert (F : Qfloor (inject_Z n / 100 * 100 + (1 # 2)) = n).
    { pose proof (Qfloor_bounds (inject_Z n / 100 * 100 + (1 # 2))) as [H1 H2].
      set (k := Qfloor _) in *; clearbody k.
      assert (L1 : inject_Z k < inject_Z (n + 1))
        by (rewrite inject_Z_plus; change (inject_Z 1) with 1%Q; qlra).
      assert (L2 : inject_Z n < inject_Z (k + 1))
        by (rewrite inject_Z_plus; change (inject_Z 1) with 1%Q; qlra).
      rewrite <- Zlt_Qlt in L1, L2; lia. }
    rewrite F; reflexivity.
Qed.

(** Rounding does not depend on how the rational is written. *)
Lemma toFixed2_Qeq (x y : Q) : x == y -> JS.toFixed2 x == JS.toFixed2 y.
Proof.
  intros H; unfold JS.toFixed2.
  assert (L : JS.Qltb x 0 = JS.Qltb y 0).
  { destruct (JS.Qltb y 0) eqn:E.
    - apply Qltb_lt; apply Qltb_lt in E; lra.
    - apply Qltb_ge; apply Qltb_ge in E; lra. }
  rewrite L; destruct (JS.Qltb y 0).
  - rewrite (Qfloor_comp (- x * 100 + (1 # 2)) (- y * 100 + (1 # 2))) by lra.
    reflexivity.
  - rewrite (Qfloor_comp (x * 100 + (1 # 2)) (y * 100 + (1 # 2))) by lra.
    reflexivity.
Qed.

(** ** Progress toward the target (C2) *)

Lemma Qeq_bool_false (a b : Q) : ~ a == b -> Qeq_bool a b = false.
Proof.
  intros H; destruct (Qeq_bool a b) eqn:E; [|reflexivity].
  apply Qeq_bool_iff in E; contradiction.
Qed.


(** With a target of zero and no hours the division is 0 / 0: the
    percentage is NaN. *)
Lemma percentOf_zero_target_no_hours (job : Job.t) (h : Q) :
  Job.targetHours job == 0 -> h == 0 ->
  Dashboard.percentOf job h = JS.NaN.
Proof.
  intros Ht Hh; unfold Dashboard.percentOf, JS.div.
  apply Qeq_bool_iff in Ht; apply Qeq_bool_iff in Hh.
  rewrite Ht, Hh; reflexivity.
Qed.




(** ** Binary64 arithmetic *)

Section Binary64.

Local Open Scope Q_scope.

Lemma pow2_pos (e : Z) : 0 < Double.pow2 e.
Proof. apply Qpower_0_lt; reflexivity. Qed.

Lemma pow2_add (a b : Z) : Double.pow2 (a + b) == Double.pow2 a * Double.pow2 b.
Proof. apply Qpower_plus; discriminate. Qed.

Lemma pow2_succ (e : Z) : Double.pow2 (e + 1) == 2 * Double.pow2 e.
Proof. rewrite pow2_add; unfold Double.pow2 at 2; simpl; ring. Qed.

Lemma pow2_lt (a b : Z) : (a < b)%Z -> Double.pow2 a < Double.pow2 b.
Proof. intros H; apply Qpower_lt_compat_l; [exact H|reflexivity]. Qed.

Lemma pow2_le (a b : Z) : (a <= b)%Z -> Double.pow2 a <= Double.pow2 b.
Proof. intros H; apply Qpower_le_compat_l; [exact H|discriminate]. Qed.

Lemma pow2_lt_inv (a b : Z) : Double.pow2 a < Double.pow2 b -> (a < b)%Z.
Proof. intros H; apply (Qpower_lt_compat_l_inv 2); [exact H|reflexivity]. Qed.

Lemma pow2_Z (e : Z) : (0 <= e)%Z -> Double.pow2 e == inject_Z (2 ^ e).
Proof. intros H; unfold Double.pow2; rewrite Zpower_Qpower by exact H; reflexivity. Qed.

Lemma pow2_inv (e : Z) : Double.pow2 (- e) == / Double.pow2 e.
Proof. apply Qpower_opp. Qed.

Lemma pow2_cancel (e : Z) : Double.pow2 e * Double.pow2 (- e) == 1.
Proof. rewrite <- pow2_add, Z.add_opp_diag_r; reflexivity. Qed.

Lemma Qabs_num_den (x : Q) :
  Qabs x * inject_Z (Zpos (Qden x)) == inject_Z (Z.abs (Qnum x)).
Proof.
  destruct x as [n d]; unfold Qabs, Qmult, inject_Z, Qeq; simpl.
  rewrite Pos.mul_1_r; ring.
Qed.

Lemma Qmult_lt_cancel (x p l : Q) : 0 < l -> x * l < p * l -> x < p.
Proof. intros Hl H; apply (Qmult_lt_r _ _ l Hl); exact H. Qed.

Lemma exponent_bounds (x : Q) :
  ~ x == 0 ->
  let e0 := (Z.log2 (Z.abs (Qnum x)) - Z.log2 (Zpos (Qden x)))%Z in
  Double.pow2 (e0 - 1) < Qabs x < Double.pow2 (e0 + 1).
Proof.
  intros Hx e0.
  set (a := Z.abs (Qnum x)) in *; set (d := Zpos (Qden x)) in *.
  assert (Ha : (0 < a)%Z).
  { unfold a; destruct x as [n dd]; simpl.
    assert (n <> 0)%Z by (intros ->; apply Hx; reflexivity).
    lia. }
  assert (Hd : (0 < d)%Z) by (unfold d; lia).
  pose proof (Z.log2_spec a Ha) as [A1 A2].
  pose proof (Z.log2_spec d Hd) as [D1 D2].
  pose proof (Z.log2_nonneg a) as La; pose proof (Z.log2_nonneg d) as Ld.
  set (la := Z.log2 a) in *; set (ld := Z.log2 d) in *.
  rewrite <- Z.add_1_r in A2, D2.
  rewrite Zle_Qle in A1, D1.
  rewrite Zlt_Qlt in A2, D2.
  rewrite <- pow2_Z in A1, A2, D1, D2 by lia.
  pose proof (Qabs_num_den x) as H; fold a d in H.
  pose proof (Qabs_nonneg x) as X0.
  assert (Xp : 0 < Qabs x).
  { destruct (Qlt_le_dec 0 (Qabs x)) as [L|L]; [exact L|].
    exfalso; assert (E : Qabs x == 0) by lra.
    rewrite E in H; rewrite Qmult_0_l in H.
    unfold Qeq in H; simpl in H; lia. }
  pose proof (pow2_pos ld) as Pld; pose proof (pow2_pos (ld + 1)) as Pld1.
  split.
  - apply (Qmult_lt_cancel _ _ (Double.pow2 (ld + 1)) Pld1).
    rewrite <- pow2_add.
    replace (e0 - 1 + (ld + 1))%Z with la by (unfold e0; lia).
    apply (Qle_lt_trans _ (inject_Z a)); [exact A1|].
    rewrite <- H; apply Qmult_lt_l; assumption.
  - apply (Qmult_lt_cancel _ _ (Double.pow2 ld) Pld).
    rewrite <- (pow2_add (e0 + 1) ld).
    replace (e0 + 1 + ld)%Z with (la + 1)%Z by (unfold e0; lia).
    apply (Qle_lt_trans _ (inject_Z a)); [|exact A2].
    rewrite <- H; apply Qmult_le_l; assumption.
Qed.

(** The exponent brackets the magnitude. *)
Lemma exponent_spec (x : Q) :
  ~ x == 0 ->
  Double.pow2 (Double.exponent x) <= Qabs x < Double.pow2 (Double.exponent x + 1).
Proof.
  intros Hx; pose proof (exponent_bounds x Hx) as [B1 B2]; cbv zeta in B1, B2.
  unfold Double.exponent.
  set (e0 := (Z.log2 (Z.abs (Qnum x)) - Z.log2 (Zpos (Qden x)))%Z) in *.
  destruct (Qle_bool (Double.pow2 e0) (Qabs x)) eqn:E.
  - apply Qle_bool_iff in E; split; assumption.
  - split; [apply Qlt_le_weak; exact B1|].
    replace (e0 - 1 + 1)%Z with e0 by lia.
    apply Qnot_le_lt; intros L; apply Qle_bool_iff in L; congruence.
Qed.

Lemma exponent_unique (x : Q) (e : Z) :
  Double.pow2 e <= Qabs x < Double.pow2 (e + 1) -> Double.exponent x = e.
Proof.
  intros [L U].
  assert (Hx : ~ x == 0).
  { intros E; rewrite E in L; pose proof (pow2_pos e); simpl in L.
    change (Qabs 0) with 0 in L; lra. }
  destruct (exponent_spec x Hx) as [L' U'].
  assert (e < Double.exponent x + 1)%Z by (apply pow2_lt_inv; lra).
  assert (Double.exponent x < e + 1)%Z by (apply pow2_lt_inv; lra).
  lia.
Qed.

Lemma exponent_Qeq (x y : Q) :
  ~ x == 0 -> x == y -> Double.exponent x = Double.exponent y.
Proof.
  intros Hx E; symmetry; apply exponent_unique.
  rewrite <- E; apply exponent_spec; exact Hx.
Qed.

(** *** Rounding to the nearest integer *)




Lemma nearestEven_cases (q : Q) :
  let f := Qfloor q in
  (Double.nearestEven q = f /\ q - inject_Z f <= 1 # 2) \/
  (Double.nearestEven q = (f + 1)%Z /\ 1 # 2 <= q - inject_Z f).
Proof.
  intros f; unfold Double.nearestEven; fold f.
  destruct (JS.Qltb (q - inject_Z f) (1 # 2)) eqn:A.
  - left; split; [reflexivity|]; apply Qltb_lt in A; lra.
  - apply Qltb_ge in A.
    destruct (JS.Qltb (1 # 2) (q - inject_Z f)) eqn:B.
    + right; split; [reflexivity|exact A].
    + apply Qltb_ge in B.
      destruct (Z.even f); [left|right]; split; try reflexivity; assumption.
Qed.

Lemma nearestEven_close (q : Q) :
  Qabs (inject_Z (Double.nearestEven q) - q) <= 1 # 2.
Proof.
  pose proof (Qfloor_bounds q) as [F1 F2].
  apply Qabs_Qle_condition.
  destruct (nearestEven_cases q) as [[-> H]|[-> H]]; cbv zeta in *;
    rewrite ?inject_Z_plus; change (inject_Z 1) with 1; lra.
Qed.

Lemma nearestEven_Z (z : Z) : Double.nearestEven (inject_Z z) = z.
Proof.
  unfold Double.nearestEven; rewrite Qfloor_Z.
  replace (JS.Qltb (inject_Z z - inject_Z z) (1 # 2)) with true; [reflexivity|].
  symmetry; apply Qltb_lt; lra.
Qed.

Lemma nearestEven_Qeq (q q' : Q) :
  q == q' -> Double.nearestEven q = Double.nearestEven q'.
Proof.
  intros E; unfold Double.nearestEven.
  rewrite (Qfloor_comp q q' E).
  set (f := Qfloor q').
  assert (A : JS.Qltb (q - inject_Z f) (1 # 2) = JS.Qltb (q' - inject_Z f) (1 # 2)).
  { destruct (JS.Qltb (q' - inject_Z f) (1 # 2)) eqn:B.
    - apply Qltb_lt; apply Qltb_lt in B; lra.
    - apply Qltb_ge; apply Qltb_ge in B; lra. }
  assert (C : JS.Qltb (1 # 2) (q - inject_Z f) = JS.Qltb (1 # 2) (q' - inject_Z f)).
  { destruct (JS.Qltb (1 # 2) (q' - inject_Z f)) eqn:B.
    - apply Qltb_lt; apply Qltb_lt in B; lra.
    - apply Qltb_ge; apply Qltb_ge in B; lra. }
  rewrite A, C; reflexivity.
Qed.



(** *** Rounding to the nearest double *)


Lemma round_zero (x : Q) : x == 0 -> Double.round x = 0.
Proof.
  intros H; unfold Double.round.
  apply Qeq_bool_iff in H; rewrite H; reflexivity.
Qed.

Lemma round_nonzero (x : Q) :
  ~ x == 0 ->
  Double.round x = inject_Z (Double.nearestEven (x / Double.ulp x)) * Double.ulp x.
Proof.
  intros H; unfold Double.round; rewrite (Qeq_bool_false _ _ H); reflexivity.
Qed.

Lemma ulp_pos (x : Q) : 0 < Double.ulp x.
Proof. apply pow2_pos. Qed.

(** The significand: a rational of magnitude from 2^52 up to 2^53. *)
Lemma significand (x : Q) :
  ~ x == 0 ->
  x == x / Double.ulp x * Double.ulp x /\
  Double.pow2 (Double.exponent x) == inject_Z (2 ^ 52) * Double.ulp x /\
  inject_Z (2 ^ 52) <= Qabs (x / Double.ulp x) < inject_Z (2 ^ 53).
Proof.
  intros Hx; pose proof (ulp_pos x) as U; pose proof (exponent_spec x Hx) as [L H].
  assert (E0 : x == x / Double.ulp x * Double.ulp x) by (field; lra).
  assert (E1 : Double.pow2 (Double.exponent x) == inject_Z (2 ^ 52) * Double.ulp x).
  { unfold Double.ulp; rewrite <- pow2_Z, <- pow2_add by lia.
    replace (52 + (Double.exponent x - 52))%Z with (Double.exponent x) by lia.
    reflexivity. }
  assert (E2 : Double.pow2 (Double.exponent x + 1) == inject_Z (2 ^ 53) * Double.ulp x).
  { unfold Double.ulp; rewrite <- pow2_Z, <- pow2_add by lia.
    replace (53 + (Double.exponent x - 52))%Z with (Double.exponent x + 1)%Z by lia.
    reflexivity. }
  split; [exact E0|]; split; [exact E1|].
  assert (A : Qabs x == Qabs (x / Double.ulp x) * Double.ulp x).
  { rewrite E0 at 1; rewrite Qabs_Qmult, (Qabs_pos (Double.ulp x)) by lra.
    reflexivity. }
  rewrite E1, A in L; rewrite E2, A in H.
  split.
  - apply (Qmult_le_r _ _ (Double.ulp x) U); exact L.
  - apply (Qmult_lt_r _ _ (Double.ulp x) U); exact H.
Qed.

(** The relative error of one rounding is at most 2^-53. *)
Lemma round_error (x : Q) : Qabs (Double.round x - x) <= Double.u * Qabs x.
Proof.
  destruct (Qeq_dec x 0) as [Z0|Hx].
  - rewrite (round_zero x Z0), Z0; simpl; discriminate.
  - rewrite (round_nonzero x Hx).
    destruct (significand x Hx) as (E0 & E1 & _).
    pose proof (ulp_pos x) as U; pose proof (exponent_spec x Hx) as [L _].
    set (m := x / Double.ulp x) in *.
    pose proof (nearestEven_close m) as C.
    assert (D : inject_Z (Double.nearestEven m) * Double.ulp x - x
                == (inject_Z (Double.nearestEven m) - m) * Double.ulp x)
      by (rewrite E0 at 2; ring).
    rewrite D, Qabs_Qmult, (Qabs_pos (Double.ulp x)) by lra.
    apply (Qle_trans _ ((1 # 2) * Double.ulp x)).
    + apply Qmult_le_compat_r; [exact C|lra].
    + apply (Qle_trans _ (Double.u * Double.pow2 (Double.exponent x))).
      * unfold Double.u, Double.ulp; rewrite <- pow2_add.
        replace (-53 + Double.exponent x)%Z with (-1 + (Double.exponent x - 52))%Z by lia.
        rewrite pow2_add; apply Qmult_le_compat_r; [discriminate|].
        apply Qlt_le_weak, pow2_pos.
      * apply Qmult_le_l; [reflexivity|exact L].
Qed.

Lemma round_Qeq (x y : Q) : x == y -> Double.round x == Double.round y.
Proof.
  intros E; destruct (Qeq_dec x 0) as [Z0|Hx].
  - rewrite (round_zero x Z0), (round_zero y); [reflexivity|rewrite <- E; exact Z0].
  - assert (Hy : ~ y == 0) by (rewrite <- E; exact Hx).
    rewrite (round_nonzero x Hx), (round_nonzero y Hy).
    unfold Double.ulp; rewrite (exponent_Qeq x y Hx E).
    rewrite (nearestEven_Qeq (x / Double.pow2 (Double.exponent y - 52))
               (y / Double.pow2 (Double.exponent y - 52))); [reflexivity|].
    rewrite E; reflexivity.
Qed.

(** A double written over the unit in the last place of a number that is
    not smaller in magnitude is a whole number of units. *)
Lemma double_multiple (m er e : Z) :
  (e - 52 <= er)%Z ->
  inject_Z m * Double.pow2 er
  == inject_Z (m * 2 ^ (er - (e - 52))) * Double.pow2 (e - 52).
Proof.
  intros H; rewrite inject_Z_mult, <- pow2_Z by lia.
  rewrite <- Qmult_assoc, <- pow2_add.
  replace (er - (e - 52) + (e - 52))%Z with er by lia; reflexivity.
Qed.

Lemma double_small (m er e : Z) :
  (Z.abs m < 2 ^ 53)%Z -> (er < e - 52)%Z ->
  Qabs (inject_Z m * Double.pow2 er) < Double.pow2 e.
Proof.
  intros Hm He; pose proof (pow2_pos er) as P.
  rewrite Qabs_Qmult, (Qabs_pos (Double.pow2 er)) by lra.
  apply (Qlt_le_trans _ (inject_Z (2 ^ 53) * Double.pow2 er)).
  - apply Qmult_lt_r; [exact P|].
    change (Qabs (inject_Z m)) with (inject_Z (Z.abs m)).
    rewrite <- Zlt_Qlt; exact Hm.
  - rewrite <- pow2_Z, <- pow2_add by lia; apply pow2_le; lia.
Qed.

(** A double is left as it is. *)
Lemma round_exact (x : Q) : Double.isDouble x -> Double.round x == x.
Proof.
  intros (m & er & Hm & E).
  destruct (Qeq_dec x 0) as [Z0|Hx]; [rewrite (round_zero x Z0), Z0; reflexivity|].
  rewrite (round_nonzero x Hx).
  destruct (Z_lt_le_dec er (Double.exponent x - 52)) as [S|G].
  - exfalso; pose proof (double_small m er (Double.exponent x) Hm S) as B.
    rewrite <- E in B; destruct (exponent_spec x Hx) as [L _]; lra.
  - pose proof (double_multiple m er (Double.exponent x) G) as M.
    fold (Double.ulp x) in M; pose proof (ulp_pos x) as U.
    set (k := (m * 2 ^ (er - (Double.exponent x - 52)))%Z) in *.
    assert (X : x == inject_Z k * Double.ulp x) by (rewrite <- M; exact E).
    assert (Q : x / Double.ulp x == inject_Z k).
    { apply (Qmult_inj_r _ _ (Double.ulp x)); [lra|].
      rewrite <- X; field; lra. }
    rewrite (nearestEven_Qeq _ _ Q), nearestEven_Z; symmetry; exact X.
Qed.




(** *** Sums *)

Lemma u_pos : 0 < Double.u.
Proof. apply pow2_pos. Qed.

Lemma growth_ge_1 (n : nat) : 1 <= Double.growth n.
Proof.
  induction n as [|n IH]; simpl; [discriminate|].
  pose proof u_pos; nra.
Qed.

Lemma growth_le (n m : nat) : (n <= m)%nat -> Double.growth n <= Double.growth m.
Proof.
  induction 1 as [|m _ IH]; [lra|].
  simpl; pose proof u_pos; pose proof (growth_ge_1 m); nra.
Qed.



Lemma exact_snoc (vs : list Q) (v : Q) :
  Double.exact (vs ++ [v]) == Double.exact vs + v.
Proof. unfold Double.exact; rewrite fold_left_app; reflexivity. Qed.

Lemma magnitude_snoc (vs : list Q) (v : Q) :
  Double.magnitude (vs ++ [v]) == Double.magnitude vs + Qabs v.
Proof. unfold Double.magnitude; rewrite fold_left_app; reflexivity. Qed.

Lemma sum_snoc (vs : list Q) (v : Q) :
  Double.sum (vs ++ [v]) = Double.add (Double.sum vs) v.
Proof. unfold Double.sum; rewrite fold_left_app; reflexivity. Qed.

Lemma magnitude_nonneg (vs : list Q) : 0 <= Double.magnitude vs.
Proof.
  induction vs as [|v vs IH] using rev_ind; [discriminate|].
  rewrite magnitude_snoc; pose proof (Qabs_nonneg v); lra.
Qed.

Lemma exact_le_magnitude (vs : list Q) :
  Qabs (Double.exact vs) <= Double.magnitude vs.
Proof.
  induction vs as [|v vs IH] using rev_ind; [discriminate|].
  rewrite exact_snoc, magnitude_snoc.
  revert IH; apply Qabs_case; apply Qabs_case; apply Qabs_case; intros; lra.
Qed.

(** The running total of [n] doubles is within [drift n] of the exact sum,
    relative to the sum of the magnitudes. *)
Lemma sum_error (vs : list Q) :
  Qabs (Double.sum vs - Double.exact vs)
  <= Double.drift (List.length vs) * Double.magnitude vs.
Proof.
  induction vs as [|v vs IH] using rev_ind.
  - unfold Double.drift; simpl; discriminate.
  - rewrite sum_snoc, exact_snoc, magnitude_snoc, length_app; simpl length.
    replace (List.length vs + 1)%nat with (S (List.length vs)) by lia.
    unfold Double.drift in *; simpl Double.growth.
    unfold Double.add.
    set (s := Double.sum vs) in *; set (e := Double.exact vs) in *.
    set (t := Double.magnitude vs) in *; set (g := Double.growth (length vs)) in *.
    pose proof (round_error (s + v)) as R.
    pose proof (exact_le_magnitude vs) as M; fold e t in M.
    pose proof (magnitude_nonneg vs) as T0; fold t in T0.
    pose proof (growth_ge_1 (length vs)) as G1; fold g in G1.
    pose proof u_pos as U0.
    pose proof (Qabs_nonneg v) as V0.
    set (r := Double.round (s + v)) in *.
    set (av := Qabs v) in *.
    assert (V : - av <= v <= av).
    { unfold av; apply Qabs_case; intros; lra. }
    clearbody s e t g r av.
    apply Qabs_Qle_condition in IH, M.
    assert (B : Qabs (s + v) <= g * t + av).
    { apply Qabs_Qle_condition; split; nra. }
    assert (C : Double.u * Qabs (s + v) <= Double.u * (g * (t + av))).
    { apply Qmult_le_l; [exact U0|]; nra. }
    apply Qabs_Qle_condition in R.
    apply Qabs_Qle_condition; split; nra.
Qed.

(** On a grid every partial sum is a double: the running total is exact. *)
Lemma sum_onGrid (k : Z) (vs : list Q) :
  Double.onGrid k vs -> Double.sum vs == Double.exact vs.
Proof.
  intros [F M].
  assert (G : Double.sum vs == Double.exact vs /\
              exists z : Z, Double.exact vs == inject_Z z * Double.pow2 (- k)).
  { induction vs as [|v vs IH] using rev_ind.
    - split; [reflexivity|]; exists 0%Z; unfold Double.exact; simpl; ring.
    - apply Forall_app in F; destruct F as [F Fv].
      inversion Fv as [|v' l' [zv Hv] _]; subst.
      rewrite magnitude_snoc in M; pose proof (Qabs_nonneg v) as V0.
      destruct IH as [IH [z Hz]]; [exact F|lra|].
      assert (E : Double.exact (vs ++ [v]) == inject_Z (z + zv) * Double.pow2 (- k))
        by (rewrite exact_snoc, Hz, Hv, inject_Z_plus; ring).
      split; [|exists (z + zv)%Z; exact E].
      rewrite sum_snoc; unfold Double.add.
      rewrite (round_Qeq (Double.sum vs + v) (Double.exact (vs ++ [v])))
        by (rewrite exact_snoc, IH; reflexivity).
      apply round_exact; exists (z + zv)%Z, (- k)%Z; split; [|exact E].
      pose proof (exact_le_magnitude (vs ++ [v])) as B.
      rewrite magnitude_snoc, E in B.
      pose proof (pow2_pos (- k)) as P.
      rewrite Qabs_Qmult, (Qabs_pos (Double.pow2 (- k))) in B by lra.
      assert (L : Qabs (inject_Z (z + zv)) * Double.pow2 (- k)
                  < inject_Z (2 ^ 53) * Double.pow2 (- k)).
      { rewrite <- (pow2_Z 53), <- pow2_add by lia.
        replace (53 + - k)%Z with (53 - k)%Z by lia; lra. }
      apply Qmult_lt_r in L; [|exact P].
      change (Qabs (inject_Z (z + zv))) with (inject_Z (Z.abs (z + zv))) in L.
      rewrite <- Zlt_Qlt in L; exact L. }
  exact (proj1 G).
Qed.

(** *** Two decimals *)

Lemma toFixed2_near (x : Q) (n : Z) :
  Qabs (x * 100 - inject_Z n) < 1 # 2 -> JS.toFixed2 x == inject_Z n / 100.
Proof.
  intros H; unfold JS.toFixed2.
  assert (B : - (1 # 2) < x * 100 - inject_Z n < 1 # 2).
  { revert H; apply Qabs_case; intros; lra. }
  destruct (JS.Qltb x 0).
  - assert (F : Qfloor (- x * 100 + (1 # 2)) = (- n)%Z).
    { pose proof (Qfloor_bounds (- x * 100 + (1 # 2))) as [H1 H2].
      set (f := Qfloor _) in *; clearbody f.
      assert (L1 : inject_Z f < inject_Z (- n + 1))
        by (rewrite inject_Z_plus, ?inject_Z_opp; change (inject_Z 1) with 1%Q; lra).
      assert (L2 : inject_Z (- n) < inject_Z (f + 1))
        by (rewrite inject_Z_plus, ?inject_Z_opp; change (inject_Z 1) with 1%Q; lra).
      rewrite <- Zlt_Qlt in L1, L2; lia. }
    rewrite F, inject_Z_opp; unfold Qdiv; ring.
  - assert (F : Qfloor (x * 100 + (1 # 2)) = n).
    { pose proof (Qfloor_bounds (x * 100 + (1 # 2))) as [H1 H2].
      set (f := Qfloor _) in *; clearbody f.
      assert (L1 : inject_Z f < inject_Z (n + 1))
        by (rewrite inject_Z_plus; change (inject_Z 1) with 1%Q; lra).
      assert (L2 : inject_Z n < inject_Z (f + 1))
        by (rewrite inject_Z_plus; change (inject_Z 1) with 1%Q; lra).
      rewrite <- Zlt_Qlt in L1, L2; lia. }
    rewrite F; reflexivity.
Qed.

(** The double of a number of two decimals is written back as itself. *)
Lemma toFixed2_double_of_hundredths (n : Z) :
  (Z.abs n < 2 ^ 50)%Z ->
  Double.toFixed2 (Double.round (inject_Z n / 100)) == Double.round (inject_Z n / 100).
Proof.
  intros Hn; unfold Double.toFixed2.
  apply round_Qeq, toFixed2_near.
  pose proof (round_error (inject_Z n / 100)) as R.
  set (x := Double.round (inject_Z n / 100)) in *; clearbody x.
  assert (N : Qabs (inject_Z n) < inject_Z (2 ^ 50))
    by (change (Qabs (inject_Z n)) with (inject_Z (Z.abs n)); rewrite <- Zlt_Qlt; exact Hn).
  assert (A : Qabs (inject_Z n / 100) == Qabs (inject_Z n) * (1 # 100)).
  { unfold Qdiv; rewrite Qabs_Qmult; reflexivity. }
  rewrite A in R.
  assert (U : Double.u * inject_Z (2 ^ 50) == 1 # 8) by reflexivity.
  pose proof u_pos as U0; pose proof (Qabs_nonneg (inject_Z n)) as N0.
  assert (P : Double.u * Qabs (inject_Z n) <= 1 # 8).
  { rewrite <- U; apply Qmult_le_l; [exact U0|lra]. }
  set (an := Qabs (inject_Z n)) in *; clearbody an.
  unfold Qdiv in *; change (/ 100) with (1 # 100) in *.
  revert R; apply Qabs_case; apply Qabs_case; intros; nra.
Qed.


End Binary64.

(** ** Aggregation over doubles (C8) *)

Section Aggregate64.

Local Open Scope Q_scope.

Lemma sum_map {A : Type} (f : A -> Q) (l : list A) :
  fold_left (fun s x => Double.add s (f x)) l 0 = Double.sum (List.map f l).
Proof.
  unfold Double.sum; generalize 0.
  induction l as [|x l IH]; intros a; simpl; [reflexivity|apply IH].
Qed.

Lemma exact_perm (vs ws : list Q) :
  Permutation vs ws -> Double.exact vs == Double.exact ws.
Proof. exact (fold_sum_perm (fun v => v) vs ws). Qed.

Lemma exact_app (vs ws : list Q) :
  Double.exact (vs ++ ws) == Double.exact vs + Double.exact ws.
Proof. exact (fold_sum_app (fun v => v) vs ws). Qed.

Lemma magnitude_perm (vs ws : list Q) :
  Permutation vs ws -> Double.magnitude vs == Double.magnitude ws.
Proof. exact (fold_sum_perm Qabs vs ws). Qed.

Lemma magnitude_app (vs ws : list Q) :
  Double.magnitude (vs ++ ws) == Double.magnitude vs + Double.magnitude ws.
Proof. exact (fold_sum_app Qabs vs ws). Qed.

Lemma drift_nonneg (n : nat) : 0 <= Double.drift n.
Proof. unfold Double.drift; pose proof (growth_ge_1 n); lra. Qed.

Lemma drift_le (n m : nat) : (n <= m)%nat -> Double.drift n <= Double.drift m.
Proof. intros H; unfold Double.drift; pose proof (growth_le n m H); lra. Qed.

(** The hours and the values of some of the logs weigh no more than those
    of all of them. *)
Lemma magnitude_filter {A : Type} (f : A -> Q) (p : A -> bool) (l : list A) :
  Double.magnitude (List.map f (filter p l)) <= Double.magnitude (List.map f l).
Proof.
  induction l as [|x l IH]; simpl; [lra|].
  change (Double.magnitude (f x :: List.map f l))
    with (Double.magnitude ([f x] ++ List.map f l)).
  rewrite magnitude_app.
  assert (X : Double.magnitude [f x] == Qabs (f x))
    by (unfold Double.magnitude; simpl; ring).
  pose proof (Qabs_nonneg (f x)).
  destruct (p x); simpl; [|lra].
  change (Double.magnitude (f x :: List.map f (filter p l)))
    with (Double.magnitude ([f x] ++ List.map f (filter p l))).
  rewrite magnitude_app; lra.
Qed.

Lemma onGrid_perm (k : Z) (vs ws : list Q) :
  Permutation vs ws -> Double.onGrid k vs -> Double.onGrid k ws.
Proof.
  intros P [F M]; split.
  - exact (Permutation_Forall P F).
  - rewrite <- (magnitude_perm vs ws P); exact M.
Qed.

Lemma onGrid_app (k : Z) (vs ws : list Q) :
  Double.onGrid k (vs ++ ws) -> Double.onGrid k vs /\ Double.onGrid k ws.
Proof.
  intros [F M]; apply Forall_app in F; destruct F as [F1 F2].
  rewrite magnitude_app in M.
  pose proof (magnitude_nonneg vs); pose proof (magnitude_nonneg ws).
  split; split; try assumption; lra.
Qed.

Lemma onGrid_filter {A : Type} (k : Z) (f : A -> Q) (p : A -> bool) (l : list A) :
  Double.onGrid k (List.map f l) -> Double.onGrid k (List.map f (filter p l)).
Proof.
  intros [F M]; split.
  - rewrite Forall_forall in *; intros v Hv; apply F.
    apply in_map_iff in Hv; destruct Hv as (x & <- & Hx).
    apply filter_In in Hx; apply in_map; tauto.
  - pose proof (magnitude_filter f p l); lra.
Qed.

(** The running total of the whole against the running totals of two
    parts: within twice the drift, and the same number on a grid. *)
Lemma sum_parts (vs xs ys : list Q) :
  Permutation vs (xs ++ ys) ->
  Qabs (Double.sum vs - (Double.sum xs + Double.sum ys))
  <= 2 * Double.drift (List.length vs) * Double.magnitude vs /\
  (forall k, Double.onGrid k vs -> Double.sum vs == Double.sum xs + Double.sum ys).
Proof.
  intros P.
  pose proof (exact_perm _ _ P) as E; rewrite exact_app in E.
  pose proof (magnitude_perm _ _ P) as M; rewrite magnitude_app in M.
  pose proof (Permutation_length P) as L; rewrite length_app in L.
  split.
  - pose proof (sum_error vs) as Ev.
    pose proof (sum_error xs) as Ex; pose proof (sum_error ys) as Ey.
    pose proof (drift_le (length xs) (length vs) ltac:(lia)) as Dx.
    pose proof (drift_le (length ys) (length vs) ltac:(lia)) as Dy.
    pose proof (drift_nonneg (length xs)) as Nx.
    pose proof (drift_nonneg (length ys)) as Ny.
    pose proof (magnitude_nonneg xs) as Mx; pose proof (magnitude_nonneg ys) as My.
    set (d := Double.drift (length vs)) in *.
    set (dx := Double.drift (length xs)) in *.
    set (dy := Double.drift (length ys)) in *.
    set (mv := Double.magnitude vs) in *.
    set (mx := Double.magnitude xs) in *; set (my := Double.magnitude ys) in *.
    set (sv := Double.sum vs) in *; set (sx := Double.sum xs) in *.
    set (sy := Double.sum ys) in *.
    set (ev := Double.exact vs) in *; set (ex := Double.exact xs) in *.
    set (ey := Double.exact ys) in *.
    clearbody d dx dy mv mx my sv sx sy ev ex ey.
    apply Qabs_Qle_condition in Ev, Ex, Ey.
    assert (Bx : dx * mx <= d * mx) by (apply Qmult_le_compat_r; assumption).
    assert (By : dy * my <= d * my) by (apply Qmult_le_compat_r; assumption).
    assert (Mv : d * mv == d * mx + d * my) by (rewrite M; ring).
    apply Qabs_Qle_condition; split; lra.
  - intros k G.
    pose proof (onGrid_perm k _ _ P G) as G'.
    apply onGrid_app in G'; destruct G' as [Gx Gy].
    rewrite (sum_onGrid k vs G), (sum_onGrid k xs Gx), (sum_onGrid k ys Gy); exact E.
Qed.

End Aggregate64.

(** The rounding agrees with the binary64 arithmetic of the processor at
    the numbers of the examples above. *)
Example round_as_the_processor :
  let same := fun (x : PrimFloat.float) (q : Q) =>
    option_map Qred (Double.ofFloat x) = Some (Qred q) in
  same (PrimFloat.div (Double.float 1) (Double.float 10)) (Double.round (1 # 10)) /\
  same (PrimFloat.add
          (PrimFloat.add
             (PrimFloat.add (Double.float 0) (PrimFloat.div (Double.float 1) (Double.float 10)))
             (PrimFloat.div (Double.float 2) (Double.float 10)))
          (PrimFloat.div (Double.float 3) (Double.float 10)))
       (Double.sum [Double.round (1 # 10); Double.round (2 # 10); Double.round (3 # 10)]) /\
  same (PrimFloat.add (PrimFloat.div (Double.float 1) (Double.float 10))
          (PrimFloat.add (PrimFloat.add (Double.float 0) (PrimFloat.div (Double.float 2) (Double.float 10)))
             (PrimFloat.div (Double.float 3) (Double.float 10))))
       (Double.add (Double.sum [Double.round (1 # 10)])
          (Double.sum [Double.round (2 # 10); Double.round (3 # 10)])) /\
  same (PrimFloat.sub (PrimFloat.div (Double.float 401) (Double.float 10)) (Double.float 40))
       (Double.sub (Double.round (401 # 10)) 40) /\
  same (PrimFloat.sub (PrimFloat.div (Double.float 13) (Double.float 100)) (PrimFloat.div (Double.float 125) (Double.float 1000)))
       (Double.sub (Double.round (13 # 100)) (Double.round (125 # 1000))) /\
  same (PrimFloat.sub (Double.float 1000)
          (PrimFloat.mul (Double.float 1000) (PrimFloat.div (Double.float 7) (Double.float 100))))
       (Double.sub 1000 (Double.mul 1000 (Double.div 7 100))) /\
  same (PrimFloat.mul (Double.float 1000)
          (PrimFloat.sub (Double.float 1) (PrimFloat.div (Double.float 7) (Double.float 100))))
       (Double.mul 1000 (Double.sub 1 (Double.div 7 100))).
Proof. vm_compute; repeat split. Qed.

(** The same for the sums, differences, products and quotients of the
    hundredths from 0.00 to 0.24 and from 0.01 to 0.24. *)
Example round_as_the_processor_on_hundredths :
  forallb
    (fun a => forallb (fun b => Double.agreesOn (Z.of_nat a) (Z.of_nat b)) (List.seq 1 24))
    (List.seq 0 25)
  = true.
Proof. vm_compute; reflexivity. Qed.

Section AggregateOfParts.

Local Open Scope Q_scope.

Lemma accumulate64_fold (tz : Z) (jobs : list Job.t) (logs : list WorkLog.t)
  (acc : CalendarView.Stats) :
  let r :=
    fold_left
      (fun acc l =>
         CalendarView.mkStats
           (Double.add (CalendarView.totalHours acc) (WorkLog.duration l))
           (Double.add (CalendarView.totalEarnings acc)
              (CalendarView64.getLogValue tz jobs l)))
      logs acc in
  CalendarView.totalHours r
  = fold_left Double.add (List.map WorkLog.duration logs) (CalendarView.totalHours acc) /\
  CalendarView.totalEarnings r
  = fold_left Double.add (List.map (CalendarView64.getLogValue tz jobs) logs)
      (CalendarView.totalEarnings acc).
Proof.
  revert acc; induction logs as [|l logs IH]; intros acc; simpl.
  - split; reflexivity.
  - apply (IH (CalendarView.mkStats _ _)).
Qed.

Lemma accumulate64_sums (tz : Z) (jobs : list Job.t) (logs : list WorkLog.t) :
  CalendarView.totalHours (CalendarView64.accumulate tz jobs logs)
  = Double.sum (List.map WorkLog.duration logs) /\
  CalendarView.totalEarnings (CalendarView64.accumulate tz jobs logs)
  = Double.sum (List.map (CalendarView64.getLogValue tz jobs) logs).
Proof.
  exact (accumulate64_fold tz jobs logs (CalendarView.mkStats 0 0)).
Qed.

Lemma getLogEarnings64_getLogValue64 (tz : Z) (jobs : list Job.t) (log : WorkLog.t) :
  Dashboard64.getLogEarnings tz jobs log = CalendarView64.getLogValue tz jobs log.
Proof. reflexivity. Qed.

(** C8, as the code has it.  The code adds doubles, so the aggregate of
    the whole and the sum of the aggregates of two parts are equal only up
    to rounding.  When a list of logs is split into two parts (each log in
    exactly one of them), then for the hours and the earnings of the range
    statistics of the calendar, with any selection, for the total
    earnings of the dashboard and for its total hours: the figure of the
    whole differs from the sum of the figures of the parts by at most
    [2 * ((1 + 2^-53)^n - 1)] times the sum of the magnitudes of the
    numbers added, [n] being the number of logs; and the two are equal
    when the numbers added lie on a grid of step [2^-k] and their
    magnitudes sum to less than [2^(53-k)] (hours in quarters at whole
    rates, say).  Overflow is outside the model. *)
Theorem C8_aggregate_additive (tz : Z) (jobs : list Job.t)
  (sel : CalendarView.Selection) (l a b : list WorkLog.t) :
  Permutation l (a ++ b) ->
  let hours := List.map WorkLog.duration l in
  let earnings := List.map (CalendarView64.getLogValue tz jobs) l in
  let within := fun (vs : list Q) (whole part1 part2 : Q) =>
    Qabs (whole - (part1 + part2))
    <= 2 * Double.drift (List.length l) * Double.magnitude vs /\
    (forall k, Double.onGrid k vs -> whole == part1 + part2) in
  match CalendarView64.selectedStats tz jobs sel l,
        CalendarView64.selectedStats tz jobs sel a,
        CalendarView64.selectedStats tz jobs sel b with
  | Some sl, Some sa, Some sb =>
      within hours (CalendarView.totalHours sl)
        (CalendarView.totalHours sa) (CalendarView.totalHours sb) /\
      within earnings (CalendarView.totalEarnings sl)
        (CalendarView.totalEarnings sa) (CalendarView.totalEarnings sb)
  | None, None, None => True
  | _, _, _ => False
  end /\
  within earnings (Dashboard64.calculateTotalEarnings tz jobs l)
    (Dashboard64.calculateTotalEarnings tz jobs a)
    (Dashboard64.calculateTotalEarnings tz jobs b) /\
  within hours (Dashboard64.totalHours l)
    (Dashboard64.totalHours a) (Dashboard64.totalHours b).
Proof.
  intros P hours earnings within.
  assert (W : forall (f : WorkLog.t -> Q) (p : WorkLog.t -> bool),
             within (List.map f l)
               (Double.sum (List.map f (filter p l)))
               (Double.sum (List.map f (filter p a)))
               (Double.sum (List.map f (filter p b)))).
  { intros f p.
    assert (P' : Permutation (List.map f (filter p l))
                   (List.map f (filter p a) ++ List.map f (filter p b))).
    { rewrite <- map_app; apply Permutation_map, filter_partition, P. }
    destruct (sum_parts _ _ _ P') as [B X]; split.
    - eapply Qle_trans; [exact B|].
      rewrite length_map.
      pose proof (drift_le _ _ (filter_length_le p l)) as D.
      pose proof (drift_nonneg (length (filter p l))) as D0.
      pose proof (magnitude_filter f p l) as M.
      pose proof (magnitude_nonneg (List.map f (filter p l))) as M0.
      set (d := Double.drift (length (filter p l))) in *.
      set (d' := Double.drift (length l)) in *.
      set (m := Double.magnitude (List.map f (filter p l))) in *.
      set (m' := Double.magnitude (List.map f l)) in *.
      clearbody d d' m m'; nra.
    - intros k G; apply (X k), onGrid_filter, G. }
  assert (W1 : forall f : WorkLog.t -> Q,
             within (List.map f l) (Double.sum (List.map f l))
               (Double.sum (List.map f a)) (Double.sum (List.map f b))).
  { intros f; specialize (W f (fun _ => true)).
    assert (T : forall x : list WorkLog.t, filter (fun _ => true) x = x)
      by (induction x as [|y x IH]; simpl; congruence).
    rewrite !T in W; exact W. }
  split; [|split].
  - unfold CalendarView64.selectedStats.
    destruct (negb (JS.truthy_str (CalendarView.selectStart sel))); [exact I|].
    destruct (CalendarView.selectStart sel) as [rangeStart|]; [|exact I].
    cbv zeta.
    set (p := fun l0 : WorkLog.t =>
                JS.str_ge (WorkLog.date l0) rangeStart
                && JS.str_le (WorkLog.date l0)
                     (JS.or_str (CalendarView.selectEnd sel) rangeStart)).
    destruct (accumulate64_sums tz jobs (filter p l)) as [-> ->].
    destruct (accumulate64_sums tz jobs (filter p a)) as [-> ->].
    destruct (accumulate64_sums tz jobs (filter p b)) as [-> ->].
    split; apply W.
  - unfold Dashboard64.calculateTotalEarnings.
    rewrite !(sum_map (Dashboard64.getLogEarnings tz jobs)).
    exact (W1 (CalendarView64.getLogValue tz jobs)).
  - unfold Dashboard64.totalHours.
    rewrite !(sum_map WorkLog.duration).
    exact (W1 WorkLog.duration).
Qed.

(** The scenario of the specification: five hours on a Saturday and five on
    a Tuesday at 60 and 70 an hour, in the zone of Hong Kong; the earnings
    are whole numbers, a grid of step 1. *)
Lemma C8_aggregate_additive_witness :
  let jobA := Job.mk "a" "Job A" "#4F46E5" 60 70 1000 70 80 in
  let sat := WorkLog.mk "l1" (Some "a"%string) "2024-03-09" "09:00" "14:00" 5 "" 0 in
  let tue := WorkLog.mk "l2" (Some "a"%string) "2024-03-12" "09:00" "14:00" 5 "" 0 in
  Dashboard64.calculateTotalEarnings 480 [jobA] [sat; tue] == 650 /\
  Dashboard64.calculateTotalEarnings 480 [jobA] [sat; tue]
  == Dashboard64.calculateTotalEarnings 480 [jobA] [tue]
     + Dashboard64.calculateTotalEarnings 480 [jobA] [sat].
Proof.
  cbv zeta; split; [vm_compute; reflexivity|].
  refine (proj2 (proj1 (proj2 (C8_aggregate_additive 480 _
            (CalendarView.mkSelection (Some "2024-03-01"%string) None)
            _ [_] [_] _))) 0%Z _).
  - apply perm_swap.
  - split.
    + repeat constructor; [exists 350%Z|exists 300%Z]; vm_compute; reflexivity.
    + vm_compute; reflexivity.
Defined.

(** C8 as stated fails: logs of 0.1, 0.2 and 0.3 hours add up to
    0.6000000000000001, while the first alone and the other two give 0.1
    and 0.5, whose sum is a different number, also after rounding (0.6). *)
Lemma C8_rounding_counterexample :
  let jobA := Job.mk "a" "Job A" "#4F46E5" 60 70 1000 70 80 in
  let log := fun (id date : string) (tenths : Z) =>
    WorkLog.mk id (Some "a"%string) date "-" "-"
      (Double.round (inject_Z tenths / 10)) "" 0 in
  let l1 := log "l1"%string "2024-03-11"%string 1%Z in
  let l2 := log "l2"%string "2024-03-12"%string 2%Z in
  let l3 := log "l3"%string "2024-03-13"%string 3%Z in
  let march :=
    CalendarView.mkSelection (Some "2024-03-01"%string) (Some "2024-03-31"%string) in
  Permutation [l1; l2; l3] ([l1] ++ [l2; l3]) /\
  Dashboard64.totalHours [l1; l2; l3] == 1351079888211149 # 2251799813685248 /\
  Dashboard64.totalHours [l1] + Dashboard64.totalHours [l2; l3]
  == 21617278211378381 # 36028797018963968 /\
  ~ Dashboard64.totalHours [l1; l2; l3]
    == Dashboard64.totalHours [l1] + Dashboard64.totalHours [l2; l3] /\
  ~ Dashboard64.totalHours [l1; l2; l3]
    == Double.add (Dashboard64.totalHours [l1]) (Dashboard64.totalHours [l2; l3]) /\
  match CalendarView64.selectedStats 480 [jobA] march [l1; l2; l3],
        CalendarView64.selectedStats 480 [jobA] march [l1],
        CalendarView64.selectedStats 480 [jobA] march [l2; l3] with
  | Some sl, Some sa, Some sb =>
      ~ CalendarView.totalHours sl
        == CalendarView.totalHours sa + CalendarView.totalHours sb
  | _, _, _ => False
  end.
Proof.
  cbv zeta; split; [apply Permutation_refl|].
  split; [vm_compute; reflexivity|].
  split; [vm_compute; reflexivity|].
  split; [vm_compute; discriminate|].
  split; [vm_compute; discriminate|].
  vm_compute; discriminate.
Qed.

End AggregateOfParts.

(** ** Payslip reconciliation (C3, C9) *)





Section Tolerance.

Local Open Scope Q_scope.

Lemma tenth_pos : 0 < PayslipVerifier64.tenth.
Proof. vm_compute; reflexivity. Qed.

Lemma isOk64_tolerance (diff : Q) :
  PayslipVerifier64.isOk diff = true <-> Qabs diff <= PayslipVerifier64.tenth.
Proof.
  unfold PayslipVerifier64.isOk, PayslipVerifier64.isOver, PayslipVerifier64.isUnder.
  rewrite andb_true_iff, !negb_true_iff, !Qltb_ge, Qabs_Qle_condition.
  tauto.
Qed.

Lemma DiffRow64_buttons (diff : Q) :
  (PayslipVerifier64.isOk diff = true -> PayslipVerifier64.DiffRow diff = []) /\
  (PayslipVerifier64.isOk diff = false ->
   (PayslipVerifier64.tenth < diff
    /\ PayslipVerifier64.DiffRow diff = [PayslipVerifier.Backfill]) \/
   (diff < - PayslipVerifier64.tenth
    /\ PayslipVerifier64.DiffRow diff = [PayslipVerifier.Correction])).
Proof.
  pose proof tenth_pos as T.
  unfold PayslipVerifier64.isOk, PayslipVerifier64.DiffRow,
    PayslipVerifier64.isUnder, PayslipVerifier64.isOver.
  set (t := PayslipVerifier64.tenth) in *; clearbody t.
  destruct (JS.Qltb t diff) eqn:U;
    destruct (JS.Qltb diff (- t)) eqn:O; simpl; split;
    try discriminate; try reflexivity; intros _.
  - apply Qltb_lt in U; apply Qltb_lt in O; lra.
  - left; split; [apply Qltb_lt; exact U|reflexivity].
  - right; split; [apply Qltb_lt; exact O|reflexivity].
Qed.

(** The duration written back differs from the difference by the rounding
    to hundredths and by one rounding to a double. *)
Lemma toFixed2_64_close (x : Q) :
  Qabs (Double.toFixed2 x - x) <= (1 # 200) + Double.u * (Qabs x + (1 # 200)).
Proof.
  unfold Double.toFixed2.
  pose proof (toFixed2_close x) as C.
  pose proof (round_error (JS.toFixed2 x)) as R.
  pose proof u_pos as U.
  set (h := JS.toFixed2 x) in *; set (r := Double.round h) in *.
  assert (H : Qabs h <= Qabs x + (1 # 200)).
  { revert C; apply Qabs_case; apply Qabs_case; apply Qabs_case; intros; lra. }
  assert (B : Qabs (r - h) <= Double.u * (Qabs x + (1 # 200))).
  { eapply Qle_trans; [exact R|]; apply Qmult_le_l; assumption. }
  set (w := Double.u * (Qabs x + (1 # 200))) in *.
  clearbody h r w.
  apply Qabs_Qle_condition in C, B; apply Qabs_Qle_condition; split; lra.
Qed.

(** C9, as the code has it, in the arithmetic of doubles.  Each hour
    difference is the hours entered from the payslip less the hours the
    application computed, rounded to a double; a difference of magnitude
    at most 0.1 (the double of that literal) is shown as reconciled, with
    no button (the double 0.1 is within, the double 0.11 is not); beyond
    that exactly one button is shown, and a click on it adds exactly one
    log, in front of the others, for the selected job and dated at the end
    date, whose duration is the signed difference written with two
    decimals and read back: the double nearest to the difference rounded
    to hundredths.  It is within 0.005 and one rounding of the difference,
    and equal to it when the difference is the double of a number of two
    decimals. *)
Theorem C9_hour_diffs (job : Job.t) (stats : PayslipVerifier.AppStats)
  (slip : PayslipVerifier.SlipInputs) (type : PayslipVerifier.HourType)
  (uuid : string) (now : Z) (selectedJobId endDate : string)
  (logs : list WorkLog.t) :
  let r := PayslipVerifier64.reconcile job stats slip in
  let diff := PayslipVerifier.diffOf r type in
  PayslipVerifier.diffWeekday r
  = Double.sub (JS.or_num (PayslipVerifier.slipWeekdayHours slip) 0)
      (PayslipVerifier.weekdayHours stats) /\
  PayslipVerifier.diffWeekend r
  = Double.sub (JS.or_num (PayslipVerifier.slipWeekendHours slip) 0)
      (PayslipVerifier.weekendHours stats) /\
  (PayslipVerifier64.isOk diff = true <-> Qabs diff <= Double.round (1 # 10)) /\
  (PayslipVerifier64.isOk diff = true -> PayslipVerifier64.DiffRow diff = []) /\
  PayslipVerifier64.isOk (Double.round (1 # 10)) = true /\
  PayslipVerifier64.isOk (Double.round (11 # 100)) = false /\
  (PayslipVerifier64.isOk diff = false ->
   (PayslipVerifier64.DiffRow diff = [PayslipVerifier.Backfill]
    \/ PayslipVerifier64.DiffRow diff = [PayslipVerifier.Correction]) /\
   exists newLog,
     PayslipVerifier64.clickButton uuid now selectedJobId endDate r type logs
     = newLog :: logs /\
     WorkLog.jobId newLog = Some selectedJobId /\
     WorkLog.date newLog = endDate /\
     WorkLog.duration newLog = Double.toFixed2 diff /\
     Qabs (WorkLog.duration newLog - diff)
     <= (1 # 200) + Double.u * (Qabs diff + (1 # 200)) /\
     (forall n : Z,
         (Z.abs n < 2 ^ 50)%Z -> diff == Double.round (inject_Z n / 100) ->
         WorkLog.duration newLog == diff)).
Proof.
  cbv zeta.
  set (r := PayslipVerifier64.reconcile job stats slip).
  set (diff := PayslipVerifier.diffOf r type).
  split; [reflexivity|]; split; [reflexivity|].
  split; [apply isOk64_tolerance|].
  split; [apply DiffRow64_buttons|].
  split; [vm_compute; reflexivity|]; split; [vm_compute; reflexivity|].
  intros Hout; split.
  - destruct (proj2 (DiffRow64_buttons diff) Hout) as [[_ H]|[_ H]];
      [left|right]; exact H.
  - assert (Hnz : Qle_bool (JS.Math_abs diff) 0 = false).
    { destruct (Qle_bool (JS.Math_abs diff) 0) eqn:E; [|reflexivity].
      apply Qle_bool_iff in E; pose proof tenth_pos as T.
      assert (Qabs diff <= PayslipVerifier64.tenth).
      { unfold JS.Math_abs in E.
        set (t := PayslipVerifier64.tenth) in *; clearbody t; lra. }
      apply isOk64_tolerance in H; congruence. }
    unfold PayslipVerifier64.clickButton, PayslipVerifier64.handleAutoFill.
    fold r; fold diff; rewrite Hnz.
    eexists; split; [reflexivity|]; simpl.
    split; [reflexivity|]; split; [reflexivity|]; split; [reflexivity|].
    split; [apply toFixed2_64_close|].
    intros n Hn E; unfold Double.toFixed2.
    rewrite (round_Qeq _ _ (toFixed2_Qeq _ _ E)), E.
    apply toFixed2_double_of_hundredths; exact Hn.
Qed.

(** The difference is itself rounded: 0.1 on the payslip against no hours
    is within the tolerance, and 40.1 against 40 hours, whose difference
    is 0.10000000000000142, is not. *)
Example DiffRow_at_the_tolerance :
  let stats := fun app : Q => PayslipVerifier.mkAppStats "" "" app 0 0 in
  let slip := fun text : Q =>
    PayslipVerifier.mkSlipInputs (Some (Double.round text)) (Some 0) (Some 0) (Some 0) in
  let jobA := Job.mk "a" "Job A" "#4F46E5" 60 70 1000 70 80 in
  let row := fun (text app : Q) =>
    PayslipVerifier64.DiffRow
      (PayslipVerifier.diffWeekday
         (PayslipVerifier64.reconcile jobA (stats app) (slip text))) in
  row (1 # 10) 0 = [] /\
  row (401 # 10) 40 = [PayslipVerifier.Backfill] /\
  row (11 # 100) 0 = [PayslipVerifier.Backfill].
Proof. vm_compute; repeat split. Qed.

(** C9 as stated fails on the duration: with no hours logged and 0.125
    weekday hours on the payslip the difference is 0.125, the row offers a
    backfill, and the log it adds has a duration of 0.13, which as a
    double is more than 0.005 away. *)
Lemma C9_duration_counterexample :
  let jobA := Job.mk "a" "Job A" "#4F46E5" 60 70 1000 70 80 in
  let stats := PayslipVerifier.mkAppStats "2024-03-01" "2024-03-14" 0 0 0 in
  let slip :=
    PayslipVerifier.mkSlipInputs (Some (Double.round (125 # 1000)))
      (Some 0) (Some 0) (Some 0) in
  let r := PayslipVerifier64.reconcile jobA stats slip in
  PayslipVerifier.diffWeekday r == 125 # 1000 /\
  PayslipVerifier64.DiffRow (PayslipVerifier.diffWeekday r) = [PayslipVerifier.Backfill] /\
  match PayslipVerifier64.clickButton "u" 0 "a" "2024-03-14" r PayslipVerifier.weekday [] with
  | [newLog] =>
      WorkLog.date newLog = "2024-03-14"%string /\
      WorkLog.duration newLog == Double.round (13 # 100) /\
      ~ WorkLog.duration newLog == PayslipVerifier.diffWeekday r /\
      ~ Qabs (WorkLog.duration newLog - PayslipVerifier.diffWeekday r) <= 1 # 200
  | _ => False
  end.
Proof.
  cbv zeta; split; [vm_compute; reflexivity|].
  split; [vm_compute; reflexivity|].
  vm_compute; split; [reflexivity|]; split; [reflexivity|]; split.
  - discriminate.
  - intros H; apply H; reflexivity.
Qed.

End Tolerance.

(** ** Migration (C4, C5) *)

Lemma mergeSettings_storeSettings (s : UserSettings.t) :
  App.mergeSettings (Some (App.storeSettings s)) = s.
Proof. destruct s; reflexivity. Qed.

(** A log with a non-empty [jobId] is rebuilt as it was. *)
Lemma assignJob_keeps (mainJobId : string) (log : WorkLog.t) :
  JS.truthy_str (WorkLog.jobId log) = true ->
  App.assignJob mainJobId log = log.
Proof.
  destruct log as [i [j|] d s e du n t]; simpl; [|discriminate].
  unfold App.assignJob; simpl.
  destruct (j =? "")%string; [discriminate|reflexivity].
Qed.

Lemma length_eqb_0 {A : Type} (l : list A) :
  (List.length l =? 0)%nat = true <-> l = [].
Proof. destruct l; simpl; split; congruence. Qed.

(** With a job in the collection the migration passes everything on. *)
Lemma migrate_with_jobs (uuid : string) (parsed : StoredState.t) :
  JS.or_list (StoredState.jobs parsed) <> [] ->
  App.migrate uuid parsed
  = Some (AppState.mk
            (JS.or_list (StoredState.logs parsed))
            (App.mergeSettings (StoredState.settings parsed))
            (JS.or_list (StoredState.jobs parsed))
            (JS.or_list (StoredState.templates parsed))).
Proof.
  intros H; unfold App.migrate.
  destruct (List.length (JS.or_list (StoredState.jobs parsed)) =? 0)%nat eqn:E;
    [|reflexivity].
  apply length_eqb_0 in E; contradiction.
Qed.

Lemma migrate_store (uuid : string) (st : AppState.t) :
  AppState.jobs st <> [] -> App.migrate uuid (App.store st) = Some st.
Proof.
  intros H; rewrite migrate_with_jobs by exact H.
  destruct st as [logs settings jobs templates].
  unfold App.store; cbn [StoredState.logs StoredState.settings StoredState.jobs
    StoredState.templates AppState.logs AppState.settings AppState.jobs
    AppState.templates JS.or_list].
  rewrite mergeSettings_storeSettings; reflexivity.
Qed.

(** A migration that succeeds leaves at least one job. *)
Lemma migrate_jobs_nonempty (uuid : string) (parsed : StoredState.t) (st : AppState.t) :
  App.migrate uuid parsed = Some st -> AppState.jobs st <> [].
Proof.
  unfold App.migrate.
  destruct (List.length (JS.or_list (StoredState.jobs parsed)) =? 0)%nat eqn:E.
  - destruct (StoredState.settings parsed); [|discriminate].
    intros [= <-]; discriminate.
  - intros [= <-]; simpl; intros H; apply length_eqb_0 in H; congruence.
Qed.

(** C4.  The migration is idempotent.  When the stored collection of jobs
    is not empty it hands the logs, the jobs and the templates on as they
    are (and the settings over the defaults), so a state the application
    saved comes back unchanged; for every stored state, migrating what a
    first migration left gives the result of the first, whatever
    identifiers the two runs draw; a log that has a non-empty [jobId] is
    the same log afterwards; and the migration yields a state except when
    there is neither a job nor a settings object to read. *)
Theorem C4_migrate_idempotent (u1 u2 : string) (parsed : StoredState.t) :
  (JS.or_list (StoredState.jobs parsed) <> [] ->
   App.migrate u1 parsed
   = Some (AppState.mk
             (JS.or_list (StoredState.logs parsed))
             (App.mergeSettings (StoredState.settings parsed))
             (JS.or_list (StoredState.jobs parsed))
             (JS.or_list (StoredState.templates parsed)))) /\
  (forall st, AppState.jobs st <> [] -> App.migrate u1 (App.store st) = Some st) /\
  App.migrateAgain u2 (App.migrate u1 parsed) = App.migrate u1 parsed /\
  (forall st,
     App.migrate u1 parsed = Some st ->
     Forall2 (fun old new => JS.truthy_str (WorkLog.jobId old) = true -> new = old)
       (JS.or_list (StoredState.logs parsed)) (AppState.logs st)) /\
  (App.migrate u1 parsed = None <->
   JS.or_list (StoredState.jobs parsed) = [] /\ StoredState.settings parsed = None).
Proof.
  split; [apply migrate_with_jobs|].
  split; [intros st; apply migrate_store|].
  split; [|split].
  - destruct (App.migrate u1 parsed) as [st|] eqn:E; [|reflexivity].
    simpl; apply migrate_store, (migrate_jobs_nonempty u1 parsed), E.
  - intros st; unfold App.migrate.
    destruct (List.length (JS.or_list (StoredState.jobs parsed)) =? 0)%nat.
    + destruct (StoredState.settings parsed); [|discriminate].
      intros [= <-]; simpl.
      induction (JS.or_list (StoredState.logs parsed)) as [|l ls IH]; simpl;
        constructor; [apply assignJob_keeps|exact IH].
    + intros [= <-]; simpl.
      induction (JS.or_list (StoredState.logs parsed)) as [|l ls IH];
        constructor; [reflexivity|exact IH].
  - unfold App.migrate.
    destruct (List.length (JS.or_list (StoredState.jobs parsed)) =? 0)%nat eqn:E.
    + apply length_eqb_0 in E.
      destruct (StoredState.settings parsed); split;
        try discriminate; try tauto.
      intros [_ H]; discriminate.
    + split; [discriminate|].
      intros [H _]; apply length_eqb_0 in H; congruence.
Qed.

(** A legacy blob: no jobs, one log without [jobId] and one with. *)
Example C4_legacy_blob :
  let old := StoredSettings.mk None None None None None None
               None (Some 80) None None None in
  let l1 := WorkLog.mk "l1" None "2024-03-09" "09:00" "14:00" 5 "" 0 in
  let l2 := WorkLog.mk "l2" (Some "x"%string) "2024-03-12" "09:00" "14:00" 5 "" 0 in
  let parsed := StoredState.mk (Some [l1; l2]) (Some old) None None in
  option_map (fun st => List.map WorkLog.jobId (AppState.logs st))
    (App.migrate "u1" parsed)
  = Some [Some "u1"%string; Some "x"%string] /\
  App.migrateAgain "u2" (App.migrate "u1" parsed) = App.migrate "u1" parsed.
Proof. split; reflexivity. Qed.

(** C5 as stated fails: with a legacy weekday rate of 80 and no legacy
    weekend rate, the weekend rate of the job made is 80, the legacy
    weekday rate, and not the default of 60; a legacy target of 0 hours,
    which is a field that is present, gives way to the default of 1000;
    and with no job and no settings object at all the migration raises
    and makes no job. *)
Lemma C5_fallback_counterexample :
  let old := StoredSettings.mk None None None None None None
               (Some 0) (Some 80) None None None in
  let parsed := StoredState.mk None (Some old) (Some []) None in
  let bare := StoredState.mk (Some []) None (Some []) None in
  StoredSettings.weekendHourlyRate old = None /\
  option_map (fun st => List.map Job.weekendHourlyRate (AppState.jobs st))
    (App.migrate "u1" parsed) = Some [80] /\
  ~ 80 == Job.weekendHourlyRate DEFAULT_JOB /\
  option_map (fun st => List.map Job.targetHours (AppState.jobs st))
    (App.migrate "u1" parsed) = Some [1000] /\
  JS.or_list (StoredState.jobs bare) = [] /\
  App.migrate "u1" bare = None /\
  AppState.jobs (App.load "u1" (App.Data bare)) = [].
Proof.
  cbv zeta; repeat split; discriminate.
Qed.

Lemma or_num_given (a : option Q) (b q : Q) : JS.given a q -> JS.or_num a b = q.
Proof.
  intros [-> H]; simpl; rewrite (Qeq_bool_false _ _ H); reflexivity.
Qed.

Lemma or_num_not_given (a : option Q) (b : Q) : JS.not_given a -> JS.or_num a b = b.
Proof.
  destruct a as [q|]; simpl; [|reflexivity].
  intros H; apply Qeq_bool_iff in H; rewrite H; reflexivity.
Qed.

(** C5, as the code has it.  When the stored collection of jobs is empty
    and a settings object is stored, the migration makes exactly one job,
    named "Main Job", with the fresh identifier and the default colour.
    A legacy field counts as given when it is present and not zero.  The
    weekday rate, the target and the next weekday rate are the legacy
    field when given and the default otherwise.  The weekend rate is the
    legacy weekend rate when given, else the legacy weekday rate when
    given, else the default; the next weekend rate likewise, over the
    legacy next rates.  When no settings object is stored either, the read
    of the first legacy field raises, the load effect catches the
    exception, and no job is made. *)
Theorem C5_main_job (uuid : string) (parsed : StoredState.t) :
  JS.or_list (StoredState.jobs parsed) = [] ->
  match StoredState.settings parsed with
  | None =>
      App.migrate uuid parsed = None /\
      AppState.jobs (App.load uuid (App.Data parsed)) = []
  | Some old =>
  exists st mj,
    App.migrate uuid parsed = Some st /\
    AppState.jobs st = [mj] /\
    Job.name mj = "Main Job"%string /\
    Job.id mj = uuid /\
    Job.color mj = Job.color DEFAULT_JOB /\
    (forall q, JS.given (StoredSettings.hourlyRate old) q -> Job.hourlyRate mj = q) /\
    (JS.not_given (StoredSettings.hourlyRate old) ->
     Job.hourlyRate mj = Job.hourlyRate DEFAULT_JOB) /\
    (forall q, JS.given (StoredSettings.targetHours old) q -> Job.targetHours mj = q) /\
    (JS.not_given (StoredSettings.targetHours old) ->
     Job.targetHours mj = Job.targetHours DEFAULT_JOB) /\
    (forall q, JS.given (StoredSettings.nextHourlyRate old) q ->
               Job.nextHourlyRate mj = q) /\
    (JS.not_given (StoredSettings.nextHourlyRate old) ->
     Job.nextHourlyRate mj = Job.nextHourlyRate DEFAULT_JOB) /\
    (forall q, JS.given (StoredSettings.weekendHourlyRate old) q ->
               Job.weekendHourlyRate mj = q) /\
    (JS.not_given (StoredSettings.weekendHourlyRate old) ->
     (forall q, JS.given (StoredSettings.hourlyRate old) q ->
                Job.weekendHourlyRate mj = q) /\
     (JS.not_given (StoredSettings.hourlyRate old) ->
      Job.weekendHourlyRate mj = Job.weekendHourlyRate DEFAULT_JOB)) /\
    (forall q, JS.given (StoredSettings.nextWeekendHourlyRate old) q ->
               Job.nextWeekendHourlyRate mj = q) /\
    (JS.not_given (StoredSettings.nextWeekendHourlyRate old) ->
     (forall q, JS.given (StoredSettings.nextHourlyRate old) q ->
                Job.nextWeekendHourlyRate mj = q) /\
     (JS.not_given (StoredSettings.nextHourlyRate old) ->
      Job.nextWeekendHourlyRate mj = Job.nextWeekendHourlyRate DEFAULT_JOB))
  end.
Proof.
  intros Hjobs.
  destruct (StoredState.settings parsed) as [old|] eqn:Hset.
  2: { assert (M : App.migrate uuid parsed = None)
         by (unfold App.migrate; rewrite Hjobs, Hset; reflexivity).
       split; [exact M|]; unfold App.load; rewrite M; reflexivity. }
  eexists; exists (App.mainJob uuid old).
  split.
  { unfold App.migrate; rewrite Hjobs, Hset; simpl; reflexivity. }
  simpl.
  repeat match goal with
         | |- _ /\ _ => split
         | |- forall _, _ => intro
         end;
    repeat match goal with
           | H : JS.given _ _ |- _ => rewrite (or_num_given _ _ _ H); clear H
           | H : JS.not_given _ |- _ => rewrite (or_num_not_given _ _ H); clear H
           end;
    reflexivity.
Qed.

Lemma C5_main_job_witness :
  let old := StoredSettings.mk None None None None None None
               (Some 0) (Some 80) None None None in
  let parsed := StoredState.mk None (Some old) (Some []) None in
  exists st mj,
    App.migrate "u1" parsed = Some st /\ AppState.jobs st = [mj] /\
    Job.name mj = "Main Job"%string.
Proof.
  cbv zeta.
  destruct (C5_main_job "u1"
              (StoredState.mk None
                 (Some (StoredSettings.mk None None None None None None
                          (Some 0) (Some 80) None None None))
                 (Some []) None)
              eq_refl)
    as (st & mj & H1 & H2 & H3 & _).
  exists st, mj; auto.
Defined.

(** ** Deleting jobs (C10) *)

(** Among jobs with distinct identifiers, removing an identifier removes
    at most one job. *)
Lemma filter_id_length (jobId : string) (jobs : list Job.t) :
  NoDup (List.map Job.id jobs) ->
  (List.length jobs
   <= S (List.length (List.filter (fun j => negb (Job.id j =? jobId)%string) jobs)))%nat.
Proof.
  induction jobs as [|j jobs IH]; simpl; intros ND; [lia|].
  inversion ND as [|x xs Hnotin ND' Heq]; subst.
  destruct (String.eqb_spec (Job.id j) jobId) as [E|E]; simpl.
  - assert (F : List.filter (fun j => negb (Job.id j =? jobId)%string) jobs = jobs).
    { clear IH ND ND'.
      induction jobs as [|k jobs IHk]; simpl; [reflexivity|].
      destruct (String.eqb_spec (Job.id k) jobId) as [E'|E']; simpl.
      - exfalso; apply Hnotin; left; congruence.
      - f_equal; apply IHk; intros Hin; apply Hnotin; right; exact Hin. }
    rewrite F; lia.
  - specialize (IH ND'); lia.
Qed.

Lemma filter_id_NoDup (jobId : string) (jobs : list Job.t) :
  NoDup (List.map Job.id jobs) ->
  NoDup (List.map Job.id (List.filter (fun j => negb (Job.id j =? jobId)%string) jobs)).
Proof.
  induction jobs as [|j jobs IH]; simpl; intros ND; [constructor|].
  inversion ND as [|x xs Hnotin ND' Heq]; subst.
  destruct (negb (Job.id j =? jobId)%string); simpl; [|apply IH; exact ND'].
  constructor; [|apply IH; exact ND'].
  intros Hin; apply Hnotin.
  apply in_map_iff in Hin; destruct Hin as (k & Hk & Hin).
  apply filter_In in Hin; destruct Hin as [Hin _].
  apply in_map_iff; exists k; split; assumption.
Qed.

(** One request keeps the identifiers distinct and the collection
    non-empty. *)
Lemma handleDeleteJob_keeps (confirmed : bool) (jobId : string)
  (st : list Job.t * list WorkLog.t) :
  NoDup (List.map Job.id (fst st)) -> fst st <> [] ->
  NoDup (List.map Job.id (fst (App.handleDeleteJob confirmed jobId st))) /\
  fst (App.handleDeleteJob confirmed jobId st) <> [].
Proof.
  destruct st as [jobs logs]; simpl; intros ND NE.
  destruct (List.length jobs <=? 1)%nat eqn:L; simpl; [split; assumption|].
  destruct confirmed; simpl; [|split; assumption].
  split; [apply filter_id_NoDup; exact ND|].
  apply Nat.leb_gt in L.
  pose proof (filter_id_length jobId jobs ND) as B.
  intros E; rewrite E in B; simpl in B; lia.
Qed.

(** C10.  In a state whose jobs have distinct identifiers (as the data
    model has them) and that has at least one job: when exactly one job is
    left, a request to delete a job changes neither the jobs nor the logs,
    whatever the identifier and the answer to the confirmation; and no
    sequence of delete requests empties the collection of jobs. *)
Theorem C10_delete_keeps_a_job (jobs : list Job.t) (logs : list WorkLog.t) :
  NoDup (List.map Job.id jobs) ->
  jobs <> [] ->
  (List.length jobs = 1%nat ->
   forall confirmed jobId,
     App.handleDeleteJob confirmed jobId (jobs, logs) = (jobs, logs)) /\
  (forall reqs, fst (App.deleteJobs reqs (jobs, logs)) <> []).
Proof.
  intros ND NE; split.
  - intros L confirmed jobId; unfold App.handleDeleteJob; rewrite L; reflexivity.
  - intros reqs; unfold App.deleteJobs.
    change jobs with (fst (jobs, logs)) in ND, NE.
    revert ND NE; generalize (jobs, logs); clear jobs logs.
    induction reqs as [|[c i] reqs IH]; intros st ND NE; simpl; [exact NE|].
    destruct (handleDeleteJob_keeps c i st ND NE) as [ND' NE'].
    apply IH; assumption.
Qed.

(** Two jobs and three requests: the first removes job "a" and its log,
    the other two find a single job and do nothing. *)
Lemma C10_delete_keeps_a_job_witness :
  let jobA := Job.mk "a" "Job A" "#4F46E5" 60 70 1000 70 80 in
  let jobB := Job.mk "b" "Job B" "#10B981" 50 50 500 55 55 in
  let la := WorkLog.mk "l1" (Some "a"%string) "2024-03-09" "09:00" "14:00" 5 "" 0 in
  let lb := WorkLog.mk "l2" (Some "b"%string) "2024-03-12" "09:00" "14:00" 5 "" 0 in
  App.deleteJobs [(true, "a"); (true, "b"); (true, "a")]%string
    ([jobA; jobB], [la; lb]) = ([jobB], [lb]) /\
  fst (App.deleteJobs [(true, "a"); (true, "b"); (true, "a")]%string
         ([jobA; jobB], [la; lb])) <> [].
Proof.
  cbv zeta; split; [reflexivity|].
  refine (proj2 (C10_delete_keeps_a_job _ _ _ _) _).
  - repeat constructor; simpl; intuition discriminate.
  - discriminate.
Defined.

(** C10 as stated fails in a state that has two jobs under one identifier,
    which nothing in the application excludes: an import takes the jobs of
    the file as they are.  There are two jobs, so the request is not
    refused, and the one confirmed delete removes both. *)
Lemma C10_duplicate_ids_counterexample :
  let jobA := Job.mk "a" "Job A" "#4F46E5" 60 70 1000 70 80 in
  let copy := Job.mk "a" "Job A (copy)" "#10B981" 50 50 500 55 55 in
  let la := WorkLog.mk "l1" (Some "a"%string) "2024-03-09" "09:00" "14:00" 5 "" 0 in
  let imported :=
    App.handleImport true "u" [la] (App.storeSettings DEFAULT_SETTINGS)
      (Some [jobA; copy]) None App.initialState in
  AppState.jobs imported = [jobA; copy] /\
  AppState.jobs imported <> [] /\
  App.deleteJobs [(true, "a"%string)] (AppState.jobs imported, AppState.logs imported)
  = ([], []).
Proof.
  cbv zeta; repeat split; discriminate.
Qed.

(* ================================================================== *)
(** * Part III: further properties of the code                         *)
(* ================================================================== *)

(** ** Date strings: reading back and order *)

Section DateStrings.

Local Open Scope Z_scope.

Local Ltac euclid := Z.to_euclidean_division_equations; lia.

(** A statement checked on every number below a bound holds below it. *)
Lemma below_bound (P : Z -> bool) (n : Z) :
  forallb P (List.map Z.of_nat (List.seq 0 (Z.to_nat n))) = true ->
  forall z, 0 <= z < n -> P z = true.
Proof.
  intros H z Hz; rewrite forallb_forall in H; apply H.
  apply in_map_iff; exists (Z.to_nat z); split; [lia|].
  apply in_seq; lia.
Qed.

Lemma padStart2_text2 (n : Z) :
  0 <= n <= 99 -> JSDate.padStart 2 (JSDate.decimal n) = DateText.text2 n.
Proof.
  intros H; apply String.eqb_eq.
  apply (below_bound
           (fun n => (JSDate.padStart 2 (JSDate.decimal n) =? DateText.text2 n)%string)
           100); [vm_compute; reflexivity|lia].
Qed.

Lemma padStart4_text4 (n : Z) :
  0 <= n <= 9999 -> JSDate.padStart 4 (JSDate.decimal n) = DateText.text4 n.
Proof.
  intros H; apply String.eqb_eq.
  apply (below_bound
           (fun n => (JSDate.padStart 4 (JSDate.decimal n) =? DateText.text4 n)%string)
           10000); [vm_compute; reflexivity|lia].
Qed.

Lemma digit_digitChar (d : Z) :
  0 <= d <= 9 -> JSDate.digit (DateText.digitChar d) = Some d.
Proof.
  intros H.
  assert (E : match JSDate.digit (DateText.digitChar d) with
              | Some d' => d' =? d
              | None => false
              end = true).
  { apply (below_bound
             (fun d => match JSDate.digit (DateText.digitChar d) with
                       | Some d' => d' =? d
                       | None => false
                       end) 10); [vm_compute; reflexivity|lia]. }
  destruct (JSDate.digit (DateText.digitChar d)); [|discriminate].
  apply Z.eqb_eq in E; congruence.
Qed.

(** The month and the day of a civil date are in their ranges. *)
Lemma civil_from_days_bounds (z : Z) :
  let '(_, m, d) := JSDate.civil_from_days z in 1 <= m <= 12 /\ 1 <= d <= 31.
Proof.
  unfold JSDate.civil_from_days.
  set (z' := z + 719468).
  set (era := z' / 146097).
  set (doe := z' - era * 146097).
  assert (Hdoe : 0 <= doe <= 146096) by (subst doe era; euclid).
  pose proof (year_of_era_bounds doe Hdoe) as Hy; cbv zeta in Hy.
  set (yoe := (doe - doe / 1460 + doe / 36524 - doe / 146096) / 365) in *.
  set (doy := doe - (365 * yoe + yoe / 4 - yoe / 100)) in *.
  destruct Hy as [Hyoe Hdoy].
  set (mp := (5 * doy + 2) / 153).
  assert (Hmp : 0 <= mp <= 11) by (subst mp; euclid).
  split.
  - destruct (mp <? 10) eqn:E; [apply Z.ltb_lt in E | apply Z.ltb_ge in E]; lia.
  - subst mp; clearbody doy; euclid.
Qed.

(** Between 0000-03-01 and 9999-12-31 the year has four digits. *)
Lemma civil_from_days_year (z : Z) :
  DateText.inRange z ->
  let '(y, _, _) := JSDate.civil_from_days z in 0 <= y <= 9999.
Proof.
  unfold DateText.inRange, DateText.firstDay, DateText.lastDay; intros Hz.
  unfold JSDate.civil_from_days.
  set (z' := z + 719468).
  set (era := z' / 146097).
  set (doe := z' - era * 146097).
  assert (Hdoe : 0 <= doe <= 146096) by (subst doe era; euclid).
  assert (Hera : 0 <= era <= 24) by (subst era z'; euclid).
  pose proof (year_of_era_bounds doe Hdoe) as Hy; cbv zeta in Hy.
  set (yoe := (doe - doe / 1460 + doe / 36524 - doe / 146096) / 365) in *.
  set (doy := doe - (365 * yoe + yoe / 4 - yoe / 100)) in *.
  destruct Hy as [Hyoe Hdoy].
  set (mp := (5 * doy + 2) / 153).
  assert (Hmp : 0 <= mp <= 11) by (subst mp; euclid).
  assert (Hlast : era = 24 -> yoe * 400 + mp * 30 < 399 * 400 + 10 * 30).
  { intros E; subst mp doy yoe doe z'; rewrite E in *; clear E; euclid. }
  destruct (mp <? 10) eqn:E; [apply Z.ltb_lt in E | apply Z.ltb_ge in E].
  - replace (mp + 3 <=? 2) with false by (symmetry; apply Z.leb_gt; lia); lia.
  - replace (mp - 9 <=? 2) with true by (symmetry; apply Z.leb_le; lia).
    destruct (Z.eq_dec era 24) as [E24|]; [specialize (Hlast E24)|]; lia.
Qed.

Lemma isoDateOfDay_text (z : Z) :
  DateText.inRange z ->
  JSDate.isoDateOfDay z
  = let '(y, m, d) := JSDate.civil_from_days z in DateText.text y m d.
Proof.
  intros Hz; unfold JSDate.isoDateOfDay.
  pose proof (civil_from_days_year z Hz) as Hy.
  pose proof (civil_from_days_bounds z) as Hmd.
  destruct (JSDate.civil_from_days z) as [[y m] d].
  destruct Hmd as [Hm Hd].
  replace ((0 <=? y) && (y <=? 9999)) with true
    by (symmetry; apply andb_true_iff; split; apply Z.leb_le; lia).
  rewrite padStart4_text4, !padStart2_text2 by lia.
  reflexivity.
Qed.

Lemma num2_text (n : Z) :
  0 <= n <= 99 ->
  JSDate.num2 (DateText.digitChar (n / 10)) (DateText.digitChar (n mod 10)) = Some n.
Proof.
  intros H; unfold JSDate.num2.
  rewrite !digit_digitChar by euclid.
  f_equal; euclid.
Qed.

Lemma parseISODate_text (y m d : Z) :
  0 <= y <= 9999 -> 1 <= m <= 12 -> 1 <= d <= 31 ->
  JSDate.parseISODate (DateText.text y m d) = Some (y, m, d).
Proof.
  intros Hy Hm Hd.
  unfold DateText.text, DateText.text4, DateText.text2.
  cbn [String.append JSDate.parseISODate].
  rewrite !num2_text by lia.
  unfold JSDate.num4, JSDate.num2.
  rewrite !digit_digitChar by euclid.
  replace (100 * (10 * (y / 1000) + y / 100 mod 10) + (10 * (y / 10 mod 10) + y mod 10))
    with y by euclid.
  replace ((1 <=? m) && (m <=? 12) && (1 <=? d) && (d <=? 31)) with true;
    [reflexivity|].
  symmetry; rewrite !andb_true_iff, !Z.leb_le; lia.
Qed.

(** Reading back a date written by [toISOString] gives midnight UTC of the
    same day. *)
Lemma newDate_isoDateOfDay (z : Z) :
  DateText.inRange z ->
  JSDate.newDate (JSDate.isoDateOfDay z) = Some (z * JSDate.msPerDay).
Proof.
  intros Hz; unfold JSDate.newDate.
  rewrite (isoDateOfDay_text z Hz).
  pose proof (civil_from_days_year z Hz) as Hy.
  pose proof (civil_from_days_bounds z) as Hmd.
  pose proof (days_from_civil_from_days z) as R.
  destruct (JSDate.civil_from_days z) as [[y m] d].
  destruct Hmd as [Hm Hd].
  rewrite (parseISODate_text y m d Hy Hm Hd), MakeDay_days_from_civil, R.
  unfold JSDate.MakeDate; f_equal; lia.
Qed.

(** Characters of digits compare as the digits. *)
Lemma compare_digitChar (a b : Z) :
  0 <= a <= 9 -> 0 <= b <= 9 ->
  Ascii.compare (DateText.digitChar a) (DateText.digitChar b) = (a ?= b).
Proof.
  intros Ha Hb.
  assert (A : a = 0 \/ a = 1 \/ a = 2 \/ a = 3 \/ a = 4 \/ a = 5 \/ a = 6
              \/ a = 7 \/ a = 8 \/ a = 9) by lia.
  assert (B : b = 0 \/ b = 1 \/ b = 2 \/ b = 3 \/ b = 4 \/ b = 5 \/ b = 6
              \/ b = 7 \/ b = 8 \/ b = 9) by lia.
  repeat (destruct A as [->|A]); try subst a;
    repeat (destruct B as [->|B]); try subst b; reflexivity.
Qed.

(** Two dates written as text compare as their keys. *)
Lemma compare_text (y1 m1 d1 y2 m2 d2 : Z) :
  0 <= y1 <= 9999 -> 0 <= m1 <= 99 -> 0 <= d1 <= 99 ->
  0 <= y2 <= 9999 -> 0 <= m2 <= 99 -> 0 <= d2 <= 99 ->
  String.compare (DateText.text y1 m1 d1) (DateText.text y2 m2 d2)
  = (DateText.key (y1, m1, d1) ?= DateText.key (y2, m2, d2)).
Proof.
  intros Hy1 Hm1 Hd1 Hy2 Hm2 Hd2.
  unfold DateText.text, DateText.text4, DateText.text2, DateText.key.
  cbn [String.append String.compare].
  rewrite !compare_digitChar by euclid.
  change (Ascii.compare "-" "-") with Eq; cbv iota.
  set (a1 := y1 / 1000); set (b1 := y1 / 100 mod 10); set (c1 := y1 / 10 mod 10);
    set (e1 := y1 mod 10); set (f1 := m1 / 10); set (g1 := m1 mod 10);
    set (h1 := d1 / 10); set (i1 := d1 mod 10).
  set (a2 := y2 / 1000); set (b2 := y2 / 100 mod 10); set (c2 := y2 / 10 mod 10);
    set (e2 := y2 mod 10); set (f2 := m2 / 10); set (g2 := m2 mod 10);
    set (h2 := d2 / 10); set (i2 := d2 mod 10).
  assert (Y1 : y1 = 1000 * a1 + 100 * b1 + 10 * c1 + e1
               /\ 0 <= b1 <= 9 /\ 0 <= c1 <= 9 /\ 0 <= e1 <= 9)
    by (subst a1 b1 c1 e1; euclid).
  assert (Y2 : y2 = 1000 * a2 + 100 * b2 + 10 * c2 + e2
               /\ 0 <= b2 <= 9 /\ 0 <= c2 <= 9 /\ 0 <= e2 <= 9)
    by (subst a2 b2 c2 e2; euclid).
  assert (M1 : m1 = 10 * f1 + g1 /\ 0 <= g1 <= 9) by (subst f1 g1; euclid).
  assert (M2 : m2 = 10 * f2 + g2 /\ 0 <= g2 <= 9) by (subst f2 g2; euclid).
  assert (D1 : d1 = 10 * h1 + i1 /\ 0 <= i1 <= 9) by (subst h1 i1; euclid).
  assert (D2 : d2 = 10 * h2 + i2 /\ 0 <= i2 <= 9) by (subst h2 i2; euclid).
  clearbody a1 b1 c1 e1 f1 g1 h1 i1 a2 b2 c2 e2 f2 g2 h2 i2.
  destruct Y1 as (-> & ? & ? & ?), Y2 as (-> & ? & ? & ?),
    M1 as (-> & ?), M2 as (-> & ?), D1 as (-> & ?), D2 as (-> & ?).
  repeat match goal with
         | |- context [match (?a ?= ?b) with _ => _ end] =>
             destruct (Z.compare_spec a b)
         end;
    symmetry;
    first [ apply Z.compare_eq_iff | apply Z.compare_lt_iff | apply Z.compare_gt_iff ];
    lia.
Qed.

(** A cycle of 400 years later the date has the same month and day. *)
Lemma civil_from_days_era (z k : Z) :
  JSDate.civil_from_days (z + 146097 * k)
  = let '(y, m, d) := JSDate.civil_from_days z in (y + 400 * k, m, d).
Proof.
  unfold JSDate.civil_from_days.
  replace (z + 146097 * k + 719468) with (z + 719468 + k * 146097) by lia.
  rewrite Z.div_add by lia.
  set (z' := z + 719468).
  set (era := z' / 146097).
  replace (z' + k * 146097 - (era + k) * 146097) with (z' - era * 146097) by lia.
  set (doe := z' - era * 146097).
  set (yoe := (doe - doe / 1460 + doe / 36524 - doe / 146096) / 365).
  set (doy := doe - (365 * yoe + yoe / 4 - yoe / 100)).
  set (mp := (5 * doy + 2) / 153).
  destruct ((if mp <? 10 then mp + 3 else mp - 9) <=? 2); f_equal; f_equal; lia.
Qed.

(** Years counted from March, with the month and the day: a later triple
    is a later civil date. *)
Lemma civil_key_lex (y1 mp1 d1 y2 mp2 d2 : Z) :
  0 <= mp1 <= 11 -> 1 <= d1 <= 31 -> 0 <= mp2 <= 11 -> 1 <= d2 <= 31 ->
  y1 < y2 \/ (y1 = y2 /\ mp1 < mp2) \/ (y1 = y2 /\ mp1 = mp2 /\ d1 < d2) ->
  DateText.key
    (if (if mp1 <? 10 then mp1 + 3 else mp1 - 9) <=? 2 then y1 + 1 else y1,
     if mp1 <? 10 then mp1 + 3 else mp1 - 9, d1)
  < DateText.key
      (if (if mp2 <? 10 then mp2 + 3 else mp2 - 9) <=? 2 then y2 + 1 else y2,
       if mp2 <? 10 then mp2 + 3 else mp2 - 9, d2).
Proof.
  intros M1 D1 M2 D2 L; unfold DateText.key.
  destruct (mp1 <? 10) eqn:E1; [apply Z.ltb_lt in E1 | apply Z.ltb_ge in E1];
    destruct (mp2 <? 10) eqn:E2; [apply Z.ltb_lt in E2 | apply Z.ltb_ge in E2
                                 | apply Z.ltb_lt in E2 | apply Z.ltb_ge in E2];
    repeat match goal with
           | |- context [?a <=? 2] =>
               destruct (Z.leb_spec a 2); try lia
           end.
Qed.

Lemma day_of_year_bounds (doy : Z) :
  0 <= doy <= 365 ->
  0 <= (5 * doy + 2) / 153 <= 11 /\
  1 <= doy - (153 * ((5 * doy + 2) / 153) + 2) / 5 + 1 <= 31.
Proof. intros H; euclid. Qed.

Lemma year_of_era_monotone (doe : Z) :
  0 <= doe < 146096 ->
  (doe - doe / 1460 + doe / 36524 - doe / 146096) / 365
  <= (doe + 1 - (doe + 1) / 1460 + (doe + 1) / 36524 - (doe + 1) / 146096) / 365.
Proof. intros H; euclid. Qed.

Lemma month_monotone (doy : Z) :
  0 <= doy < 365 -> (5 * doy + 2) / 153 <= (5 * (doy + 1) + 2) / 153.
Proof. intros H; euclid. Qed.

(** The key of the date grows from each day to the next. *)
Lemma key_next_day (z : Z) :
  DateText.key (JSDate.civil_from_days z)
  < DateText.key (JSDate.civil_from_days (z + 1)).
Proof.
  unfold JSDate.civil_from_days.
  replace (z + 1 + 719468) with (z + 719468 + 1) by lia.
  set (z' := z + 719468).
  set (era := z' / 146097).
  set (doe := z' - era * 146097).
  assert (Hdoe : 0 <= doe <= 146096) by (subst doe era; euclid).
  pose proof (year_of_era_bounds doe Hdoe) as Hy; cbv zeta in Hy.
  set (yoe := (doe - doe / 1460 + doe / 36524 - doe / 146096) / 365) in *.
  set (doy := doe - (365 * yoe + yoe / 4 - yoe / 100)) in *.
  destruct Hy as [Hyoe Hdoy].
  destruct (day_of_year_bounds doy Hdoy) as [Hmp Hd].
  destruct (Z.eq_dec doe 146096) as [Elast|Nlast].
  - assert (E : (z' + 1) / 146097 = era + 1) by (subst doe era; euclid).
    rewrite E.
    replace (z' + 1 - (era + 1) * 146097) with 0 by (subst doe; lia).
    apply civil_key_lex; try assumption.
    + vm_compute; split; discriminate.
    + vm_compute; split; discriminate.
    + left.
      replace ((0 - 0 / 1460 + 0 / 36524 - 0 / 146096) / 365) with 0 by reflexivity.
      lia.
  - assert (E : (z' + 1) / 146097 = era) by (subst doe era; euclid).
    rewrite E.
    replace (z' + 1 - era * 146097) with (doe + 1) by (subst doe; lia).
    assert (Hdoe' : 0 <= doe + 1 <= 146096) by lia.
    pose proof (year_of_era_bounds (doe + 1) Hdoe') as Hy'; cbv zeta in Hy'.
    pose proof (year_of_era_monotone doe ltac:(lia)) as Hmono.
    fold yoe in Hmono.
    set (yoe' := (doe + 1 - (doe + 1) / 1460 + (doe + 1) / 36524
                  - (doe + 1) / 146096) / 365) in *.
    set (doy' := doe + 1 - (365 * yoe' + yoe' / 4 - yoe' / 100)) in *.
    destruct Hy' as [Hyoe' Hdoy'].
    destruct (day_of_year_bounds doy' Hdoy') as [Hmp' Hd'].
    apply civil_key_lex; try assumption.
    destruct (Z.eq_dec yoe' yoe) as [Ey|Ny]; [|left; lia].
    right.
    assert (Edoy : doy' = doy + 1) by (subst doy' doy; rewrite Ey; lia).
    pose proof (month_monotone doy ltac:(lia)) as Hm.
    rewrite Edoy in *.
    destruct (Z.eq_dec ((5 * (doy + 1) + 2) / 153) ((5 * doy + 2) / 153)) as [Em|Nm].
    + right; rewrite Em; repeat split; lia.
    + left; split; lia.
Qed.

Lemma key_monotone (z1 z2 : Z) :
  z1 < z2 ->
  DateText.key (JSDate.civil_from_days z1) < DateText.key (JSDate.civil_from_days z2).
Proof.
  intros H; replace z2 with (z1 + 1 + (z2 - z1 - 1)) by lia.
  assert (N : 0 <= z2 - z1 - 1) by lia.
  generalize dependent (z2 - z1 - 1); intros n Hn.
  pattern n; apply natlike_ind; [| |exact Hn].
  - rewrite Z.add_0_r; apply key_next_day.
  - intros x Hx IH.
    pose proof (key_next_day (z1 + 1 + x)) as K.
    replace (z1 + 1 + Z.succ x) with (z1 + 1 + x + 1) by lia; lia.
Qed.

(** Dates written by [toISOString] compare as strings the way their days
    compare as numbers. *)
Lemma compare_isoDateOfDay (z1 z2 : Z) :
  DateText.inRange z1 -> DateText.inRange z2 ->
  String.compare (JSDate.isoDateOfDay z1) (JSDate.isoDateOfDay z2) = (z1 ?= z2).
Proof.
  intros H1 H2.
  rewrite (isoDateOfDay_text z1 H1), (isoDateOfDay_text z2 H2).
  pose proof (civil_from_days_year z1 H1) as Y1.
  pose proof (civil_from_days_year z2 H2) as Y2.
  pose proof (civil_from_days_bounds z1) as B1.
  pose proof (civil_from_days_bounds z2) as B2.
  pose proof (key_monotone z1 z2) as K12.
  pose proof (key_monotone z2 z1) as K21.
  destruct (JSDate.civil_from_days z1) as [[y1 m1] d1] eqn:E1.
  destruct (JSDate.civil_from_days z2) as [[y2 m2] d2] eqn:E2.
  rewrite compare_text by lia.
  destruct (Z.compare_spec z1 z2) as [E|L|G].
  - subst z2; rewrite E1 in E2; injection E2 as <- <- <-.
    apply Z.compare_refl.
  - apply Z.compare_lt_iff; auto.
  - apply Z.compare_gt_iff; auto.
Qed.

Lemma str_le_isoDateOfDay (z1 z2 : Z) :
  DateText.inRange z1 -> DateText.inRange z2 ->
  JS.str_le (JSDate.isoDateOfDay z1) (JSDate.isoDateOfDay z2) = (z1 <=? z2).
Proof.
  intros H1 H2; unfold JS.str_le, String.ltb.
  rewrite (compare_isoDateOfDay z2 z1 H2 H1), Z.leb_compare, (Z.compare_antisym z2 z1).
  destruct (z2 ?= z1); reflexivity.
Qed.

Lemma str_ge_isoDateOfDay (z1 z2 : Z) :
  DateText.inRange z1 -> DateText.inRange z2 ->
  JS.str_ge (JSDate.isoDateOfDay z1) (JSDate.isoDateOfDay z2) = (z2 <=? z1).
Proof.
  intros H1 H2; unfold JS.str_ge, String.ltb.
  rewrite (compare_isoDateOfDay z1 z2 H1 H2), Z.leb_compare, (Z.compare_antisym z1 z2).
  destruct (z1 ?= z2); reflexivity.
Qed.

Lemma eqb_isoDateOfDay (z1 z2 : Z) :
  DateText.inRange z1 -> DateText.inRange z2 ->
  (JSDate.isoDateOfDay z1 =? JSDate.isoDateOfDay z2)%string = (z1 =? z2).
Proof.
  intros H1 H2.
  destruct (Z.eqb_spec z1 z2) as [->|N]; [apply String.eqb_refl|].
  apply String.eqb_neq; intros E.
  pose proof (compare_isoDateOfDay z1 z2 H1 H2) as C.
  rewrite E in C.
  assert (R : forall s, String.compare s s = Eq).
  { induction s as [|c s IH]; simpl; [reflexivity|].
    unfold Ascii.compare; rewrite N.compare_refl; exact IH. }
  rewrite R in C; symmetry in C; apply Z.compare_eq_iff in C; contradiction.
Qed.

End DateStrings.


(** ** WorkLogger *)

Lemma toFixed2_nonneg (x : Q) :
  0 <= x -> JS.toFixed2 x = inject_Z (Qfloor (x * 100 + (1 # 2))) / 100.
Proof.
  intros H; unfold JS.toFixed2.
  replace (JS.Qltb x 0) with false; [reflexivity|].
  symmetry; apply Qltb_ge; exact H.
Qed.

Lemma inject_Z_le (a b : Z) : (a <= b)%Z -> inject_Z a <= inject_Z b.
Proof. intros H; rewrite <- Zle_Qle; exact H. Qed.

Lemma inject_Z_lt_inv (a b : Z) : inject_Z a < inject_Z b -> (a < b)%Z.
Proof. intros H; rewrite Zlt_Qlt; exact H. Qed.

Lemma parseTime_time (h m : Z) :
  (0 <= h <= 99)%Z -> (0 <= m <= 99)%Z ->
  WorkLogger.parseTime (DateText.time h m) = Some (h, m).
Proof.
  intros Hh Hm; unfold DateText.time, DateText.text2.
  cbn [String.append WorkLogger.parseTime].
  rewrite !num2_text by lia; reflexivity.
Qed.

(** X1.  For two times of day HH:MM, [calculateDuration] is the number of
    minutes from the start to the end, counted around midnight when the end
    is not after the start on the clock, in hours rounded to hundredths.
    It is 0 exactly when the two times are equal, and otherwise between
    0.02 and 23.98. *)
Theorem calculateDuration_wraps (sh sm eh em : Z) :
  (0 <= sh < 24)%Z -> (0 <= sm < 60)%Z -> (0 <= eh < 24)%Z -> (0 <= em < 60)%Z ->
  let minutes := (((eh * 60 + em) - (sh * 60 + sm)) mod 1440)%Z in
  exists r,
    WorkLogger.calculateDuration (DateText.time sh sm) (DateText.time eh em) = Some r /\
    r = JS.toFixed2 (inject_Z minutes / 60) /\
    Qabs (r - inject_Z minutes / 60) <= 1 # 200 /\
    (minutes = 0%Z -> r == 0) /\
    (minutes <> 0%Z -> 2 # 100 <= r) /\
    r <= 2398 # 100.
Proof.
  intros Hsh Hsm Heh Hem minutes.
  unfold WorkLogger.calculateDuration.
  rewrite !parseTime_time by lia.
  assert (E : (if (eh * 60 + em - (sh * 60 + sm) <? 0)%Z
               then (eh * 60 + em - (sh * 60 + sm) + 24 * 60)%Z
               else (eh * 60 + em - (sh * 60 + sm))%Z) = minutes).
  { subst minutes.
    destruct (Z.ltb_spec (eh * 60 + em - (sh * 60 + sm)) 0);
      Z.to_euclidean_division_equations; lia. }
  rewrite E.
  assert (Hmin : (0 <= minutes <= 1439)%Z)
    by (subst minutes; Z.to_euclidean_division_equations; lia).
  clearbody minutes.
  eexists; split; [reflexivity|]; split; [reflexivity|].
  split; [apply toFixed2_close|].
  assert (Hx : 0 <= inject_Z minutes / 60).
  { unfold Qdiv; change (/ 60) with (1 # 60).
    assert (0 <= inject_Z minutes) by (apply (inject_Z_le 0 minutes); lia).
    lra. }
  rewrite (toFixed2_nonneg _ Hx).
  pose proof (Qfloor_bounds (inject_Z minutes / 60 * 100 + (1 # 2))) as [F1 F2].
  set (k := Qfloor (inject_Z minutes / 60 * 100 + (1 # 2))) in *.
  assert (Hm1 : inject_Z minutes <= 1439) by (apply (inject_Z_le minutes 1439); lia).
  unfold Qdiv in *; change (/ 60) with (1 # 60) in *; change (/ 100) with (1 # 100).
  split; [|split].
  - intros ->.
    assert (K : k = 0%Z) by (subst k; reflexivity).
    rewrite K; reflexivity.
  - intros Hne.
    assert (1 <= inject_Z minutes) by (apply (inject_Z_le 1 minutes); lia).
    assert (L : inject_Z 2 < inject_Z (k + 1))
      by (rewrite inject_Z_plus; change (inject_Z 1) with 1;
          change (inject_Z 2) with 2; lra).
    apply inject_Z_lt_inv in L.
    assert (2 <= inject_Z k) by (apply (inject_Z_le 2 k); lia).
    lra.
  - assert (L : inject_Z k < inject_Z 2399)
      by (change (inject_Z 2399) with 2399; lra).
    apply inject_Z_lt_inv in L.
    assert (inject_Z k <= 2398) by (apply (inject_Z_le k 2398); lia).
    lra.
Qed.

(** A shift from 22:00 to 06:00 is eight hours. *)
Lemma calculateDuration_wraps_witness :
  exists r,
    WorkLogger.calculateDuration "22:00" "06:00" = Some r /\ r == 8.
Proof.
  destruct (calculateDuration_wraps 22 0 6 0
              ltac:(lia) ltac:(lia) ltac:(lia) ltac:(lia))
    as (r & Hr & Hv & _).
  exists r; split; [exact Hr|].
  rewrite Hv; reflexivity.
Defined.

(** X2.  What a submission of the entry form does.  A log it adds has a
    positive duration (and the job, the date and the notes of the form,
    the fresh identifier and the current time) or the duration NaN: the
    test [duration <= 0] is false for NaN, so in the range mode a form
    with an empty start or end time adds a log whose duration is NaN.
    In the range mode with two times of day HH:MM the submission is
    rejected exactly when the start and the end are the same time, and
    otherwise adds a log of positive duration; in the manual mode it is
    rejected exactly when the duration typed is missing, zero or negative,
    and never adds NaN. *)
Theorem handleSubmit_outcomes (uuid : string) (now : Z) (f : WorkLogger.Form) :
  (forall log,
      WorkLogger.handleSubmit uuid now f = WorkLogger.Added log ->
      0 < WorkLog.duration log /\
      WorkLog.id log = uuid /\
      WorkLog.jobId log = Some (WorkLogger.selectedJobId f) /\
      WorkLog.date log = WorkLogger.date f /\
      WorkLog.notes log = WorkLogger.notes f /\
      WorkLog.timestamp log = now) /\
  (WorkLogger.mode f = WorkLogger.range ->
   WorkLogger.startTime f = ""%string \/ WorkLogger.endTime f = ""%string ->
   WorkLogger.handleSubmit uuid now f = WorkLogger.AddedNaN) /\
  (forall sh sm eh em,
      (0 <= sh < 24)%Z -> (0 <= sm < 60)%Z -> (0 <= eh < 24)%Z -> (0 <= em < 60)%Z ->
      WorkLogger.mode f = WorkLogger.range ->
      WorkLogger.startTime f = DateText.time sh sm ->
      WorkLogger.endTime f = DateText.time eh em ->
      (WorkLogger.handleSubmit uuid now f = WorkLogger.Rejected
       <-> (sh = eh /\ sm = em)) /\
      WorkLogger.handleSubmit uuid now f <> WorkLogger.AddedNaN) /\
  (WorkLogger.mode f = WorkLogger.manual ->
   (WorkLogger.handleSubmit uuid now f = WorkLogger.Rejected
    <-> JS.or_num (WorkLogger.manualDuration f) 0 <= 0) /\
   WorkLogger.handleSubmit uuid now f <> WorkLogger.AddedNaN).
Proof.
  split; [|split; [|split]].
  - intros log; unfold WorkLogger.handleSubmit.
    destruct (WorkLogger.mode f);
      [destruct (WorkLogger.calculateDuration _ _) as [d|]; [|discriminate]|];
      cbv iota beta;
      match goal with
      | |- context [Qle_bool ?d 0] => destruct (Qle_bool d 0) eqn:E
      end;
      try discriminate;
      intros [= <-]; simpl;
      (split; [apply Qnot_le_lt; intros L; apply Qle_bool_iff in L; congruence|]);
      repeat split.
  - intros Hmode Hempty; unfold WorkLogger.handleSubmit; rewrite Hmode.
    assert (N : WorkLogger.calculateDuration (WorkLogger.startTime f)
                  (WorkLogger.endTime f) = None).
    { unfold WorkLogger.calculateDuration.
      destruct Hempty as [-> | ->]; simpl; [reflexivity|].
      destruct (WorkLogger.parseTime (WorkLogger.startTime f)) as [[h m]|]; reflexivity. }
    rewrite N; reflexivity.
  - intros sh sm eh em Hsh Hsm Heh Hem Hmode Hs He.
    unfold WorkLogger.handleSubmit; rewrite Hmode, Hs, He.
    destruct (calculateDuration_wraps sh sm eh em Hsh Hsm Heh Hem)
      as (r & -> & _ & _ & Hz & Hnz & _).
    cbv iota beta.
    destruct (Z.eq_dec ((eh * 60 + em - (sh * 60 + sm)) mod 1440) 0) as [E|N].
    + assert (R : Qle_bool r 0 = true) by (apply Qle_bool_iff; rewrite (Hz E); lra).
      rewrite R; split; [|discriminate].
      split; [intros _|reflexivity].
      Z.to_euclidean_division_equations; lia.
    + assert (R : Qle_bool r 0 = false).
      { destruct (Qle_bool r 0) eqn:B; [|reflexivity].
        apply Qle_bool_iff in B; specialize (Hnz N); lra. }
      rewrite R; split; [|discriminate].
      split; [discriminate|].
      intros [-> ->]; exfalso; apply N.
      replace (eh * 60 + em - (eh * 60 + em))%Z with 0%Z by lia; reflexivity.
  - intros Hmode; unfold WorkLogger.handleSubmit; rewrite Hmode; cbv iota beta.
    destruct (Qle_bool (JS.or_num (WorkLogger.manualDuration f) 0) 0) eqn:E.
    + split; [|discriminate].
      split; [intros _; apply Qle_bool_iff; exact E|reflexivity].
    + split; [|discriminate].
      split; [discriminate|].
      intros L; apply Qle_bool_iff in L; congruence.
Qed.

Lemma insertLog_perm (x : WorkLog.t) (l : list WorkLog.t) :
  Permutation (x :: l) (WorkLogger.insertLog x l).
Proof.
  induction l as [|y l IH]; simpl; [reflexivity|].
  destruct (0 <? WorkLog.timestamp y - WorkLog.timestamp x)%Z; [|reflexivity].
  rewrite perm_swap; constructor; exact IH.
Qed.

Lemma insertLog_sorted (x : WorkLog.t) (l : list WorkLog.t) :
  DateText.latestFirst l -> DateText.latestFirst (WorkLogger.insertLog x l).
Proof.
  unfold DateText.latestFirst.
  induction l as [|y l IH]; simpl; intros S.
  - constructor; constructor.
  - inversion S as [|y' l' Sl Hy]; subst.
    destruct (Z.ltb_spec 0 (WorkLog.timestamp y - WorkLog.timestamp x)).
    + constructor; [apply IH; exact Sl|].
      apply (Permutation_Forall (insertLog_perm x l)).
      constructor; [lia|exact Hy].
    + constructor; [exact S|].
      constructor; [lia|].
      eapply Forall_impl; [|exact Hy]; simpl; intros a Ha; lia.
Qed.

Lemma insertLog_stable (x : WorkLog.t) (l : list WorkLog.t) (t : Z) :
  filter (fun a => (WorkLog.timestamp a =? t)%Z) (WorkLogger.insertLog x l)
  = filter (fun a => (WorkLog.timestamp a =? t)%Z) (x :: l).
Proof.
  induction l as [|y l IH]; [reflexivity|].
  cbn [WorkLogger.insertLog].
  destruct (Z.ltb_spec 0 (WorkLog.timestamp y - WorkLog.timestamp x)); [|reflexivity].
  cbn [filter] in *.
  destruct (Z.eqb_spec (WorkLog.timestamp y) t) as [Ey|Ny];
    destruct (Z.eqb_spec (WorkLog.timestamp x) t) as [Ex|Nx];
    rewrite IH; try reflexivity; lia.
Qed.

(** X3.  The list of logs shown in the logger holds the same logs as the
    collection, the latest first; logs of the same timestamp keep the
    order they have in the collection. *)
Theorem sortedLogs_latest_first (logs : list WorkLog.t) :
  Permutation logs (WorkLogger.sortedLogs logs) /\
  DateText.latestFirst (WorkLogger.sortedLogs logs) /\
  (forall t,
      filter (fun a => (WorkLog.timestamp a =? t)%Z) (WorkLogger.sortedLogs logs)
      = filter (fun a => (WorkLog.timestamp a =? t)%Z) logs).
Proof.
  unfold WorkLogger.sortedLogs.
  induction logs as [|x logs (P & S & F)]; simpl.
  - repeat split; constructor.
  - split; [|split].
    + rewrite <- insertLog_perm; constructor; exact P.
    + apply insertLog_sorted; exact S.
    + intros t; rewrite insertLog_stable; simpl; rewrite F; reflexivity.
Qed.

(** ** The commands of the application on jobs and logs *)

Lemma find_map_replace (p : Job.t -> bool) (u : Job.t) (jobs : list Job.t) :
  (forall j, (Job.id j =? Job.id u)%string = true -> p j = p u) ->
  JS.find p (App.handleUpdateJob u jobs)
  = match JS.find p jobs with
    | Some j => if (Job.id j =? Job.id u)%string then Some u else Some j
    | None => None
    end.
Proof.
  intros H; unfold JS.find, App.handleUpdateJob.
  induction jobs as [|j jobs IH]; simpl; [reflexivity|].
  destruct (Job.id j =? Job.id u)%string eqn:E.
  - rewrite <- (H j E).
    destruct (p j); [rewrite E; reflexivity|exact IH].
  - destruct (p j); [rewrite E; reflexivity|exact IH].
Qed.

Lemma handleUpdateJob_ids (u : Job.t) (jobs : list Job.t) :
  List.map Job.id (App.handleUpdateJob u jobs) = List.map Job.id jobs.
Proof.
  unfold App.handleUpdateJob; rewrite map_map; apply map_ext_in.
  intros j _; destruct (String.eqb_spec (Job.id j) (Job.id u)); congruence.
Qed.

(** X4.  Updating a job replaces the jobs that have its identifier and
    nothing else: the identifiers of the collection stay as they are, in
    order; looking up the identifier afterwards gives the new job when the
    collection had a job of that identifier, and nothing when it had none
    (the update does not add); looking up any other identifier gives what
    it gave before. *)
Theorem handleUpdateJob_lookup (updatedJob : Job.t) (jobs : list Job.t) :
  List.map Job.id (App.handleUpdateJob updatedJob jobs) = List.map Job.id jobs /\
  JS.find (fun j => (Job.id j =? Job.id updatedJob)%string)
    (App.handleUpdateJob updatedJob jobs)
  = match JS.find (fun j => (Job.id j =? Job.id updatedJob)%string) jobs with
    | Some _ => Some updatedJob
    | None => None
    end /\
  (forall other,
      other <> Job.id updatedJob ->
      JS.find (fun j => (Job.id j =? other)%string)
        (App.handleUpdateJob updatedJob jobs)
      = JS.find (fun j => (Job.id j =? other)%string) jobs) /\
  ((forall j, In j jobs -> Job.id j <> Job.id updatedJob) ->
   App.handleUpdateJob updatedJob jobs = jobs).
Proof.
  split; [apply handleUpdateJob_ids|]; split; [|split].
  - rewrite find_map_replace.
    + destruct (JS.find _ jobs) as [j|] eqn:E; [|reflexivity].
      apply find_some in E; destruct E as [_ ->]; reflexivity.
    + intros j E; rewrite E, String.eqb_refl; reflexivity.
  - intros other Hne; rewrite find_map_replace.
    + destruct (JS.find _ jobs) as [j|] eqn:E; [|reflexivity].
      apply find_some in E; destruct E as [_ E].
      apply String.eqb_eq in E; subst other.
      apply String.eqb_neq in Hne; rewrite Hne; reflexivity.
    + intros j E; apply String.eqb_eq in E; rewrite E; reflexivity.
  - intros H; unfold App.handleUpdateJob.
    rewrite <- (map_id jobs) at 2; apply map_ext_in; intros j Hj.
    destruct (String.eqb_spec (Job.id j) (Job.id updatedJob)) as [E|_];
      [exfalso; exact (H j Hj E)|reflexivity].
Qed.

(** X5.  The commands on jobs keep the identifiers pairwise distinct:
    adding a job under an identifier no job has, updating a job, levelling
    a job up and deleting a job all lead from distinct identifiers to
    distinct identifiers. *)
Theorem job_ids_stay_distinct (jobs : list Job.t) :
  NoDup (List.map Job.id jobs) ->
  (forall uuid,
      ~ In uuid (List.map Job.id jobs) ->
      NoDup (List.map Job.id (Settings.handleAddNewJob uuid jobs))) /\
  (forall updatedJob,
      NoDup (List.map Job.id (App.handleUpdateJob updatedJob jobs))) /\
  (forall confirmed selectedJobId,
      NoDup (List.map Job.id (Dashboard.handleLevelUp confirmed jobs selectedJobId))) /\
  (forall confirmed jobId logs,
      NoDup (List.map Job.id (fst (App.handleDeleteJob confirmed jobId (jobs, logs))))).
Proof.
  intros ND; split; [|split; [|split]].
  - intros uuid Hfresh.
    unfold Settings.handleAddNewJob, App.handleAddJob.
    rewrite map_app; simpl.
    apply NoDup_app; [exact ND|repeat constructor; intros []|].
    intros x Hx [<-|[]]; exact (Hfresh Hx).
  - intros u; rewrite handleUpdateJob_ids; exact ND.
  - intros c sel; unfold Dashboard.handleLevelUp.
    destruct (Dashboard.activeJobForLevelUp jobs sel); [|exact ND].
    destruct c; [rewrite handleUpdateJob_ids|]; exact ND.
  - intros c jobId logs; unfold App.handleDeleteJob.
    destruct (List.length jobs <=? 1)%nat; [exact ND|].
    destruct c; [apply filter_id_NoDup|]; exact ND.
Qed.

Lemma job_ids_stay_distinct_witness :
  let jobA := Job.mk "a" "Job A" "#4F46E5" 60 70 1000 70 80 in
  NoDup (List.map Job.id (Settings.handleAddNewJob "b" [jobA])) /\
  List.map Job.name (Settings.handleAddNewJob "b" [jobA]) = ["Job A"; "Job 2"]%string.
Proof.
  cbv zeta; split; [|reflexivity].
  refine (proj1 (job_ids_stay_distinct [_] _) "b"%string _).
  - repeat constructor; simpl; tauto.
  - simpl; intros [H|[]]; discriminate.
Defined.

Lemma find_filter_other (jobId : string) (x : option string) (jobs : list Job.t) :
  JS.opt_str_eq x jobId = false ->
  JS.find (fun j => JS.opt_str_eq x (Job.id j))
    (filter (fun j => negb (Job.id j =? jobId)%string) jobs)
  = JS.find (fun j => JS.opt_str_eq x (Job.id j)) jobs.
Proof.
  intros H; unfold JS.find.
  induction jobs as [|j jobs IH]; simpl; [reflexivity|].
  destruct (String.eqb_spec (Job.id j) jobId) as [E|N]; simpl.
  - rewrite E, H; exact IH.
  - rewrite IH; reflexivity.
Qed.

(** X6.  Deleting a job cascades and harms nothing else.  After any delete
    request no value of a remaining log has changed, and if every log
    referred to a job of the collection before, every log does after.
    When the request is carried out (more than one job, confirmed), no
    job and no log with the identifier is left, and the other jobs and
    logs are all kept. *)
Theorem handleDeleteJob_cascade (tz : Z) (confirmed : bool) (jobId : string)
  (jobs : list Job.t) (logs : list WorkLog.t) :
  let jobs' := fst (App.handleDeleteJob confirmed jobId (jobs, logs)) in
  let logs' := snd (App.handleDeleteJob confirmed jobId (jobs, logs)) in
  (forall l, In l logs' -> In l logs /\
     CalendarView.getLogValue tz jobs' l = CalendarView.getLogValue tz jobs l) /\
  ((forall l, In l logs -> DateText.resolves jobs l) ->
   forall l, In l logs' -> DateText.resolves jobs' l) /\
  ((1 < List.length jobs)%nat -> confirmed = true ->
   (forall j, In j jobs' <-> In j jobs /\ Job.id j <> jobId) /\
   (forall l, In l logs' <-> In l logs /\ WorkLog.jobId l <> Some jobId)).
Proof.
  cbv zeta; unfold App.handleDeleteJob.
  destruct (List.length jobs <=? 1)%nat eqn:L;
    [|destruct confirmed]; cbn [fst snd].
  - split; [auto|]; split; [auto|].
    intros H; apply Nat.leb_le in L; lia.
  - assert (V : forall l,
               In l (filter (fun l => negb (JS.opt_str_eq (WorkLog.jobId l) jobId)) logs) ->
               In l logs /\
               JS.find (fun j => JS.opt_str_eq (WorkLog.jobId l) (Job.id j))
                 (filter (fun j => negb (Job.id j =? jobId)%string) jobs)
               = JS.find (fun j => JS.opt_str_eq (WorkLog.jobId l) (Job.id j)) jobs).
    { intros l Hl; apply filter_In in Hl; destruct Hl as [Hin Hne].
      split; [exact Hin|].
      apply find_filter_other; apply negb_true_iff; exact Hne. }
    split; [|split].
    + intros l Hl; destruct (V l Hl) as [Hin E]; split; [exact Hin|].
      unfold CalendarView.getLogValue; rewrite E; reflexivity.
    + intros R l Hl; destruct (V l Hl) as [Hin E].
      destruct (R l Hin) as [job Hjob]; exists job; rewrite E; exact Hjob.
    + intros _ _; split.
      * intros j; rewrite filter_In, negb_true_iff, String.eqb_neq; reflexivity.
      * intros l; rewrite filter_In, negb_true_iff.
        unfold JS.opt_str_eq; destruct (WorkLog.jobId l) as [x|].
        -- rewrite String.eqb_neq; split; intros [H1 H2]; split; congruence.
        -- split; intros [H1 H2]; split; congruence.
  - split; [auto|]; split; [auto|]; discriminate.
Qed.

(** X7.  Adding a log and then deleting it by its identifier gives back
    the collection, when no other log has that identifier; a delete the
    user declines changes nothing; and after a confirmed delete no log
    with the identifier is left, while every other log is. *)
Theorem handleDeleteLog_after_add (log : WorkLog.t) (prev : list WorkLog.t) :
  ((forall l, In l prev -> WorkLog.id l <> WorkLog.id log) ->
   App.handleDeleteLog true (WorkLog.id log) (App.handleAddLog log prev) = prev) /\
  (forall id, App.handleDeleteLog false id prev = prev) /\
  (forall id l,
      In l (App.handleDeleteLog true id prev) <-> In l prev /\ WorkLog.id l <> id).
Proof.
  split; [|split].
  - intros H; unfold App.handleDeleteLog, App.handleAddLog; simpl.
    rewrite String.eqb_refl; simpl.
    induction prev as [|l prev IH]; simpl; [reflexivity|].
    destruct (String.eqb_spec (WorkLog.id l) (WorkLog.id log)) as [E|_]; simpl.
    + exfalso; exact (H l (or_introl eq_refl) E).
    + f_equal; apply IH; intros l' Hl'; apply H; right; exact Hl'.
  - reflexivity.
  - intros id l; unfold App.handleDeleteLog.
    rewrite filter_In, negb_true_iff, String.eqb_neq; reflexivity.
Qed.


(** ** Dashboard: levelling up and the preview of the next level *)

Lemma find_by_id_sym (jid : string) (jobs : list Job.t) :
  JS.find (fun j => JS.opt_str_eq (Some jid) (Job.id j)) jobs
  = JS.find (fun j => (Job.id j =? jid)%string) jobs.
Proof.
  unfold JS.find; induction jobs as [|j jobs IH]; simpl; [reflexivity|].
  rewrite (String.eqb_sym jid (Job.id j)).
  destruct (Job.id j =? jid)%string; [reflexivity|exact IH].
Qed.

Lemma activeJob_after_levelUp (jobs : list Job.t) (jid : string) :
  Dashboard.activeJobForLevelUp
    (Dashboard.handleLevelUp true jobs (Some jid)) (Some jid)
  = option_map Dashboard.levelUp (Dashboard.activeJobForLevelUp jobs (Some jid)).
Proof.
  unfold Dashboard.handleLevelUp, Dashboard.activeJobForLevelUp.
  destruct (JS.find (fun j => (Job.id j =? jid)%string) jobs) as [job|] eqn:E.
  - pose proof E as E'; apply find_some in E'; destruct E' as [_ Hid].
    apply String.eqb_eq in Hid.
    pose proof (proj1 (proj2 (handleUpdateJob_lookup (Dashboard.levelUp job) jobs))) as L.
    change (Job.id (Dashboard.levelUp job)) with (Job.id job) in L.
    rewrite Hid in L; unfold JS.find in *; rewrite E in L; exact L.
  - rewrite E; reflexivity.
Qed.

(** X8.  Levelling up is offered once.  After a confirmed level-up the
    selected job has its next rates as its rates and keeps its identifier,
    name, colour, target and next rates; the other jobs are as they were;
    and whatever the hours logged, the level-up is no longer offered for
    that job.  A level-up the user declines changes nothing. *)
Theorem handleLevelUp_once (jobs : list Job.t) (jid : string)
  (filteredLogs : list WorkLog.t) :
  Dashboard.canLevelUp (Dashboard.handleLevelUp true jobs (Some jid)) (Some jid)
    filteredLogs = false /\
  (forall job,
      Dashboard.activeJobForLevelUp jobs (Some jid) = Some job ->
      exists job',
        Dashboard.activeJobForLevelUp
          (Dashboard.handleLevelUp true jobs (Some jid)) (Some jid) = Some job' /\
        Job.hourlyRate job' = Job.nextHourlyRate job /\
        Job.weekendHourlyRate job' = Job.nextWeekendHourlyRate job /\
        Job.nextHourlyRate job' = Job.nextHourlyRate job /\
        Job.nextWeekendHourlyRate job' = Job.nextWeekendHourlyRate job /\
        Job.targetHours job' = Job.targetHours job /\
        Job.id job' = Job.id job /\ Job.name job' = Job.name job /\
        Job.color job' = Job.color job) /\
  (forall other,
      other <> jid ->
      Dashboard.activeJobForLevelUp
        (Dashboard.handleLevelUp true jobs (Some jid)) (Some other)
      = Dashboard.activeJobForLevelUp jobs (Some other)) /\
  Dashboard.handleLevelUp false jobs (Some jid) = jobs.
Proof.
  split; [|split; [|split]].
  - unfold Dashboard.canLevelUp; rewrite activeJob_after_levelUp.
    destruct (Dashboard.activeJobForLevelUp jobs (Some jid)) as [job|]; simpl;
      [|reflexivity].
    replace (JS.Qltb (Job.nextHourlyRate job) (Job.nextHourlyRate job)) with false.
    + apply andb_false_r.
    + symmetry; apply Qltb_ge; apply Qle_refl.
  - intros job Hjob; rewrite activeJob_after_levelUp, Hjob; simpl.
    eexists; split; [reflexivity|]; repeat split.
  - intros other Hne.
    unfold Dashboard.handleLevelUp.
    destruct (Dashboard.activeJobForLevelUp jobs (Some jid)) as [job|] eqn:E;
      [|reflexivity].
    unfold Dashboard.activeJobForLevelUp in *.
    apply find_some in E; destruct E as [_ Hid]; apply String.eqb_eq in Hid.
    apply (proj1 (proj2 (proj2 (handleUpdateJob_lookup (Dashboard.levelUp job) jobs)))).
    simpl; congruence.
  - unfold Dashboard.handleLevelUp.
    destruct (Dashboard.activeJobForLevelUp jobs (Some jid)); reflexivity.
Qed.

Lemma fold_sum_ext {A : Type} (f g : A -> Q) (l : list A) (a : Q) :
  (forall x, In x l -> f x = g x) ->
  fold_left (fun s x => s + f x) l a = fold_left (fun s x => s + g x) l a.
Proof.
  revert a; induction l as [|x l IH]; intros a H; simpl; [reflexivity|].
  rewrite (H x (or_introl eq_refl)); apply IH.
  intros y Hy; apply H; right; exact Hy.
Qed.

(** X9.  The preview of the next level is what the level-up gives: for
    the logs of the selected job, the earnings computed after a confirmed
    level-up are the potential earnings shown before it. *)
Theorem potentialNextEarnings_is_levelUp (tz : Z) (jobs : list Job.t)
  (jid : string) (logs : list WorkLog.t) :
  Dashboard.calculateTotalEarnings tz
    (Dashboard.handleLevelUp true jobs (Some jid))
    (Dashboard.filteredLogs (Some jid) logs)
  = Dashboard.potentialNextEarnings tz jobs (Dashboard.filteredLogs (Some jid) logs).
Proof.
  unfold Dashboard.calculateTotalEarnings, Dashboard.potentialNextEarnings.
  apply fold_sum_ext; intros l Hl.
  unfold Dashboard.filteredLogs in Hl; apply filter_In in Hl; destruct Hl as [_ Hid].
  unfold JS.opt_str_eq in Hid.
  destruct (WorkLog.jobId l) as [x|] eqn:Ex; [|discriminate].
  apply String.eqb_eq in Hid; subst x.
  unfold Dashboard.getLogEarnings, Dashboard.getLogNextEarnings; rewrite Ex.
  rewrite !find_by_id_sym.
  pose proof (activeJob_after_levelUp jobs jid) as A.
  unfold Dashboard.activeJobForLevelUp in A; rewrite A.
  destruct (JS.find (fun j => (Job.id j =? jid)%string) jobs); reflexivity.
Qed.

Lemma fold_sum_le {A : Type} (f g : A -> Q) (l : list A) :
  (forall x, In x l -> f x <= g x) ->
  fold_left (fun s x => s + f x) l 0 <= fold_left (fun s x => s + g x) l 0.
Proof.
  induction l as [|x l IH]; intros H; simpl; [apply Qle_refl|].
  rewrite (fold_sum_acc f l (0 + f x)), (fold_sum_acc g l (0 + g x)).
  assert (f x <= g x) by (apply H; left; reflexivity).
  assert (fold_left (fun s x => s + f x) l 0 <= fold_left (fun s x => s + g x) l 0)
    by (apply IH; intros y Hy; apply H; right; exact Hy).
  lra.
Qed.

(** X10.  When no job has a next rate below its current rate and no log has
    a negative duration, the potential earnings at the next level are at
    least the earnings at the current one. *)
Theorem potentialNextEarnings_ge (tz : Z) (jobs : list Job.t)
  (filteredLogs : list WorkLog.t) :
  (forall j, In j jobs ->
     Job.hourlyRate j <= Job.nextHourlyRate j /\
     Job.weekendHourlyRate j <= Job.nextWeekendHourlyRate j) ->
  (forall l, In l filteredLogs -> 0 <= WorkLog.duration l) ->
  Dashboard.calculateTotalEarnings tz jobs filteredLogs
  <= Dashboard.potentialNextEarnings tz jobs filteredLogs.
Proof.
  intros Hj Hl; apply fold_sum_le; intros l Hin.
  unfold Dashboard.getLogEarnings, Dashboard.getLogNextEarnings.
  destruct (JS.find _ jobs) as [job|] eqn:E; [|apply Qle_refl].
  apply find_some in E; destruct E as [Hjob _].
  destruct (Hj job Hjob) as [H1 H2]; specialize (Hl l Hin).
  destruct (JSDate.isWeekend tz (WorkLog.date l)); cbv zeta;
    rewrite !(Qmult_comm (WorkLog.duration l));
    apply Qmult_le_compat_r; assumption.
Qed.

Lemma potentialNextEarnings_ge_witness :
  let jobA := Job.mk "a" "Job A" "#4F46E5" 60 70 1000 70 80 in
  let sat := WorkLog.mk "l1" (Some "a"%string) "2024-03-09" "09:00" "14:00" 5 "" 0 in
  Dashboard.calculateTotalEarnings 480 [jobA] [sat] == 350 /\
  Dashboard.potentialNextEarnings 480 [jobA] [sat] == 400 /\
  Dashboard.calculateTotalEarnings 480 [jobA] [sat]
  <= Dashboard.potentialNextEarnings 480 [jobA] [sat].
Proof.
  cbv zeta; split; [reflexivity|]; split; [reflexivity|].
  apply potentialNextEarnings_ge.
  - intros j [<-|[]]; simpl; split; discriminate.
  - intros l [<-|[]]; simpl; discriminate.
Defined.

Section Net.

Local Open Scope Q_scope.





(** The two formulas for the net pay are the same number in exact
    arithmetic and need not be in doubles: 1000 at 7 per cent. *)
Example net_formulas_differ :
  let settings :=
    UserSettings.mk "HKD" "" biweekly 7 light None None None None None None in
  Dashboard.calculateAfterTax settings 1000 == 1000 * (1 - 7 / 100) /\
  Dashboard64.calculateAfterTax settings 1000 == 930 /\
  Double.mul 1000 (Double.sub 1 (Double.div 7 100))
  == 8180366510653439 # 8796093022208 /\
  ~ Dashboard64.calculateAfterTax settings 1000
    == Double.mul 1000 (Double.sub 1 (Double.div 7 100)).
Proof.
  cbv zeta; split; [vm_compute; reflexivity|].
  split; [vm_compute; reflexivity|].
  split; [vm_compute; reflexivity|].
  vm_compute; discriminate.
Qed.

End Net.

(** ** Days of date strings *)

Lemma Day_of_midnight (z : Z) : JSDate.Day (z * JSDate.msPerDay) = z.
Proof. unfold JSDate.Day, JSDate.msPerDay; apply Z.div_mul; lia. Qed.

Lemma dayOf_isoDateOfDay (z : Z) :
  DateText.inRange z -> DateText.dayOf (JSDate.isoDateOfDay z) = Some z.
Proof.
  intros H; unfold DateText.dayOf.
  rewrite (newDate_isoDateOfDay z H), Day_of_midnight; reflexivity.
Qed.

(** A date between two dates as strings is a day between the two days. *)
Lemma range_isoDateOfDay (a b : Z) (s : string) :
  DateText.inRange a -> DateText.inRange b -> DateText.canonical s ->
  JS.str_ge s (JSDate.isoDateOfDay a) && JS.str_le s (JSDate.isoDateOfDay b)
  = DateText.inDays a b s.
Proof.
  intros Ha Hb (z & Hz & ->); unfold DateText.inDays.
  rewrite (dayOf_isoDateOfDay z Hz), str_ge_isoDateOfDay, str_le_isoDateOfDay
    by assumption.
  reflexivity.
Qed.

Lemma eqb_isoDateOfDay_inDays (a : Z) (s : string) :
  DateText.inRange a -> DateText.canonical s ->
  (s =? JSDate.isoDateOfDay a)%string = DateText.inDays a a s.
Proof.
  intros Ha (z & Hz & ->); unfold DateText.inDays.
  rewrite (dayOf_isoDateOfDay z Hz), eqb_isoDateOfDay by assumption.
  destruct (Z.eqb_spec z a) as [->|N].
  - rewrite Z.leb_refl; reflexivity.
  - symmetry; apply andb_false_iff.
    destruct (Z.leb_spec a z); [right; apply Z.leb_gt; lia|left; reflexivity].
Qed.

Lemma inRange_between (a b z : Z) :
  DateText.inRange a -> DateText.inRange b -> (a <= z <= b)%Z -> DateText.inRange z.
Proof. unfold DateText.inRange; lia. Qed.

(** ** Dashboard: the charts by day *)

Lemma dailyLoop_dates (tz : Z) (logs : list WorkLog.t) (start : Z) (n : nat) :
  List.map Dashboard.fullDate (Dashboard.dailyLoop (JSDate.fixedZone tz) logs start n)
  = List.map (fun i => JSDate.isoDateOfDay (JSDate.Day start + Z.of_nat i))
      (List.seq 0 n).
Proof.
  unfold Dashboard.dailyLoop; rewrite map_map; apply map_ext; intros i.
  apply dayBucket_date.
Qed.

Lemma dailyLoop_hours (zone : JSDate.Zone) (logs : list WorkLog.t) (start : Z) (n : nat)
  (b : Dashboard.Bucket) :
  In b (Dashboard.dailyLoop zone logs start n) ->
  Dashboard.hours b
  = Dashboard.totalHours
      (filter (fun l => (WorkLog.date l =? Dashboard.fullDate b)%string) logs).
Proof.
  unfold Dashboard.dailyLoop; intros Hb.
  apply in_map_iff in Hb; destruct Hb as (i & <- & _).
  apply dayBucket_hours.
Qed.

Lemma NoDup_iso_days (a : Z) (n : nat) :
  DateText.inRange a -> DateText.inRange (a + Z.of_nat n) ->
  NoDup (List.map (fun i => JSDate.isoDateOfDay (a + Z.of_nat i)) (List.seq 0 n)).
Proof.
  intros Ha Hb; apply NoDup_map_NoDup_ForallPairs; [|apply seq_NoDup].
  intros i j Hi Hj E; apply in_seq in Hi, Hj.
  assert (R : forall k, (0 <= k < n)%nat -> DateText.inRange (a + Z.of_nat k))
    by (intros k Hk; apply (inRange_between a (a + Z.of_nat n)); try assumption; lia).
  pose proof (eqb_isoDateOfDay _ _ (R i ltac:(lia)) (R j ltac:(lia))) as B.
  rewrite E, String.eqb_refl in B.
  symmetry in B; apply Z.eqb_eq in B; lia.
Qed.

(** Among entries of distinct dates a log is in the day of at most one. *)
Lemma one_entry_per_log (data : list Dashboard.Bucket) (l : WorkLog.t) :
  NoDup (List.map Dashboard.fullDate data) ->
  (List.length
     (filter (fun b => (WorkLog.date l =? Dashboard.fullDate b)%string) data) <= 1)%nat.
Proof.
  induction data as [|b data IH]; simpl; intros ND; [lia|].
  inversion ND as [|x xs Hnotin ND' E]; subst.
  specialize (IH ND').
  destruct (String.eqb_spec (WorkLog.date l) (Dashboard.fullDate b)) as [E|_];
    [|lia].
  simpl.
  replace (filter (fun b0 => (WorkLog.date l =? Dashboard.fullDate b0)%string) data)
    with (@nil Dashboard.Bucket); [simpl; lia|].
  symmetry; clear IH ND ND'.
  induction data as [|c data IHc]; simpl; [reflexivity|].
  destruct (String.eqb_spec (WorkLog.date l) (Dashboard.fullDate c)) as [E'|_].
  - exfalso; apply Hnotin; left; congruence.
  - apply IHc; intros Hin; apply Hnotin; right; exact Hin.
Qed.

(** X12.  The trend of the last seven days on a host whose zone has a
    fixed offset (no change of the clocks), while the seven days lie in
    the years of four digits: the data has seven entries, dated in order
    with the seven consecutive days that end on the UTC day of the current
    instant (the day the application takes as today); the hours of an
    entry are the hours of the logs of its date, in their order; and the
    seven dates are distinct, so no log is counted in two entries. *)
Theorem chartData_recent_fixed_offset (tz now : Z) (logs : list WorkLog.t) :
  DateText.inRange (Dashboard.today now - 6) ->
  DateText.inRange (Dashboard.today now + 1) ->
  let data := Dashboard.chartData_recent (JSDate.fixedZone tz) now logs in
  List.length data = 7%nat /\
  List.map Dashboard.fullDate data
  = List.map (fun i => JSDate.isoDateOfDay (Dashboard.today now - 6 + Z.of_nat i))
      (List.seq 0 7) /\
  (forall b, In b data ->
     Dashboard.hours b
     = Dashboard.totalHours
         (filter (fun l => (WorkLog.date l =? Dashboard.fullDate b)%string) logs)) /\
  NoDup (List.map Dashboard.fullDate data) /\
  (forall l, In l logs ->
     (List.length
        (filter (fun b => (WorkLog.date l =? Dashboard.fullDate b)%string) data)
      <= 1)%nat).
Proof.
  intros Ha Hb data.
  assert (D : List.map Dashboard.fullDate data
              = List.map
                  (fun i => JSDate.isoDateOfDay (Dashboard.today now - 6 + Z.of_nat i))
                  (List.seq 0 7)).
  { unfold data, Dashboard.chartData_recent, Dashboard.today; cbv zeta.
    rewrite dailyLoop_dates.
    change (JSDate.offsetAt (JSDate.fixedZone tz) now) with tz.
    replace (JSDate.getDate tz now - 6)%Z with (JSDate.getDate tz now + -6)%Z by lia.
    rewrite setDate_getDate_shift, Day_shift.
    apply map_ext; intros i; f_equal; lia. }
  assert (ND : NoDup (List.map Dashboard.fullDate data)).
  { rewrite D; apply NoDup_iso_days; [exact Ha|].
    replace (Dashboard.today now - 6 + Z.of_nat 7)%Z with (Dashboard.today now + 1)%Z
      by lia.
    exact Hb. }
  split; [|split; [exact D|split; [|split; [exact ND|]]]].
  - unfold data, Dashboard.chartData_recent, Dashboard.dailyLoop.
    rewrite length_map, length_seq; reflexivity.
  - intros b; unfold data, Dashboard.chartData_recent; cbv zeta.
    apply dailyLoop_hours.
  - intros l _; apply one_entry_per_log; exact ND.
Qed.

Lemma canonical_isoDateOfDay (z : Z) :
  DateText.inRange z -> DateText.canonical (JSDate.isoDateOfDay z).
Proof. intros H; exists z; split; [exact H|reflexivity]. Qed.

Lemma inRange_2024 (z : Z) : (19000 <= z <= 21000)%Z -> DateText.inRange z.
Proof. unfold DateText.inRange, DateText.firstDay, DateText.lastDay; lia. Qed.

(** 2024-03-10 07:00 in Hong Kong, which is 2024-03-09 23:00 UTC. *)
Lemma chartData_recent_fixed_offset_witness :
  List.map Dashboard.fullDate
    (Dashboard.chartData_recent (JSDate.fixedZone 480) 1710025200000 [])
  = ["2024-03-03"; "2024-03-04"; "2024-03-05"; "2024-03-06";
     "2024-03-07"; "2024-03-08"; "2024-03-09"]%string.
Proof.
  refine (eq_trans
            (proj1 (proj2 (chartData_recent_fixed_offset 480 1710025200000 [] _ _))) _).
  - apply inRange_2024; vm_compute; split; discriminate.
  - apply inRange_2024; vm_compute; split; discriminate.
  - vm_compute; reflexivity.
Defined.

(** X13.  The chart of a fortnight on a host whose zone has a fixed
    offset: for a reference date as the date input writes it, the data has
    fourteen entries, dated in order with the fourteen consecutive days
    that end on the reference date; the hours of an entry are the hours of
    the logs of its date, in their order; and the fourteen dates are
    distinct, so no log is counted in two entries. *)
Theorem chartData_biweek_buckets (tz z : Z) (logs : list WorkLog.t) :
  DateText.inRange (z - 13) -> DateText.inRange (z + 1) ->
  exists data,
    Dashboard.chartData_biweek (JSDate.fixedZone tz) (JSDate.isoDateOfDay z) logs
    = Some data /\
    List.length data = 14%nat /\
    List.map Dashboard.fullDate data
    = List.map (fun i => JSDate.isoDateOfDay (z - 13 + Z.of_nat i)) (List.seq 0 14) /\
    (forall b, In b data ->
       Dashboard.hours b
       = Dashboard.totalHours
           (filter (fun l => (WorkLog.date l =? Dashboard.fullDate b)%string) logs)) /\
    NoDup (List.map Dashboard.fullDate data) /\
    (forall l, In l logs ->
       (List.length
          (filter (fun b => (WorkLog.date l =? Dashboard.fullDate b)%string) data)
        <= 1)%nat).
Proof.
  intros Ha Hb.
  assert (Hz : DateText.inRange z)
    by (apply (inRange_between (z - 13) (z + 1)); try assumption; lia).
  unfold Dashboard.chartData_biweek.
  rewrite (newDate_isoDateOfDay z Hz); cbv zeta.
  set (start := (z * JSDate.msPerDay - 13 * 24 * 60 * 60 * 1000)%Z).
  assert (S : JSDate.Day start = (z - 13)%Z).
  { unfold start.
    replace (z * JSDate.msPerDay - 13 * 24 * 60 * 60 * 1000)%Z
      with (z * JSDate.msPerDay + -13 * JSDate.msPerDay)%Z
      by (unfold JSDate.msPerDay; lia).
    rewrite Day_shift, Day_of_midnight; lia. }
  assert (D : List.map Dashboard.fullDate
                (Dashboard.dailyLoop (JSDate.fixedZone tz) logs start 14)
              = List.map (fun i => JSDate.isoDateOfDay (z - 13 + Z.of_nat i))
                  (List.seq 0 14))
    by (rewrite dailyLoop_dates, S; reflexivity).
  assert (ND : NoDup (List.map Dashboard.fullDate
                        (Dashboard.dailyLoop (JSDate.fixedZone tz) logs start 14))).
  { rewrite D; apply NoDup_iso_days; [exact Ha|].
    replace (z - 13 + Z.of_nat 14)%Z with (z + 1)%Z by lia; exact Hb. }
  eexists; split; [reflexivity|]; split; [|split; [exact D|split; [|split; [exact ND|]]]].
  - unfold Dashboard.dailyLoop; rewrite length_map, length_seq; reflexivity.
  - intros b; apply dailyLoop_hours.
  - intros l _; apply one_entry_per_log; exact ND.
Qed.

(** The fortnight ending 2024-03-14 on a host five hours behind UTC. *)
Lemma chartData_biweek_buckets_witness :
  let l1 := WorkLog.mk "l1" (Some "a"%string) "2024-03-09" "09:00" "14:00" 5 "" 0 in
  exists data,
    Dashboard.chartData_biweek (JSDate.fixedZone (-300)) "2024-03-14" [l1] = Some data /\
    List.length data = 14%nat /\
    List.map Dashboard.fullDate (List.firstn 1 data) = ["2024-03-01"%string].
Proof.
  cbv zeta.
  destruct (chartData_biweek_buckets (-300) 19796
              [WorkLog.mk "l1" (Some "a"%string) "2024-03-09" "09:00" "14:00" 5 "" 0])
    as (data & Hd & Hl & Hm & _).
  - apply inRange_2024; lia.
  - apply inRange_2024; lia.
  - exists data; split; [exact Hd|]; split; [exact Hl|].
    rewrite <- firstn_map, Hm; vm_compute; reflexivity.
Defined.

Lemma getDay_east (tz z : Z) :
  (0 <= tz < 1440)%Z -> JSDate.getDay tz (z * JSDate.msPerDay) = JSDate.WeekDay z.
Proof.
  intros H; unfold JSDate.getDay; f_equal.
  unfold JSDate.Day, JSDate.LocalTime, JSDate.msPerDay, JSDate.msPerMinute.
  Z.to_euclidean_division_equations; lia.
Qed.

(** X14.  The chart of a week on a host whose zone has a fixed offset at
    or east of UTC (0 to 1439 minutes, no change of the clocks): for a
    reference date as the date input writes it, the data has seven
    entries dated with seven consecutive days of which the first is a
    Monday and which include the reference date. *)
Theorem chartData_week_monday (tz z : Z) (logs : list WorkLog.t) :
  (0 <= tz < 1440)%Z ->
  DateText.inRange z ->
  let monday := (z - (JSDate.WeekDay z + 6) mod 7)%Z in
  exists data,
    Dashboard.chartData_week (JSDate.fixedZone tz) (JSDate.isoDateOfDay z) logs
    = Some data /\
    List.length data = 7%nat /\
    List.map Dashboard.fullDate data
    = List.map (fun i => JSDate.isoDateOfDay (monday + Z.of_nat i)) (List.seq 0 7) /\
    JSDate.WeekDay monday = 1%Z /\
    (monday <= z <= monday + 6)%Z.
Proof.
  intros Htz Hz monday.
  unfold Dashboard.chartData_week.
  rewrite (newDate_isoDateOfDay z Hz); cbv zeta.
  change (JSDate.offsetAt (JSDate.fixedZone tz) (z * JSDate.msPerDay)) with tz.
  rewrite (getDay_east tz z Htz).
  set (w := JSDate.WeekDay z) in *.
  assert (Hw : (0 <= w <= 6)%Z)
    by (unfold w, JSDate.WeekDay; Z.to_euclidean_division_equations; lia).
  set (k := (- w + (if (w =? 0)%Z then -6 else 1))%Z).
  replace (JSDate.getDate tz (z * JSDate.msPerDay) - w
           + (if (w =? 0)%Z then -6 else 1))%Z
    with (JSDate.getDate tz (z * JSDate.msPerDay) + k)%Z by (unfold k; lia).
  rewrite setDate_getDate_shift.
  assert (S : JSDate.Day (z * JSDate.msPerDay + k * JSDate.msPerDay) = monday).
  { rewrite Day_shift, Day_of_midnight; unfold monday, k.
    destruct (Z.eqb_spec w 0); Z.to_euclidean_division_equations; lia. }
  eexists; split; [reflexivity|]; split; [|split; [|split]].
  - unfold Dashboard.dailyLoop; rewrite length_map, length_seq; reflexivity.
  - rewrite dailyLoop_dates, S; reflexivity.
  - unfold monday; fold w; unfold w, JSDate.WeekDay.
    Z.to_euclidean_division_equations; lia.
  - unfold monday; Z.to_euclidean_division_equations; lia.
Qed.

(** Thursday 2024-03-14 in Hong Kong: the week runs from Monday 2024-03-11. *)
Lemma chartData_week_monday_witness :
  exists data,
    Dashboard.chartData_week (JSDate.fixedZone 480) "2024-03-14" [] = Some data /\
    List.map Dashboard.fullDate data
    = ["2024-03-11"; "2024-03-12"; "2024-03-13"; "2024-03-14";
       "2024-03-15"; "2024-03-16"; "2024-03-17"]%string.
Proof.
  destruct (chartData_week_monday 480 19796 [] ltac:(lia)
              ltac:(apply inRange_2024; lia))
    as (data & Hd & _ & Hm & _).
  exists data; split; [exact Hd|].
  rewrite Hm; vm_compute; reflexivity.
Defined.

(** X15.  The two fortnights of the dashboard: for an end date as the date
    input writes it and logs with such dates, the current period is the
    fourteen days ending on the end date and the previous period the
    fourteen days before them, so no log is counted in both; the hours of
    each period are the hours of the logs of its days, and the net of the
    current period is its earnings after tax. *)
Theorem calculateBiWeeklyStats_periods (tz z : Z) (jobs : list Job.t)
  (settings : UserSettings.t) (logs : list WorkLog.t) :
  DateText.inRange (z - 27) -> DateText.inRange z ->
  Forall (fun l => DateText.canonical (WorkLog.date l)) logs ->
  let current := filter (fun l => DateText.inDays (z - 13) z (WorkLog.date l)) logs in
  let previous :=
    filter (fun l => DateText.inDays (z - 27) (z - 14) (WorkLog.date l)) logs in
  Dashboard.biWeeklyLogs (JSDate.isoDateOfDay z) logs = Some (current, previous) /\
  (forall l, In l current -> ~ In l previous) /\
  exists stats,
    Dashboard.calculateBiWeeklyStats tz jobs settings (JSDate.isoDateOfDay z) logs
    = Some stats /\
    Dashboard.currentPeriodHours stats = Dashboard.totalHours current /\
    Dashboard.prevPeriodHours stats = Dashboard.totalHours previous /\
    Dashboard.currentPeriodEarnings stats
    = Dashboard.calculateTotalEarnings tz jobs current /\
    Dashboard.currentPeriodNet stats
    = Dashboard.calculateAfterTax settings (Dashboard.currentPeriodEarnings stats).
Proof.
  intros Ha Hz Hc current previous.
  assert (R : forall k, (-27 <= k <= 0)%Z -> DateText.inRange (z + k))
    by (intros k Hk; apply (inRange_between (z - 27) z); try assumption; lia).
  assert (B : Dashboard.biWeeklyLogs (JSDate.isoDateOfDay z) logs
              = Some (current, previous)).
  { unfold Dashboard.biWeeklyLogs.
    rewrite (newDate_isoDateOfDay z Hz); cbv zeta.
    unfold JSDate.toISODate.
    replace (z * JSDate.msPerDay - 13 * (24 * 60 * 60 * 1000))%Z
      with (z * JSDate.msPerDay + -13 * JSDate.msPerDay)%Z
      by (unfold JSDate.msPerDay; lia).
    replace (z * JSDate.msPerDay - 14 * (24 * 60 * 60 * 1000)
             - 13 * (24 * 60 * 60 * 1000))%Z
      with (z * JSDate.msPerDay + -27 * JSDate.msPerDay)%Z
      by (unfold JSDate.msPerDay; lia).
    replace (z * JSDate.msPerDay - 14 * (24 * 60 * 60 * 1000))%Z
      with (z * JSDate.msPerDay + -14 * JSDate.msPerDay)%Z
      by (unfold JSDate.msPerDay; lia).
    rewrite !Day_shift, !Day_of_midnight.
    rewrite Forall_forall in Hc.
    f_equal; f_equal; apply filter_ext_in; intros l Hl.
    - replace (z - 13)%Z with (z + -13)%Z by lia.
      apply range_isoDateOfDay; auto; apply R; lia.
    - replace (z - 27)%Z with (z + -27)%Z by lia.
      replace (z - 14)%Z with (z + -14)%Z by lia.
      apply range_isoDateOfDay; auto; apply R; lia. }
  split; [exact B|]; split.
  - intros l Hc1 Hp; unfold current, previous in *.
    apply filter_In in Hc1, Hp; destruct Hc1 as [_ H1], Hp as [_ H2].
    unfold DateText.inDays in *.
    destruct (DateText.dayOf (WorkLog.date l)); [|discriminate].
    apply andb_true_iff in H1, H2; rewrite !Z.leb_le in H1, H2; lia.
  - unfold Dashboard.calculateBiWeeklyStats; rewrite B.
    eexists; split; [reflexivity|]; repeat split.
Qed.

Lemma calculateBiWeeklyStats_periods_witness :
  let l1 := WorkLog.mk "l1" (Some "a"%string) (JSDate.isoDateOfDay 19791)
              "09:00" "14:00" 5 "" 0 in
  let l2 := WorkLog.mk "l2" (Some "a"%string) (JSDate.isoDateOfDay 19780)
              "09:00" "12:00" 3 "" 0 in
  Dashboard.biWeeklyLogs "2024-03-14" [l1; l2] = Some ([l1], [l2]).
Proof.
  cbv zeta.
  refine (eq_trans
            (proj1 (calculateBiWeeklyStats_periods 0 19796 [] DEFAULT_SETTINGS _ _ _ _))
            _).
  - apply inRange_2024; lia.
  - apply inRange_2024; lia.
  - repeat constructor; apply canonical_isoDateOfDay, inRange_2024; lia.
  - vm_compute; reflexivity.
Defined.

(** ** PayslipVerifier: the period and the remediation *)

(** The two totals of [splitHours] are the hours of the logs the code
    takes for weekdays and the hours of the logs it takes for the weekend,
    each summed in the order of the logs. *)
Lemma splitHours_by_type (tz : Z) (logs : list WorkLog.t) :
  PayslipVerifier.splitHours tz logs
  = (Dashboard.totalHours
       (filter (fun l => negb (JSDate.isWeekend tz (WorkLog.date l))) logs),
     Dashboard.totalHours
       (filter (fun l => JSDate.isWeekend tz (WorkLog.date l)) logs)).
Proof.
  unfold PayslipVerifier.splitHours, Dashboard.totalHours.
  assert (G : forall acc : Q * Q,
             fold_left
               (fun acc log =>
                  if JSDate.isWeekend tz (WorkLog.date log)
                  then (fst acc, snd acc + WorkLog.duration log)
                  else (fst acc + WorkLog.duration log, snd acc))
               logs acc
             = (fold_left (fun acc log => acc + WorkLog.duration log)
                  (filter (fun l => negb (JSDate.isWeekend tz (WorkLog.date l))) logs)
                  (fst acc),
                fold_left (fun acc log => acc + WorkLog.duration log)
                  (filter (fun l => JSDate.isWeekend tz (WorkLog.date l)) logs)
                  (snd acc))).
  { induction logs as [|l logs IH]; intros acc; simpl.
    - destruct acc; reflexivity.
    - rewrite IH; destruct (JSDate.isWeekend tz (WorkLog.date l)); reflexivity. }
  exact (G (0, 0)).
Qed.

Lemma str_le_refl (s : string) : JS.str_le s s = true.
Proof.
  unfold JS.str_le, String.ltb.
  assert (R : String.compare s s = Eq).
  { induction s as [|c s IH]; simpl; [reflexivity|].
    unfold Ascii.compare; rewrite N.compare_refl; exact IH. }
  rewrite R; reflexivity.
Qed.

(** The hours of the period, by the day type the code gives each date. *)
Lemma appStats_split (tz z : Z) (logs : list WorkLog.t) (job : Job.t)
  (pl : PayslipVerifier.PeriodLength) :
  let first := (z - (PayslipVerifier.parseInt pl - 1))%Z in
  let counted :=
    filter (fun l => DateText.inDays first z (WorkLog.date l)
                     && JS.opt_str_eq (WorkLog.jobId l) (Job.id job)) logs in
  DateText.inRange first -> DateText.inRange z ->
  Forall (fun l => DateText.canonical (WorkLog.date l)) logs ->
  exists stats,
    PayslipVerifier.appStats tz logs (Some job) (JSDate.isoDateOfDay z) pl = Some stats /\
    PayslipVerifier.startStr stats = JSDate.isoDateOfDay first /\
    PayslipVerifier.endStr stats = JSDate.isoDateOfDay z /\
    PayslipVerifier.weekdayHours stats
    = Dashboard.totalHours
        (filter (fun l => negb (JSDate.isWeekend tz (WorkLog.date l))) counted) /\
    PayslipVerifier.weekendHours stats
    = Dashboard.totalHours
        (filter (fun l => JSDate.isWeekend tz (WorkLog.date l)) counted).
Proof.
  intros first counted Hf Hz Hc.
  unfold PayslipVerifier.appStats.
  rewrite (newDate_isoDateOfDay z Hz); cbv zeta.
  assert (S : JSDate.toISODate
                (z * JSDate.msPerDay
                 - (PayslipVerifier.parseInt pl - 1) * 24 * 60 * 60 * 1000)
              = JSDate.isoDateOfDay first).
  { unfold JSDate.toISODate.
    replace (z * JSDate.msPerDay
             - (PayslipVerifier.parseInt pl - 1) * 24 * 60 * 60 * 1000)%Z
      with (z * JSDate.msPerDay
            + - (PayslipVerifier.parseInt pl - 1) * JSDate.msPerDay)%Z
      by (unfold JSDate.msPerDay; lia).
    rewrite Day_shift, Day_of_midnight; f_equal; unfold first; lia. }
  rewrite S.
  assert (P : filter
                (fun l => JS.str_ge (WorkLog.date l) (JSDate.isoDateOfDay first)
                          && JS.str_le (WorkLog.date l) (JSDate.isoDateOfDay z)
                          && JS.opt_str_eq (WorkLog.jobId l) (Job.id job)) logs
              = counted).
  { unfold counted; apply filter_ext_in; intros l Hl.
    rewrite Forall_forall in Hc.
    rewrite (range_isoDateOfDay first z _ Hf Hz (Hc l Hl)); reflexivity. }
  rewrite P, splitHours_by_type.
  eexists; split; [reflexivity|]; cbn; repeat split.
Qed.

(** X16.  The period of the payslip verifier: for an end date as the date
    input writes it and logs with such dates, the logs counted are those
    of the active job whose day is one of the 14 (or 30) days ending on
    the end date; the weekday hours are the hours of those among them that
    the code takes for weekdays and the weekend hours the hours of the
    others, each summed in the order of the logs, so every counted log
    enters exactly one of the two totals; and on a host at or east of UTC
    a counted log is taken for the weekend exactly when its date is a
    Saturday or a Sunday. *)
Theorem appStats_period (tz z : Z) (logs : list WorkLog.t) (job : Job.t)
  (pl : PayslipVerifier.PeriodLength) :
  let first := (z - (PayslipVerifier.parseInt pl - 1))%Z in
  let counted :=
    filter (fun l => DateText.inDays first z (WorkLog.date l)
                     && JS.opt_str_eq (WorkLog.jobId l) (Job.id job)) logs in
  DateText.inRange first -> DateText.inRange z ->
  Forall (fun l => DateText.canonical (WorkLog.date l)) logs ->
  exists stats,
    PayslipVerifier.appStats tz logs (Some job) (JSDate.isoDateOfDay z) pl = Some stats /\
    PayslipVerifier.startStr stats = JSDate.isoDateOfDay first /\
    PayslipVerifier.endStr stats = JSDate.isoDateOfDay z /\
    PayslipVerifier.weekdayHours stats
    = Dashboard.totalHours
        (filter (fun l => negb (JSDate.isWeekend tz (WorkLog.date l))) counted) /\
    PayslipVerifier.weekendHours stats
    = Dashboard.totalHours
        (filter (fun l => JSDate.isWeekend tz (WorkLog.date l)) counted) /\
    ((0 <= tz < 1440)%Z ->
     forall l, In l counted ->
       JSDate.isWeekend tz (WorkLog.date l)
       = match DateText.dayOf (WorkLog.date l) with
         | Some d => DateText.isWeekendDay d
         | None => false
         end).
Proof.
  intros first counted Hf Hz Hc.
  destruct (appStats_split tz z logs job pl Hf Hz Hc) as (stats & H1 & H2 & H3 & H4 & H5).
  exists stats; repeat (split; [assumption|]).
  intros Htz l Hl.
  unfold counted in Hl; apply filter_In in Hl; destruct Hl as [Hl _].
  rewrite Forall_forall in Hc; destruct (Hc l Hl) as (d & Hd & ->).
  rewrite (dayOf_isoDateOfDay d Hd).
  unfold JSDate.isWeekend; rewrite (newDate_isoDateOfDay d Hd).
  rewrite (getDay_east tz d Htz); reflexivity.
Qed.

(** The fortnight ending 2024-03-14 in Hong Kong: a Saturday log and a
    Tuesday log of the job count, a log of another job does not. *)
Lemma appStats_period_witness :
  let jobA := Job.mk "a" "Job A" "#4F46E5" 60 70 1000 70 80 in
  let sat := WorkLog.mk "l1" (Some "a"%string) (JSDate.isoDateOfDay 19791)
               "09:00" "14:00" 5 "" 0 in
  let tue := WorkLog.mk "l2" (Some "a"%string) (JSDate.isoDateOfDay 19794)
               "09:00" "12:00" 3 "" 0 in
  let other := WorkLog.mk "l3" (Some "b"%string) (JSDate.isoDateOfDay 19794)
                 "09:00" "11:00" 2 "" 0 in
  exists stats,
    PayslipVerifier.appStats 480 [sat; tue; other] (Some jobA) "2024-03-14"
      PayslipVerifier.P14 = Some stats /\
    PayslipVerifier.weekdayHours stats == 3 /\
    PayslipVerifier.weekendHours stats == 5.
Proof.
  cbv zeta.
  destruct (appStats_period 480 19796
              [WorkLog.mk "l1" (Some "a"%string) (JSDate.isoDateOfDay 19791)
                 "09:00" "14:00" 5 "" 0;
               WorkLog.mk "l2" (Some "a"%string) (JSDate.isoDateOfDay 19794)
                 "09:00" "12:00" 3 "" 0;
               WorkLog.mk "l3" (Some "b"%string) (JSDate.isoDateOfDay 19794)
                 "09:00" "11:00" 2 "" 0]
              (Job.mk "a" "Job A" "#4F46E5" 60 70 1000 70 80)
              PayslipVerifier.P14)
    as (stats & Hs & _ & _ & Hwd & Hwe & _).
  - apply inRange_2024; simpl; lia.
  - apply inRange_2024; lia.
  - repeat constructor; apply canonical_isoDateOfDay, inRange_2024; lia.
  - exists stats; split; [exact Hs|].
    rewrite Hwd, Hwe; split; vm_compute; reflexivity.
Defined.



(** ** CalendarView: the highlighted days and the figures of a day *)

Lemma compare_refl_string (s : string) : String.compare s s = Eq.
Proof.
  induction s as [|c s IH]; simpl; [reflexivity|].
  unfold Ascii.compare; rewrite N.compare_refl; exact IH.
Qed.

(** A string is between a string and itself exactly when it is that
    string. *)
Lemma str_between_eq (d s : string) :
  JS.str_ge d s && JS.str_le d s = (d =? s)%string.
Proof.
  unfold JS.str_ge, JS.str_le, String.ltb.
  destruct (String.eqb_spec d s) as [->|N].
  - rewrite compare_refl_string; reflexivity.
  - rewrite (String.compare_antisym s d).
    destruct (String.compare d s) eqn:C; try reflexivity.
    apply String.compare_eq_iff in C; contradiction.
Qed.

Lemma isSelected_range (st : CalendarView.Selection) (dateStr : string) :
  CalendarView.isSelected st dateStr
  = match CalendarView.selectStart st with
    | Some start =>
        negb (start =? "")%string
        && (JS.str_ge dateStr start
            && JS.str_le dateStr (JS.or_str (CalendarView.selectEnd st) start))
    | None => false
    end.
Proof.
  unfold CalendarView.isSelected.
  destruct (CalendarView.selectStart st) as [start|]; [|reflexivity].
  destruct (start =? "")%string; [reflexivity|]; simpl.
  destruct (CalendarView.selectEnd st) as [e|]; simpl.
  - destruct (e =? "")%string; [|reflexivity].
    symmetry; apply str_between_eq.
  - symmetry; apply str_between_eq.
Qed.

(** X18.  The summary card of the calendar totals exactly the logs of the
    highlighted days: whenever a start is selected, the statistics of the
    selection are the totals of the logs whose date the grid shows as
    selected; with only a start, these are the logs of that one date; and
    without a start nothing is highlighted and there is no summary. *)
Theorem selectedStats_isSelected (tz : Z) (jobs : list Job.t)
  (st : CalendarView.Selection) (logs : list WorkLog.t) :
  CalendarView.selectedStats tz jobs st logs
  = (if JS.truthy_str (CalendarView.selectStart st)
     then Some (CalendarView.accumulate tz jobs
                  (filter (fun l => CalendarView.isSelected st (WorkLog.date l)) logs))
     else None) /\
  (JS.truthy_str (CalendarView.selectStart st) = false ->
   forall d, CalendarView.isSelected st d = false) /\
  (forall start,
      CalendarView.selectStart st = Some start ->
      JS.truthy_str (CalendarView.selectEnd st) = false ->
      forall d, CalendarView.isSelected st d
                = negb (start =? "")%string && (d =? start)%string).
Proof.
  split; [|split].
  - unfold CalendarView.selectedStats.
    destruct (CalendarView.selectStart st) as [start|] eqn:E; simpl; [|reflexivity].
    destruct (start =? "")%string eqn:B; simpl; [reflexivity|].
    f_equal; f_equal; apply filter_ext; intros l.
    rewrite isSelected_range, E, B; reflexivity.
  - intros H d; rewrite isSelected_range.
    destruct (CalendarView.selectStart st) as [start|]; [|reflexivity].
    simpl in H; rewrite H; reflexivity.
  - intros start E He d; rewrite isSelected_range, E.
    assert (O : JS.or_str (CalendarView.selectEnd st) start = start).
    { destruct (CalendarView.selectEnd st) as [e|]; simpl in *; [|reflexivity].
      destruct (e =? "")%string; [reflexivity|discriminate]. }
    rewrite O, str_between_eq; reflexivity.
Qed.

Lemma lookup_assign (key k : string) (v : CalendarView.DayStats)
  (stats : list (string * CalendarView.DayStats)) :
  CalendarView.lookup key (CalendarView.assign k v stats)
  = if (k =? key)%string then Some v else CalendarView.lookup key stats.
Proof.
  induction stats as [|[k' w] stats IH]; simpl.
  - reflexivity.
  - destruct (String.eqb_spec k' k) as [->|N]; simpl.
    + destruct (k =? key)%string; reflexivity.
    + rewrite IH.
      destruct (String.eqb_spec k' key) as [->|N']; [|reflexivity].
      apply String.eqb_neq in N; rewrite String.eqb_sym in N; rewrite N; reflexivity.
Qed.

(** The entry of a date in [dailyStats] after the logs seen so far. *)
Lemma dailyStats_lookup (tz : Z) (jobs : list Job.t) (logs : list WorkLog.t)
  (d : string) :
  CalendarView.lookup d (CalendarView.dailyStats tz jobs logs)
  = match filter (fun l => (WorkLog.date l =? d)%string) logs with
    | [] => None
    | dayLogs =>
        Some (CalendarView.mkDayStats
                (fold_left (fun s l => s + WorkLog.duration l) dayLogs 0)
                (fold_left (fun s l => s + CalendarView.getLogValue tz jobs l) dayLogs 0)
                (Z.of_nat (List.length dayLogs)))
    end.
Proof.
  unfold CalendarView.dailyStats.
  induction logs as [|x logs IH] using rev_ind; [reflexivity|].
  rewrite fold_left_app; cbn [fold_left].
  rewrite lookup_assign, filter_app; cbn [filter].
  destruct (String.eqb_spec (WorkLog.date x) d) as [E|N].
  - rewrite E in *; rewrite IH.
    destruct (filter (fun l => (WorkLog.date l =? d)%string) logs) as [|y ys].
    + reflexivity.
    + cbn [app CalendarView.hours CalendarView.earnings CalendarView.count].
      f_equal; f_equal.
      * change (y :: ys ++ [x]) with ((y :: ys) ++ [x]).
        rewrite fold_left_app; reflexivity.
      * change (y :: ys ++ [x]) with ((y :: ys) ++ [x]).
        rewrite fold_left_app; reflexivity.
      * cbn [List.length]; rewrite length_app; simpl; lia.
  - rewrite app_nil_r; exact IH.
Qed.

(** X19.  The figures in a cell of the calendar are those of the logs of
    its date: a date has an entry exactly when some log has it, the entry
    holds the number of these logs, and its hours and earnings are the
    totals the summary card shows when that one day is selected. *)
Theorem dailyStats_of_date (tz : Z) (jobs : list Job.t) (logs : list WorkLog.t)
  (d : string) :
  (CalendarView.lookup d (CalendarView.dailyStats tz jobs logs) = None
   <-> forall l, In l logs -> WorkLog.date l <> d) /\
  (forall e,
      CalendarView.lookup d (CalendarView.dailyStats tz jobs logs) = Some e ->
      CalendarView.count e
      = Z.of_nat (List.length (filter (fun l => (WorkLog.date l =? d)%string) logs)) /\
      (d <> ""%string ->
       exists s,
         CalendarView.selectedStats tz jobs
           (CalendarView.handleDateClick d CalendarView.noSelection) logs = Some s /\
         CalendarView.totalHours s = CalendarView.hours e /\
         CalendarView.totalEarnings s = CalendarView.earnings e)).
Proof.
  rewrite dailyStats_lookup; split.
  - destruct (filter (fun l => (WorkLog.date l =? d)%string) logs) as [|y ys] eqn:F.
    + split; [intros _ l Hl E|reflexivity].
      assert (In l (filter (fun l => (WorkLog.date l =? d)%string) logs))
        by (apply filter_In; split; [exact Hl|apply String.eqb_eq; exact E]).
      rewrite F in H; exact H.
    + split; [discriminate|]; intros H; exfalso.
      assert (Hy : In y (filter (fun l => (WorkLog.date l =? d)%string) logs))
        by (rewrite F; left; reflexivity).
      apply filter_In in Hy; destruct Hy as [Hy E].
      apply String.eqb_eq in E; exact (H y Hy E).
  - intros e He.
    destruct (filter (fun l => (WorkLog.date l =? d)%string) logs) as [|y ys] eqn:F;
      [discriminate|].
    injection He as <-; split; [reflexivity|].
    intros Hd.
    destruct (selectedStats_isSelected tz jobs
                (CalendarView.handleDateClick d CalendarView.noSelection) logs)
      as (S & _ & One).
    rewrite S; cbn [CalendarView.handleDateClick CalendarView.noSelection
                      CalendarView.selectStart CalendarView.selectEnd JS.truthy_str
                      negb orb andb].
    apply String.eqb_neq in Hd; rewrite Hd; cbn [negb].
    eexists; split; [reflexivity|].
    replace (filter (fun l => CalendarView.isSelected
                                (CalendarView.mkSelection (Some d) None)
                                (WorkLog.date l)) logs)
      with (y :: ys).
    + destruct (accumulate_fold tz jobs (y :: ys) (CalendarView.mkStats 0 0)) as [A1 A2].
      unfold CalendarView.accumulate; rewrite A1, A2; split; reflexivity.
    + rewrite <- F; apply filter_ext; intros l.
      rewrite (One d eq_refl eq_refl), Hd; reflexivity.
Qed.

(** ** DataManagement: import and export *)

(** X20.  Importing a file.  The status is an error exactly when the file
    is not JSON or lacks logs or settings, and then, as when the user
    declines, the state is left as it was.  An import never leaves the
    application without a job: a confirmed import of a file whose jobs are
    missing or empty makes one job under the fresh identifier and gives
    that identifier to every log, including the logs that had one, so that
    every log refers to it; a file with jobs is taken with its logs and
    jobs as they are. *)
Theorem handleFileChange_import (confirmed : bool) (uuid : string)
  (file : option StoredState.t) (st : AppState.t) :
  let st' := fst (DataManagement.handleFileChange confirmed uuid file st) in
  let status := snd (DataManagement.handleFileChange confirmed uuid file st) in
  (status = DataManagement.error <->
   match file with
   | Some p => StoredState.logs p = None \/ StoredState.settings p = None
   | None => True
   end) /\
  (status = DataManagement.error \/ confirmed = false -> st' = st) /\
  (AppState.jobs st <> [] -> AppState.jobs st' <> []) /\
  (forall p logs settings,
      confirmed = true -> file = Some p ->
      StoredState.logs p = Some logs -> StoredState.settings p = Some settings ->
      AppState.jobs st' <> [] /\
      (JS.or_list (StoredState.jobs p) = [] ->
       AppState.jobs st' = [App.importJob uuid settings] /\
       List.length (AppState.logs st') = List.length logs /\
       forall l, In l (AppState.logs st') ->
                 WorkLog.jobId l = Some uuid /\
                 DateText.resolves (AppState.jobs st') l) /\
      (JS.or_list (StoredState.jobs p) <> [] ->
       AppState.jobs st' = JS.or_list (StoredState.jobs p) /\
       AppState.logs st' = logs)).
Proof.
  cbv zeta; unfold DataManagement.handleFileChange.
  assert (Invalid :
            forall (ok : Prop), ok ->
              (DataManagement.error = DataManagement.error <-> ok) /\
              (DataManagement.error = DataManagement.error \/ confirmed = false -> st = st) /\
              (AppState.jobs st <> [] -> AppState.jobs st <> [])).
  { intros ok Hok; split; [split; auto|]; split; auto. }
  destruct file as [p|]; cbn [fst snd].
  2:{ destruct (Invalid True I) as (A & B & C).
      split; [exact A|]; split; [exact B|]; split; [exact C|].
      intros; discriminate. }
  destruct (StoredState.logs p) as [logs|] eqn:EL;
    [destruct (StoredState.settings p) as [settings|] eqn:ES|]; cbn [fst snd].
  - split; [split; [discriminate|intros [H|H]; discriminate]|].
    unfold App.handleImport.
    split; [intros [H|H]; [discriminate|rewrite H; reflexivity]|].
    split.
    + intros Hne; destruct confirmed; [|exact Hne].
      destruct (StoredState.jobs p) as [[|j js]|]; simpl; discriminate.
    + intros p' logs' settings' -> [= <-]; rewrite EL, ES; intros [= <-] [= <-].
      assert (Made :
                forall mj,
                  AppState.jobs
                    (AppState.mk (List.map (App.reassignJob (Job.id mj)) logs)
                       (App.mergeSettings (Some settings)) [mj]
                       (JS.or_list (StoredState.templates p)))
                  = [mj] /\
                  List.length
                    (AppState.logs
                       (AppState.mk (List.map (App.reassignJob (Job.id mj)) logs)
                          (App.mergeSettings (Some settings)) [mj]
                          (JS.or_list (StoredState.templates p))))
                  = List.length logs /\
                  forall l,
                    In l (AppState.logs
                            (AppState.mk (List.map (App.reassignJob (Job.id mj)) logs)
                               (App.mergeSettings (Some settings)) [mj]
                               (JS.or_list (StoredState.templates p)))) ->
                    WorkLog.jobId l = Some (Job.id mj) /\
                    DateText.resolves [mj] l).
      { intros mj; cbn [AppState.jobs AppState.logs].
        split; [reflexivity|]; split; [apply length_map|].
        intros l Hl; apply in_map_iff in Hl; destruct Hl as (l0 & <- & _).
        split; [reflexivity|].
        exists mj; unfold JS.find; simpl; rewrite String.eqb_refl; reflexivity. }
      destruct (StoredState.jobs p) as [[|j js]|]; cbn [JS.or_list].
      * split; [discriminate|]; split; [intros _|intros H; contradiction].
        apply (Made (App.importJob uuid settings)).
      * split; [discriminate|]; split; [discriminate|].
        intros _; split; reflexivity.
      * split; [discriminate|]; split; [intros _|intros H; contradiction].
        apply (Made (App.importJob uuid settings)).
  - destruct (Invalid (Some logs = None \/ @None StoredSettings.t = None)
                (or_intror eq_refl)) as (A & B & C).
    split; [exact A|]; split; [exact B|]; split; [exact C|].
    intros p' logs' settings' _ [= <-]; rewrite ES; discriminate.
  - destruct (Invalid (@None (list WorkLog.t) = None
                       \/ StoredState.settings p = None)
                (or_introl eq_refl)) as (A & B & C).
    split; [exact A|]; split; [exact B|]; split; [exact C|].
    intros p' logs' settings' _ [= <-]; rewrite EL; discriminate.
Qed.

Lemma isWeekendMod_isWeekend (tz : Z) (s : string) :
  DataManagement.isWeekendMod tz s = JSDate.isWeekend tz s.
Proof.
  unfold DataManagement.isWeekendMod, JSDate.isWeekend.
  destruct (JSDate.newDate s) as [t|]; [|reflexivity].
  assert (H : (0 <= JSDate.getDay tz t <= 6)%Z)
    by (unfold JSDate.getDay, JSDate.WeekDay; Z.to_euclidean_division_equations; lia).
  destruct (Z.eqb_spec (JSDate.getDay tz t) 0) as [E0|N0];
    destruct (Z.eqb_spec (JSDate.getDay tz t) 6) as [E6|N6];
    destruct (Z.eqb_spec (JSDate.getDay tz t mod 6) 0) as [Em|Nm];
    try reflexivity; exfalso; Z.to_euclidean_division_equations; lia.
Qed.

(** X21.  The CSV export agrees with the screens: there is one line for
    each log, in order, with the date, times and duration of the log; its
    earnings are the value of the log on the calendar and the dashboard;
    and a log whose job is not in the collection is exported with the job
    name 'Unknown' and a rate of 0. *)
Theorem exportRows_agree (tz : Z) (logs : list WorkLog.t) (jobs : list Job.t) :
  List.map DataManagement.rowDate (DataManagement.exportRows tz logs jobs)
  = List.map WorkLog.date logs /\
  List.map DataManagement.rowDuration (DataManagement.exportRows tz logs jobs)
  = List.map WorkLog.duration logs /\
  Forall2 (fun row log =>
             DataManagement.rowEarnings row == CalendarView.getLogValue tz jobs log /\
             DataManagement.rowEarnings row == Dashboard.getLogEarnings tz jobs log /\
             DataManagement.rowEarnings row
             == DataManagement.rowDuration row * DataManagement.rowRate row /\
             (~ DateText.resolves jobs log ->
              DataManagement.rowJobName row = "Unknown"%string /\
              DataManagement.rowRate row = 0))
    (DataManagement.exportRows tz logs jobs) logs.
Proof.
  unfold DataManagement.exportRows; split; [|split].
  - rewrite map_map; reflexivity.
  - rewrite map_map; reflexivity.
  - induction logs as [|l logs IH]; simpl; constructor; [|exact IH].
    cbn [DataManagement.rowEarnings DataManagement.rowDuration DataManagement.rowRate
           DataManagement.rowJobName].
    rewrite isWeekendMod_isWeekend.
    unfold Dashboard.getLogEarnings, CalendarView.getLogValue, DateText.resolves.
    destruct (JS.find _ jobs) as [job|]; cbv zeta.
    + split; [reflexivity|]; split; [reflexivity|]; split; [reflexivity|].
      intros H; exfalso; apply H; eexists; reflexivity.
    + split; [ring|]; split; [ring|]; split; [reflexivity|].
      intros _; split; reflexivity.
Qed.

(** ** Dates as text *)

(** X22.  Dates as the code writes and compares them.  For days whose year
    has four digits, the date part of [toISOString] read back by
    [new Date] is midnight UTC of the same day, so writing and reading a
    date loses nothing; and two such dates compare as strings, with [<],
    [<=], [>=] and [===], the way their days compare as numbers, which is
    what the range filters rely on. *)
Theorem iso_dates_read_back_and_order (z1 z2 : Z) :
  DateText.inRange z1 -> DateText.inRange z2 ->
  JSDate.newDate (JSDate.isoDateOfDay z1) = Some (z1 * JSDate.msPerDay)%Z /\
  JSDate.toISODate (z1 * JSDate.msPerDay) = JSDate.isoDateOfDay z1 /\
  JS.str_lt (JSDate.isoDateOfDay z1) (JSDate.isoDateOfDay z2) = (z1 <? z2)%Z /\
  JS.str_le (JSDate.isoDateOfDay z1) (JSDate.isoDateOfDay z2) = (z1 <=? z2)%Z /\
  JS.str_ge (JSDate.isoDateOfDay z1) (JSDate.isoDateOfDay z2) = (z2 <=? z1)%Z /\
  (JSDate.isoDateOfDay z1 =? JSDate.isoDateOfDay z2)%string = (z1 =? z2)%Z.
Proof.
  intros H1 H2.
  split; [apply newDate_isoDateOfDay; exact H1|].
  split; [unfold JSDate.toISODate; rewrite Day_of_midnight; reflexivity|].
  split; [|split; [apply str_le_isoDateOfDay|split;
                   [apply str_ge_isoDateOfDay|apply eqb_isoDateOfDay]]]; try assumption.
  unfold JS.str_lt, String.ltb.
  rewrite (compare_isoDateOfDay z1 z2 H1 H2), Z.ltb_compare.
  destruct (z1 ?= z2)%Z; reflexivity.
Qed.

(** The last day of February 2024 and the first of March. *)
Lemma iso_dates_read_back_and_order_witness :
  JSDate.newDate "2024-02-29" = Some 1709164800000%Z /\
  JS.str_lt "2024-02-29" "2024-03-01" = true.
Proof.
  destruct (iso_dates_read_back_and_order 19782 19783
              ltac:(apply inRange_2024; lia) ltac:(apply inRange_2024; lia))
    as (R & _ & L & _).
  split; [exact R|exact L].
Defined.


(** ** App: the load effect *)

(** X23.  Starting the application.  After the load effect there is at
    least one job, except when the stored text does not parse or holds
    neither a job nor a settings object: then the exception is caught and
    the state is the empty initial one.  That state, once saved, loads at
    the next start as a state with exactly one job, the "Main Job" with
    the default rates.  A state with a job that the application saved
    loads as it is. *)
Theorem load_jobs (uuid uuid2 : string) (saved : App.Saved) :
  (AppState.jobs (App.load uuid saved) = [] <->
   match saved with
   | App.NoData => False
   | App.BadData => True
   | App.Data parsed =>
       JS.or_list (StoredState.jobs parsed) = [] /\ StoredState.settings parsed = None
   end) /\
  (AppState.jobs (App.load uuid saved) = [] ->
   App.load uuid saved = App.initialState /\
   AppState.jobs (App.load uuid2 (App.Data (App.store (App.load uuid saved))))
   = [Job.mk uuid2 "Main Job" (Job.color DEFAULT_JOB) 60 60 1000 70 70]) /\
  (forall st, AppState.jobs st <> [] -> App.load uuid (App.Data (App.store st)) = st).
Proof.
  assert (M : forall parsed,
             JS.or_list (StoredState.jobs parsed) = [] /\
             StoredState.settings parsed = None ->
             App.migrate uuid parsed = None)
    by (intros parsed [Hj Hs]; unfold App.migrate; rewrite Hj, Hs; reflexivity).
  split; [|split].
  - destruct saved as [| |parsed]; simpl.
    + split; [discriminate|contradiction].
    + split; auto.
    + destruct (App.migrate uuid parsed) as [st|] eqn:E.
      * split.
        -- intros H; exfalso; exact (migrate_jobs_nonempty uuid parsed st E H).
        -- intros H; rewrite (M parsed H) in E; discriminate.
      * split; [intros _|reflexivity].
        unfold App.migrate in E.
        destruct (List.length (JS.or_list (StoredState.jobs parsed)) =? 0)%nat eqn:L;
          [|discriminate].
        apply length_eqb_0 in L.
        destruct (StoredState.settings parsed); [discriminate|auto].
  - intros H.
    assert (I : App.load uuid saved = App.initialState).
    { destruct saved as [| |parsed]; simpl in *; [discriminate|reflexivity|].
      destruct (App.migrate uuid parsed) as [st|] eqn:E; [|reflexivity].
      exfalso; exact (migrate_jobs_nonempty uuid parsed st E H). }
    split; [exact I|rewrite I; reflexivity].
  - intros st Hst; simpl; rewrite (migrate_store uuid st Hst); reflexivity.
Qed.
